(** * diffcmp: diffstat testing on real repositories

    A shallow embedding of the Ruby script [diffcmp] (usage:
    [./diffcmp <repo> [path-to-pepper]]) and the properties of its
    probe, revision enumeration, comparison and mismatch reporting.

    The script is a straight-line program around one loop.  It talks to
    the outside through subprocesses ([IO.popen]), the working directory
    ([Dir.pwd], [Dir.chdir]), temporary files, two artifact files per
    mismatch, and the two output streams.  The embedding keeps all of
    these: the environment is a record of oracle functions ([World]), the
    script is a computation in a small monad that threads the working
    directory, stops at [exit] or at an uncaught exception, and records
    every effect in a trace of events.  The script rescues no exception:
    a subprocess that cannot be run, a directory that cannot be entered
    or an artifact that cannot be written ends the run. *)

From Stdlib Require Import Ascii String List ZArith Bool Arith Lia.
From Stdlib Require Import Decimal DecimalString.
Import ListNotations.

Local Open Scope list_scope.
Local Open Scope string_scope.

(** ** Ruby strings *)

Module RubyString.

Definition nl : ascii := "010"%char.
Definition tab : ascii := "009"%char.
Definition cr : ascii := "013"%char.
Definition esc : ascii := "027"%char.

Definition chr (c : ascii) : string := String c "".

(** [String#strip] removes leading and trailing whitespace, which Ruby
    defines as null, horizontal tab, line feed, vertical tab, form
    feed, carriage return and space. *)
Definition is_space (c : ascii) : bool :=
  existsb (Ascii.eqb c)
    ["000"; "009"; "010"; "011"; "012"; "013"; " "]%char.

Fixpoint lstrip (s : string) : string :=
  match s with
  | String c s' => if is_space c then lstrip s' else s
  | "" => ""
  end.

Fixpoint rstrip (s : string) : string :=
  match s with
  | String c s' =>
      match rstrip s' with
      | "" => if is_space c then "" else chr c
      | r => String c r
      end
  | "" => ""
  end.

Definition strip (s : string) : string := rstrip (lstrip s).

(** [IO#readlines]: the output cut after every line feed, the line feed
    kept with its line; a last line without line feed is a line too;
    empty output has no line. *)
Fixpoint readlines (s : string) : list string :=
  match s with
  | "" => []
  | String c s' =>
      if Ascii.eqb c nl then chr c :: readlines s'
      else match readlines s' with
           | [] => [chr c]
           | l :: ls => String c l :: ls
           end
  end.

(** [Array#join] without separator. *)
Definition join (ls : list string) : string := String.concat "" ls.

Fixpoint ends_with_nl (s : string) : bool :=
  match s with
  | "" => false
  | String c "" => Ascii.eqb c nl
  | String _ s' => ends_with_nl s'
  end.

(** [IO#puts] of one string: the string, and a line feed unless it
    already ends with one. *)
Definition puts_string (s : string) : string :=
  if ends_with_nl s then s else s ++ chr nl.

(** [IO#puts] of an array: every element as by [puts].  What an empty
    array writes is not the same in every Ruby (a line feed or nothing);
    it is the argument [empty]. *)
Definition puts_array (empty : string) (ls : list string) : string :=
  match ls with
  | [] => empty
  | _ => join (map puts_string ls)
  end.

(** [Integer#to_s], as interpolated by ["#{i}"]. *)
Definition to_s (n : nat) : string :=
  NilEmpty.string_of_uint (Nat.to_uint n).

(** [sprintf] restricted to the directives the command templates use:
    [%s] takes the next argument, [%%] is a percent sign.  Too few
    arguments raise [ArgumentError] ([None]); surplus arguments are
    ignored, as Ruby does outside debug mode. *)
Fixpoint sprintf (fmt : string) (args : list string) : option string :=
  match fmt with
  | "" => Some ""
  | String "%" (String "s" rest) =>
      match args with
      | a :: args' => option_map (append a) (sprintf rest args')
      | [] => None
      end
  | String "%" (String "%" rest) => option_map (String "%") (sprintf rest args)
  | String "%" _ => None
  | String c rest => option_map (String c) (sprintf rest args)
  end.

(** No line feed anywhere. *)
Fixpoint no_nl (s : string) : bool :=
  match s with
  | "" => true
  | String c s' => negb (Ascii.eqb c nl) && no_nl s'
  end.

(** A line as [readlines] produces it: a line feed can only be the last
    character. *)
Fixpoint nl_only_last (s : string) : bool :=
  match s with
  | "" => true
  | String c "" => true
  | String c s' => negb (Ascii.eqb c nl) && nl_only_last s'
  end.

Fixpoint all_space (s : string) : bool :=
  match s with
  | "" => true
  | String c s' => is_space c && all_space s'
  end.

Fixpoint all_chars (p : ascii -> bool) (s : string) : bool :=
  match s with
  | "" => true
  | String c s' => p c && all_chars p s'
  end.

Definition starts_with (c : ascii) (s : string) : bool :=
  match s with
  | String c' _ => Ascii.eqb c' c
  | "" => false
  end.

(** Surrounded by no whitespace: the first and the last character are
    not whitespace. *)
Fixpoint last_not_space (s : string) : bool :=
  match s with
  | "" => false
  | String c "" => negb (is_space c)
  | String _ s' => last_not_space s'
  end.

Definition trimmed (s : string) : bool :=
  match s with
  | "" => false
  | String c _ => negb (is_space c) && last_not_space s
  end.

End RubyString.
Import RubyString.

(** ** Ruby regular expressions, as far as the script uses them

    The script has three patterns: [/^\//], [/^r([0-9]+)/] and
    [/^[0-9]+:( .* )/] (written here with blanks inside the group, which
    the source does not have).  They are sequences of the line anchor and of
    single-character classes, taken once or repeated greedily, some
    inside a capture group.  The matcher below is a backtracking matcher
    for such sequences. *)

Module Regex.

Inductive cclass :=
| CChar (c : ascii)            (* a literal character *)
| CRange (lo hi : ascii)       (* [lo-hi] *)
| CDot.                        (* . : any character but line feed *)

Inductive quant := Once | Plus | Star.

Inductive node :=
| Bol                                         (* ^ *)
| Atom (cap : bool) (k : cclass) (q : quant). (* k, k+ or k*, in a group when cap *)

Definition regex := list node.

Definition accepts (k : cclass) (c : ascii) : bool :=
  match k with
  | CChar c' => Ascii.eqb c c'
  | CRange lo hi =>
      (nat_of_ascii lo <=? nat_of_ascii c)%nat && (nat_of_ascii c <=? nat_of_ascii hi)%nat
  | CDot => negb (Ascii.eqb c nl)
  end.

(** [^] holds at the start of the string and after a line feed that is
    not the end of the string.  [prev] is the character before the
    position, [s] what follows it. *)
Definition at_bol (prev : option ascii) (s : string) : bool :=
  match prev with
  | None => true
  | Some c => Ascii.eqb c nl && negb (s =? "")
  end.

Definition add_cap (cap : bool) (text : string) (r : option (list string))
  : option (list string) :=
  if cap then option_map (cons text) r else r.

(** A greedy repetition of class [k] followed by the rest of the
    pattern [rest]: it first takes as many characters as it can and
    gives them back one at a time while [rest] fails.  [taken] is what
    the repetition holds so far; [k+] cannot stop while it is empty. *)
Fixpoint rep (cap : bool) (k : cclass) (q : quant)
         (rest : option ascii -> string -> option (list string))
         (taken : string) (prev : option ascii) (s : string) {struct s}
  : option (list string) :=
  let stop :=
    match q, taken with
    | Plus, "" => None
    | _, _ => add_cap cap taken (rest prev s)
    end in
  match s with
  | String c s' =>
      if accepts k c then
        match rep cap k q rest (taken ++ chr c) (Some c) s' with
        | Some r => Some r
        | None => stop
        end
      else stop
  | "" => stop
  end.

(** Match [re] at one position.  The result is the list of captured
    texts, in group order. *)
Fixpoint match_here (re : regex) (prev : option ascii) (s : string) {struct re}
  : option (list string) :=
  match re with
  | [] => Some []
  | Bol :: re' => if at_bol prev s then match_here re' prev s else None
  | Atom cap k Once :: re' =>
      match s with
      | String c s' =>
          if accepts k c then add_cap cap (chr c) (match_here re' (Some c) s')
          else None
      | "" => None
      end
  | Atom cap k q :: re' => rep cap k q (match_here re') "" prev s
  end.

(** [Regexp#match]: the leftmost position where the pattern matches. *)
Fixpoint search (re : regex) (prev : option ascii) (s : string) {struct s}
  : option (list string) :=
  match match_here re prev s with
  | Some caps => Some caps
  | None =>
      match s with
      | String c s' => search re (Some c) s'
      | "" => None
      end
  end.

(** [re.match(s)]; the value is [MatchData#captures]. *)
Definition rmatch (re : regex) (s : string) : option (list string) :=
  search re None s.

(** [Regexp#source]: the pattern as it is written between the slashes. *)
Definition class_source (k : cclass) : string :=
  match k with
  | CChar c => chr c
  | CRange lo hi => "[" ++ chr lo ++ "-" ++ chr hi ++ "]"
  | CDot => "."
  end.

Definition quant_source (q : quant) : string :=
  match q with
  | Once => ""
  | Plus => "+"
  | Star => "*"
  end.

Definition node_source (n : node) : string :=
  match n with
  | Bol => "^"
  | Atom cap k q =>
      if cap then "(" ++ class_source k ++ quant_source q ++ ")"
      else class_source k ++ quant_source q
  end.

Fixpoint source (re : regex) : string :=
  match re with
  | [] => ""
  | n :: re' => node_source n ++ source re'
  end.

(** The number of capture groups of a pattern. *)
Fixpoint groups (re : regex) : nat :=
  match re with
  | [] => 0
  | Atom true _ _ :: re' => S (groups re')
  | _ :: re' => groups re'
  end.

(** The longest prefix of [s] made of characters of class [k]. *)
Fixpoint span (k : cclass) (s : string) : string :=
  match s with
  | String c s' => if accepts k c then String c (span k s') else ""
  | "" => ""
  end.

(** What follows the longest prefix of class [k]. *)
Fixpoint after (k : cclass) (s : string) : string :=
  match s with
  | String c s' => if accepts k c then after k s' else s
  | "" => ""
  end.

Definition digit : cclass := CRange "0" "9".

(** A match is truthy, [nil] is not. *)
Definition matched (m : option (list string)) : bool :=
  match m with
  | Some _ => true
  | None => false
  end.

(** [/^\//] *)
Definition re_slash : regex := [Bol; Atom false (CChar "/") Once].
(** [/^r([0-9]+)/] *)
Definition re_svn : regex :=
  [Bol; Atom false (CChar "r") Once; Atom true (CRange "0" "9") Plus].
(** [/^[0-9]+:( .* )/], the group holding just dot-star *)
Definition re_hg : regex :=
  [Bol; Atom false (CRange "0" "9") Plus; Atom false (CChar ":") Once;
   Atom true CDot Star].

End Regex.
Import Regex.


(** ** The environment and the effects of the script *)

Module Proc.

(** What the script cannot decide itself.  [popen dir cmd input] is the
    subprocess [cmd] started in working directory [dir], with [input]
    written to its standard input when the pipe is opened for writing:
    its whole standard output and its wait status ([$?], 0 for a clean
    exit).  [popen_error dir cmd input] is the exception, if there is
    one, that [IO.popen(cmd)] or the exchange over its pipe ([puts],
    [close_write], [readlines], [close]) raises: the command cannot be
    started, the pipe breaks.  [file_error path content] is the
    exception, if there is one, that
    [File.open(path, 'w') { |f| f.write(content) }] raises: the directory
    of [path] is missing or cannot be written.  [Dir.chdir] fails when
    [chdir] gives [None].  The other calls are taken to succeed: the
    temporary control scripts, the two output streams, [Dir.pwd] and
    [File.absolute_path]. *)
Record World := {
  popen : string -> string -> option string -> string * Z;
  popen_error : string -> string -> option string -> option string;
  file_error : string -> string -> option string;
  pwd0 : string;                              (* Dir.pwd at launch *)
  chdir : string -> string -> option string;  (* from, target: the new directory *)
  absolute_path : string -> string -> string; (* File.absolute_path, from a directory *)
  tmp_path : string -> string;                (* path of Tempfile.new(basename) *)
  puts_empty : string                         (* what IO#puts writes for [] *)
}.

Inductive stream := Stdout | Stderr.

(** The calls the trace records.  [Popen] and [Chdir] stand for the
    call, whether it succeeds or raises; [FileWrite] and [TempfileWrite]
    stand for a file that has been written. *)
Inductive event :=
| Write (fd : stream) (text : string)
| TempfileWrite (path content : string)
| Popen (dir cmd : string) (input : option string)
| Chdir (target : string)
| FileWrite (path content : string).

(** How a Ruby process ends: it runs off the end of the script, it
    calls [exit], or an exception reaches the top level. *)
Inductive outcome :=
| Finished
| Exit (status : Z)
| Raised (exn : string).

(** The exit status the parent sees; an uncaught exception gives 1. *)
Definition exit_status (o : outcome) : Z :=
  match o with
  | Finished => 0
  | Exit n => n
  | Raised _ => 1
  end.

Inductive result (A : Type) :=
| Ok (a : A)
| Stop (o : outcome).
Arguments Ok {A} a.
Arguments Stop {A} o.

(** A computation: from the working directory to a result, the working
    directory afterwards and the events it caused, oldest first. *)
Definition M (A : Type) : Type := string -> result A * string * list event.

Definition ret {A} (a : A) : M A := fun d => (Ok a, d, []).

Definition bind {A B} (m : M A) (f : A -> M B) : M B :=
  fun d =>
    let '(r, d1, t1) := m d in
    match r with
    | Ok a => let '(r2, d2, t2) := f a d1 in (r2, d2, (t1 ++ t2)%list)
    | Stop o => (Stop o, d1, t1)
    end.

Definition emit (e : event) : M unit := fun d => (Ok tt, d, [e]).
Definition stop {A} (o : outcome) : M A := fun d => (Stop o, d, []).
Definition raise {A} (exn : string) : M A := stop (Raised exn).
Definition exit {A} (n : Z) : M A := stop (Exit n).
Definition getcwd : M string := fun d => (Ok d, d, []).

Definition outcome_of {A} (r : result A) : outcome :=
  match r with
  | Ok _ => Finished
  | Stop o => o
  end.

End Proc.
Import Proc.

Declare Scope proc_scope.
Delimit Scope proc_scope with proc.
Notation "x <- m ;; k" := (bind m (fun x => k))
  (at level 61, m at next level, right associativity) : proc_scope.
Notation "' p <- m ;; k" := (bind m (fun x => match x with p => k end))
  (at level 61, p pattern, m at next level, right associativity) : proc_scope.
Notation "m ;; k" := (bind m (fun _ => k))
  (at level 61, right associativity) : proc_scope.
Local Open Scope proc_scope.

(** ** The script *)

Module Diffcmp.

(** One entry of the [diffcmd] hash.  The Git entry has no [:logregex]
    key; looking it up gives [nil], here [None]. *)
Record backend := {
  log : string;
  logregex : option regex;
  single : string;
  double : string;
  passurl : bool
}.

(** The three entries of the [diffcmd] hash. *)
Definition subversion_backend : backend :=
  {| log := "svn log -q %s";
     logregex := Some re_svn;
     single := "svn diff -c %s %s";
     double := "svn diff -r %s:%s %s";
     passurl := true |}.

Definition git_backend : backend :=
  {| log := "git rev-list HEAD";
     logregex := None;
     single := "git diff-tree -U --no-renames --root %s";
     double := "git diff-tree -U --no-renames %s %s";
     passurl := false |}.

Definition mercurial_backend : backend :=
  {| log := "hg log -q";
     logregex := Some re_hg;
     single := "hg diff -c %s";
     double := "hg diff -r %s -r %s";
     passurl := false |}.

(** [diffcmd[type]]; [None] is the [nil] of an unknown key. *)
Definition diffcmd (type : string) : option backend :=
  if type =? "subversion" then Some subversion_backend
  else if type =? "git" then Some git_backend
  else if type =? "mercurial" then Some mercurial_backend
  else None.

Definition line (s : string) : string := s ++ chr nl.

(** The control script of the probe. *)
Definition type_script : string :=
  line "function run(self)" ++
  line (chr tab ++ "local repo = self:repository()") ++
  line (chr tab ++ "print(repo:type())") ++
  line (chr tab ++ "print(repo:url())") ++
  "end".

(** The control script printing one revision's diffstat. *)
Definition diff_script : string :=
  line "function run(self)" ++
  line (chr tab ++ "local d = self:repository():revision(self:getopt('r')):diffstat()") ++
  line (chr tab ++ "print('INSERTED,DELETED,MODIFIED,FILENAME')") ++
  line (chr tab ++ "for i,v in pairs(d:files()) do") ++
  line (chr tab ++ chr tab ++
        "print(tostring(d:lines_added(v)) .. ',' .. tostring(d:lines_removed(v)) .. ',0,' .. v)") ++
  line (chr tab ++ "end") ++
  "end".

(** [url] after the [file://] rewrite of lines 34-36. *)
Definition normalize_url (type url : string) : string :=
  if (type =? "subversion") && matched (rmatch re_slash url)
  then "file://" ++ url
  else url.

(** The loop of lines 77-82: [newlog] grows at its end by the first
    capture of every line that matches. *)
Definition first_capture (caps : list string) : string := hd "" caps.

Definition extract (re : regex) (lines : list string) : list string :=
  fold_left
    (fun newlog x =>
       match rmatch re x with
       | Some caps => (newlog ++ [first_capture caps])%list
       | None => newlog
       end)
    lines [].

(** The two results of one comparison that the script tests with [!=];
    [matches] is the negation of that test. *)
Definition matches (out_pepper out_native : string) : bool :=
  out_pepper =? out_native.

Definition probe_command (pepper tmp repo : string) : string :=
  pepper ++ " -q " ++ tmp ++ " " ++ repo.

Definition pepper_command (pepper tmp rev repo : string) : string :=
  pepper ++ " --no-cache -q " ++ tmp ++ " -r" ++ rev ++ " " ++ repo.

Definition diffstat_command (type : string) : string :=
  "diffstat -t -p" ++ (if type =? "subversion" then "0" else "1").

Definition pepper_artifact (olddir rev : string) : string :=
  olddir ++ "/diff.pepper." ++ rev.

Definition native_artifact (olddir rev : string) : string :=
  olddir ++ "/diff.native." ++ rev.

Definition warning (rev : string) : string :=
  "Warning: Diffstats for revision " ++ rev ++ " don't match! Check diff.pepper." ++
  rev ++ " and diff.native." ++ rev.

Definition progress (i total : nat) : string :=
  chr esc ++ "[0K" ++ chr cr ++ "Comparing diffstats... " ++ to_s i ++ "/" ++ to_s total.

(** What one line adds to [newlog]: its first capture when it matches,
    nothing when it does not. *)
Definition capture_of (re : regex) (x : string) : list string :=
  match rmatch re x with
  | Some caps => [first_capture caps]
  | None => []
  end.

(** [/^r([0-9]+)/] read in words: an [r], then at least one digit; the
    revision is the whole run of digits. *)
Definition svn_revision (x : string) : option string :=
  match x with
  | String c s =>
      if Ascii.eqb c "r" then
        match span digit s with
        | "" => None
        | ds => Some ds
        end
      else None
  | "" => None
  end.

(** The Mercurial pattern read in words: at least one digit, then a
    colon; the revision is what follows the colon up to the line feed. *)
Definition hg_revision (x : string) : option string :=
  match span digit x with
  | "" => None
  | _ =>
      match after digit x with
      | String c s => if Ascii.eqb c ":" then Some (span CDot s) else None
      | "" => None
      end
  end.

Definition pattern_revision (type : string) (x : string) : list string :=
  match (if type =? "subversion" then svn_revision x else hg_revision x) with
  | Some r => [r]
  | None => []
  end.

(** The Mercurial pattern after its digits. *)
Definition colon_rest : option ascii -> string -> option (list string) :=
  match_here [Atom false (CChar ":") Once; Atom true CDot Star].

Section Script.

Variable W : World.

(** [IO.popen(cmd)], [readlines], [close]: the answer of the
    subprocess, or the exception of the exchange. *)
Definition run_popen (cmd : string) (input : option string) : M (string * Z) :=
  d <- getcwd ;;
  emit (Popen d cmd input) ;;
  match popen_error W d cmd input with
  | Some exn => raise exn
  | None => ret (popen W d cmd input)
  end.

Definition run_chdir (target : string) : M unit :=
  fun d =>
    match chdir W d target with
    | Some d' => (Ok tt, d', [Chdir target])
    | None => (Stop (Raised "Errno::ENOENT"), d, [Chdir target])
    end.

(** [Tempfile.new(basename)], [<<], [flush]; the value is [tmp.path]. *)
Definition tempfile (basename content : string) : M string :=
  emit (TempfileWrite (tmp_path W basename) content) ;;
  ret (tmp_path W basename).

Definition puts (text : string) : M unit := emit (Write Stdout (puts_string text)).
Definition print (text : string) : M unit := emit (Write Stdout text).
Definition warn (text : string) : M unit := emit (Write Stderr (puts_string text)).

(** [File.open(path, 'w') { |f| f.write(content) }]. *)
Definition file_write (path content : string) : M unit :=
  match file_error W path content with
  | Some exn => raise exn
  | None => emit (FileWrite path content)
  end.

(** [sprintf] inside the script: [ArgumentError] when it fails. *)
Definition run_sprintf (fmt : string) (args : list string) : M string :=
  match sprintf fmt args with
  | Some s => ret s
  | None => raise "ArgumentError"
  end.

(** [out[n].strip()]: [out[n]] is [nil] past the end, and [nil] has no
    method [strip]. *)
Definition strip_nth (out : list string) (n : nat) : M string :=
  match nth_error out n with
  | Some l => ret (strip l)
  | None => raise "NoMethodError"
  end.

(** [diffcmd[type][...]]: [nil] has no method [[]]. *)
Definition lookup (type : string) : M backend :=
  match diffcmd type with
  | Some b => ret b
  | None => raise "NoMethodError"
  end.

(** Lines 18-37: the value is [(type, url)]. *)
Definition probe (pepper repo : string) : M (string * string) :=
  puts "Probing repository..." ;;
  tmp <- tempfile "type" type_script ;;
  '(output, status) <- run_popen (probe_command pepper tmp repo) None ;;
  let out := readlines output in
  if negb (status =? 0)%Z then exit 1 else
  type <- strip_nth out 0 ;;
  url <- strip_nth out 1 ;;
  ret (type, normalize_url type url).

(** Lines 63-84: the value is [(olddir, log)]. *)
Definition fetch_log (type url : string) : M (string * list string) :=
  olddir <- getcwd ;;
  b <- lookup type ;;
  (if passurl b then ret tt else run_chdir url) ;;
  puts "Fetching logs..." ;;
  cmd <- (if passurl b then run_sprintf (log b) [url] else run_sprintf (log b) []) ;;
  '(output, _) <- run_popen cmd None ;;
  let lines := readlines output in
  ret (olddir,
       match logregex b with
       | Some regex => extract regex lines
       | None => lines
       end).

(** The variables of the script that the loop reads. *)
Record vars := {
  v_pepper : string;
  v_repo : string;
  v_type : string;
  v_url : string;
  v_olddir : string;
  v_log : list string
}.

(** Lines 10-84: arguments, probe and log. *)
Definition setup (argv : list string) : M vars :=
  match argv with
  | [] => raise "Missing argument"
  | repo :: rest =>
      d <- getcwd ;;
      let pepper := match rest with
                    | [] => "pepper"
                    | p :: _ => absolute_path W d p
                    end in
      '(type, url) <- probe pepper repo ;;
      '(olddir, log) <- fetch_log type url ;;
      ret {| v_pepper := pepper; v_repo := repo; v_type := type; v_url := url;
             v_olddir := olddir; v_log := log |}
  end.

(** Lines 100-128, the body of the loop for one element [x] of [log],
    with [i] the counter before it and [tmp] the path of the control
    script.  The value pairs the revision with whether the two
    diffstats are equal; the script itself keeps neither. *)
Definition compare_rev (v : vars) (tmp : string) (i : nat) (x : string)
  : M (string * bool) :=
  let rev := strip x in
  let i := i + 1 in
  print (progress i (List.length (v_log v))) ;;
  '(output, _) <- run_popen (pepper_command (v_pepper v) tmp rev (v_repo v)) None ;;
  let out_pepper := join (readlines output) in
  b <- lookup (v_type v) ;;
  cmd <- (if passurl b then run_sprintf (single b) [rev; v_url v]
          else run_sprintf (single b) [rev]) ;;
  '(output, _) <- run_popen cmd None ;;
  let diff_data := readlines output in
  '(output, _) <- run_popen (diffstat_command (v_type v))
                            (Some (puts_array (puts_empty W) diff_data)) ;;
  let out_native := join (readlines output) in
  (if negb (matches out_pepper out_native) then
     file_write (pepper_artifact (v_olddir v) rev) out_pepper ;;
     file_write (native_artifact (v_olddir v) rev) out_native ;;
     puts (chr nl) ;;
     warn (warning rev)
   else ret tt) ;;
  ret (rev, matches out_pepper out_native).

(** [log.each { |rev| ... }] with the counter [i]. *)
Fixpoint each_rev (body : nat -> string -> M (string * bool))
         (i : nat) (revs : list string) : M (list (string * bool)) :=
  match revs with
  | [] => ret []
  | x :: revs' =>
      r <- body i x ;;
      rs <- each_rev body (S i) revs' ;;
      ret (r :: rs)
  end.

(** Lines 86-130. *)
Definition compare_all (v : vars) : M (list (string * bool)) :=
  tmp <- tempfile "diff" diff_script ;;
  print "Comparing diffstats... " ;;
  rs <- each_rev (compare_rev v tmp) 0 (v_log v) ;;
  puts "" ;;
  ret rs.

(** The whole script on [ARGV]. *)
Definition main (argv : list string) : M (list (string * bool)) :=
  v <- setup argv ;;
  compare_all v.

(** A run from the launch directory: how it ended (with its comparison
    results when it reached the end), the final working directory and
    the trace. *)
Definition run (argv : list string) : result (list (string * bool)) * string * list event :=
  main argv (pwd0 W).

Definition run_result (argv : list string) : result (list (string * bool)) :=
  fst (fst (run argv)).
Definition run_trace (argv : list string) : list event := snd (run argv).
Definition run_status (argv : list string) : Z := exit_status (outcome_of (run_result argv)).

(** *** What the environment answers

    The texts the two sides of a comparison print for revision [rev]
    when run in directory [d], and the closed form of the events of
    one pass through the loop. *)

(** The native diff command of a backend, spelled out. *)
Definition single_diff_command (type rev url : string) : string :=
  if type =? "subversion" then "svn diff -c " ++ rev ++ " " ++ url
  else if type =? "git" then "git diff-tree -U --no-renames --root " ++ rev
  else "hg diff -c " ++ rev.

(** The log command of a backend, spelled out. *)
Definition log_command (type url : string) : string :=
  if type =? "subversion" then "svn log -q " ++ url
  else if type =? "git" then "git rev-list HEAD"
  else "hg log -q".

Definition candidate_output (d : string) (v : vars) (tmp rev : string) : string :=
  fst (popen W d (pepper_command (v_pepper v) tmp rev (v_repo v)) None).

Definition native_diff (d : string) (v : vars) (rev : string) : string :=
  fst (popen W d (single_diff_command (v_type v) rev (v_url v)) None).

Definition reference_output (d : string) (v : vars) (rev : string) : string :=
  fst (popen W d (diffstat_command (v_type v))
             (Some (puts_array (puts_empty W) (readlines (native_diff d v rev))))).

Definition report_events (olddir rev out_pepper out_native : string) : list event :=
  if matches out_pepper out_native then []
  else [FileWrite (pepper_artifact olddir rev) out_pepper;
        FileWrite (native_artifact olddir rev) out_native;
        Write Stdout (chr nl);
        Write Stderr (puts_string (warning rev))].

Definition rev_events (d : string) (v : vars) (tmp : string) (i : nat) (rev : string)
  : list event :=
  [Write Stdout (progress (i + 1) (List.length (v_log v)));
   Popen d (pepper_command (v_pepper v) tmp rev (v_repo v)) None;
   Popen d (single_diff_command (v_type v) rev (v_url v)) None;
   Popen d (diffstat_command (v_type v))
         (Some (puts_array (puts_empty W) (readlines (native_diff d v rev))))]
  ++ report_events (v_olddir v) rev (candidate_output d v tmp rev) (reference_output d v rev).

Fixpoint loop_events (d : string) (v : vars) (tmp : string) (i : nat) (revs : list string)
  : list event :=
  match revs with
  | [] => []
  | x :: revs' => rev_events d v tmp i (strip x) ++ loop_events d v tmp (S i) revs'
  end.

Definition rev_result (d : string) (v : vars) (tmp : string) (x : string) : string * bool :=
  (strip x, matches (candidate_output d v tmp (strip x)) (reference_output d v (strip x))).

(** *** What the environment refuses

    A pass through the loop completes when its three subprocesses can
    be run and, when the two outputs differ, both artifacts can be
    written. *)

Definition succeeds (err : option string) : bool :=
  match err with
  | None => true
  | Some _ => false
  end.

Definition subprocesses_run (d : string) (v : vars) (tmp rev : string) : bool :=
  succeeds (popen_error W d (pepper_command (v_pepper v) tmp rev (v_repo v)) None)
  && succeeds (popen_error W d (single_diff_command (v_type v) rev (v_url v)) None)
  && succeeds (popen_error W d (diffstat_command (v_type v))
                           (Some (puts_array (puts_empty W) (readlines (native_diff d v rev))))).

Definition artifacts_written (d : string) (v : vars) (tmp rev : string) : bool :=
  succeeds (file_error W (pepper_artifact (v_olddir v) rev) (candidate_output d v tmp rev))
  && succeeds (file_error W (native_artifact (v_olddir v) rev) (reference_output d v rev)).

Definition pass_ok (d : string) (v : vars) (tmp rev : string) : bool :=
  subprocesses_run d v tmp rev
  && (matches (candidate_output d v tmp rev) (reference_output d v rev)
      || artifacts_written d v tmp rev).

Definition passes_ok (d : string) (v : vars) (tmp : string) (revs : list string) : bool :=
  forallb (fun x => pass_ok d v tmp (strip x)) revs.

(** The first call of a pass that raises, if one does: the exception,
    and how many of the events of [rev_events] have happened by then
    (the progress text and the calls of [IO.popen] up to the one that
    raises, or all four of them and the artifacts written so far). *)
Definition pass_fault (d : string) (v : vars) (tmp rev : string) : option (string * nat) :=
  match popen_error W d (pepper_command (v_pepper v) tmp rev (v_repo v)) None with
  | Some exn => Some (exn, 2)
  | None =>
  match popen_error W d (single_diff_command (v_type v) rev (v_url v)) None with
  | Some exn => Some (exn, 3)
  | None =>
  match popen_error W d (diffstat_command (v_type v))
                    (Some (puts_array (puts_empty W) (readlines (native_diff d v rev)))) with
  | Some exn => Some (exn, 4)
  | None =>
  if matches (candidate_output d v tmp rev) (reference_output d v rev) then None else
  match file_error W (pepper_artifact (v_olddir v) rev) (candidate_output d v tmp rev) with
  | Some exn => Some (exn, 4)
  | None =>
  match file_error W (native_artifact (v_olddir v) rev) (reference_output d v rev) with
  | Some exn => Some (exn, 5)
  | None => None
  end end end end end.

(** The loop in closed form: the passes up to the first one that
    raises. *)
Fixpoint loop_run (d : string) (v : vars) (tmp : string) (i : nat) (revs : list string)
  : result (list (string * bool)) * list event :=
  match revs with
  | [] => (Ok [], [])
  | x :: revs' =>
      match pass_fault d v tmp (strip x) with
      | Some (exn, k) => (Stop (Raised exn), firstn k (rev_events d v tmp i (strip x)))
      | None =>
          let '(r, t) := loop_run d v tmp (S i) revs' in
          (match r with
           | Ok rs => Ok (rev_result d v tmp x :: rs)
           | Stop o => Stop o
           end,
           (rev_events d v tmp i (strip x) ++ t)%list)
      end
  end.


(** *** The run in closed form *)

(** [pepper] after lines 13-16. *)
Definition pepper_of (rest : list string) : string :=
  match rest with
  | [] => "pepper"
  | p :: _ => absolute_path W (pwd0 W) p
  end.

Definition probe_events (pepper repo d : string) : list event :=
  [Write Stdout (line "Probing repository...");
   TempfileWrite (tmp_path W "type") type_script;
   Popen d (probe_command pepper (tmp_path W "type") repo) None].

(** The directory the log and the comparisons run in: the launch
    directory when the URL is passed, else where [Dir.chdir(url)] leads. *)
Definition work_dir (b : backend) (d url : string) : option string :=
  if passurl b then Some d else chdir W d url.

Definition chdir_events (b : backend) (url : string) : list event :=
  if passurl b then [] else [Chdir url].

Definition log_output (d type url : string) : string :=
  fst (popen W d (log_command type url) None).

(** [log] after line 84. *)
Definition enumerate (b : backend) (output : string) : list string :=
  match logregex b with
  | Some regex => extract regex (readlines output)
  | None => readlines output
  end.

Definition fetch_events (b : backend) (d type url : string) : list event :=
  chdir_events b url
  ++ [Write Stdout (line "Fetching logs..."); Popen d (log_command type url) None].

(** The variables as the loop finds them. *)
Definition vars_of (repo : string) (rest : list string) (type url : string)
           (b : backend) (d : string) : vars :=
  {| v_pepper := pepper_of rest; v_repo := repo; v_type := type; v_url := url;
     v_olddir := pwd0 W; v_log := enumerate b (log_output d type url) |}.

Definition compare_all_events (d : string) (v : vars) : list event :=
  [TempfileWrite (tmp_path W "diff") diff_script; Write Stdout "Comparing diffstats... "]
  ++ loop_events d v (tmp_path W "diff") 0 (v_log v)
  ++ [Write Stdout (chr nl)].

(** Lines 86-130 in closed form, the loop stopping where it does; the
    final [puts()] comes only after a loop that reached its end. *)
Definition all_run (d : string) (v : vars)
  : result (list (string * bool)) * list event :=
  let '(r, t) := loop_run d v (tmp_path W "diff") 0 (v_log v) in
  (r,
   ([TempfileWrite (tmp_path W "diff") diff_script; Write Stdout "Comparing diffstats... "]
    ++ t
    ++ match r with
       | Ok _ => [Write Stdout (chr nl)]
       | Stop _ => []
       end)%list).

(** Whether the log command can be run. *)
Definition log_ok (d type url : string) : bool :=
  succeeds (popen_error W d (log_command type url) None).

Definition rev_popens (d : string) (v : vars) (tmp rev : string) : list (string * string) :=
  [(d, pepper_command (v_pepper v) tmp rev (v_repo v));
   (d, single_diff_command (v_type v) rev (v_url v));
   (d, diffstat_command (v_type v))].

Definition rev_artifacts (d : string) (v : vars) (tmp rev : string) : list (string * string) :=
  if matches (candidate_output d v tmp rev) (reference_output d v rev) then []
  else [(pepper_artifact (v_olddir v) rev, candidate_output d v tmp rev);
        (native_artifact (v_olddir v) rev, reference_output d v rev)].

End Script.

(** *** Reading a trace *)

Definition file_writes (t : list event) : list (string * string) :=
  flat_map (fun e => match e with FileWrite p c => [(p, c)] | _ => [] end) t.

Definition warnings (t : list event) : list string :=
  flat_map (fun e => match e with Write Stderr s => [s] | _ => [] end) t.

Definition prints (t : list event) : list string :=
  flat_map (fun e => match e with Write Stdout s => [s] | _ => [] end) t.

Definition popens (t : list event) : list (string * string) :=
  flat_map (fun e => match e with Popen d cmd _ => [(d, cmd)] | _ => [] end) t.

Definition chdirs (t : list event) : list string :=
  flat_map (fun e => match e with Chdir target => [target] | _ => [] end) t.

(** Every file an event writes, temporary or not. *)
Definition files_written (t : list event) : list (string * string) :=
  flat_map (fun e => match e with
                     | FileWrite p c | TempfileWrite p c => [(p, c)]
                     | _ => []
                     end) t.

(** *** Two runs *)

(** The result of the probe as a function of what its subprocess
    answers. *)
Definition probe_result (W : World) (pepper repo d : string) : result (string * string) :=
  match popen_error W d (probe_command pepper (tmp_path W "type") repo) None with
  | Some exn => Stop (Raised exn)
  | None =>
      let '(output, status) := popen W d (probe_command pepper (tmp_path W "type") repo) None in
      if negb (status =? 0)%Z then Stop (Exit 1)
      else match readlines output with
           | l0 :: l1 :: _ => Ok (strip l0, normalize_url (strip l0) (strip l1))
           | _ => Stop (Raised "NoMethodError")
           end
  end.

(** Two environments for two runs on the same, unchanged repository with
    the same tool and the same Ruby: the launch directory and the file
    system answer alike, a command line gets the same answer in both (or
    cannot be run in both, for the same reason), and the tool under test
    answers alike although each run stores its control scripts under
    temporary names of its own. *)
Record same_repository (W1 W2 : World) (pepper repo : string) : Prop := {
  same_pwd : pwd0 W1 = pwd0 W2;
  same_chdir : forall d target, chdir W1 d target = chdir W2 d target;
  same_ruby : puts_empty W1 = puts_empty W2;
  same_files : forall path content, file_error W1 path content = file_error W2 path content;
  same_command : forall d cmd input, popen W1 d cmd input = popen W2 d cmd input;
  same_command_error : forall d cmd input,
      popen_error W1 d cmd input = popen_error W2 d cmd input;
  same_probe : forall d,
      popen W1 d (probe_command pepper (tmp_path W1 "type") repo) None
      = popen W2 d (probe_command pepper (tmp_path W2 "type") repo) None;
  same_probe_error : forall d,
      popen_error W1 d (probe_command pepper (tmp_path W1 "type") repo) None
      = popen_error W2 d (probe_command pepper (tmp_path W2 "type") repo) None;
  same_tool : forall d rev,
      popen W1 d (pepper_command pepper (tmp_path W1 "diff") rev repo) None
      = popen W2 d (pepper_command pepper (tmp_path W2 "diff") rev repo) None;
  same_tool_error : forall d rev,
      popen_error W1 d (pepper_command pepper (tmp_path W1 "diff") rev repo) None
      = popen_error W2 d (pepper_command pepper (tmp_path W2 "diff") rev repo) None
}.

End Diffcmp.
Import Diffcmp.

(** ** Concrete environments

    Environments whose subprocesses answer by the first entry of a table
    whose key is a prefix of the command line. *)

Module Samples.

Fixpoint answer (table : list (string * (string * Z))) (cmd : string) : string * Z :=
  match table with
  | [] => ("", 0%Z)
  | (p, r) :: table' => if prefix p cmd then r else answer table' cmd
  end.

Fixpoint has_slash (s : string) : bool :=
  match s with
  | "" => false
  | String c s' => Ascii.eqb c "/" || has_slash s'
  end.

(** The directory of a path: the text before its last slash. *)
Fixpoint dirname (path : string) : string :=
  match path with
  | "" => ""
  | String c s => if has_slash s then String c (dirname s) else ""
  end.

(** Every command can be run; the launch directory [/home/dev] can be
    written and has no subdirectory, so that a file can be created
    exactly when its directory is [/home/dev]. *)
Definition table_world (tmpdir : string) (table : list (string * (string * Z))) : World :=
  {| popen := fun _ cmd _ => answer table cmd;
     popen_error := fun _ _ _ => None;
     file_error := fun path _ =>
                     if dirname path =? "/home/dev" then None else Some "Errno::ENOENT";
     pwd0 := "/home/dev";
     chdir := fun _ target => Some target;
     absolute_path := fun d p => if starts_with "/" p then p else d ++ "/" ++ p;
     tmp_path := fun b => tmpdir ++ "/" ++ b;
     puts_empty := chr nl |}.

Definition lines (ls : list string) : string := join (map line ls).

(** A Git repository of two commits on which the tool agrees with the
    native client, with an empty line in the middle of the log. *)
Definition git_blank_line : World :=
  table_world "/tmp"
    [("pepper -q", (lines ["git"; "/srv/project"], 0%Z));
     ("git rev-list", (lines ["4f2a"; ""; "9c1e"], 0%Z));
     ("pepper --no-cache", (lines ["INSERTED,DELETED,MODIFIED,FILENAME"; "3,1,0,foo.c"], 0%Z));
     ("diffstat", (lines ["INSERTED,DELETED,MODIFIED,FILENAME"; "3,1,0,foo.c"], 0%Z))].

(** A Subversion repository where the tool and the native client
    disagree on every revision. *)
Definition svn_mismatch : World :=
  table_world "/tmp"
    [("pepper -q", (lines ["subversion"; "/srv/repo"], 0%Z));
     ("svn log", (lines ["------"; "r42 | alice | 2011-03-04"; "------";
                         "r41 | bob | 2011-03-01"; "------"], 0%Z));
     ("pepper --no-cache", (lines ["INSERTED,DELETED,MODIFIED,FILENAME"; "3,1,0,foo.c"], 0%Z));
     ("diffstat", (lines ["INSERTED,DELETED,MODIFIED,FILENAME"; "3,0,0,foo.c"], 0%Z))].

(** The tool reports a backend the table does not know. *)
Definition unknown_backend : World :=
  table_world "/tmp" [("pepper -q", (lines ["cvs"; "/srv/repo"], 0%Z))].

(** The probe exits with status 1. *)
Definition probe_fails : World :=
  table_world "/tmp" [("pepper -q", (lines ["git"; "/srv/project"], 256%Z))].

(** The probe prints one line only. *)
Definition probe_short : World :=
  table_world "/tmp" [("pepper -q", (lines ["git"], 0%Z))].

(** A Mercurial repository. *)
Definition hg_repo (tmpdir : string) : World :=
  table_world tmpdir
    [("pepper -q", (lines ["mercurial"; "/srv/hg"], 0%Z));
     ("hg log", (lines ["5:abc123def"; ""; "4:0123456789ab"], 0%Z));
     ("pepper --no-cache", (lines ["INSERTED,DELETED,MODIFIED,FILENAME"; "3,1,0,foo.c"], 0%Z));
     ("hg diff -c abc", (lines ["diff"], 0%Z));
     ("diffstat", (lines ["INSERTED,DELETED,MODIFIED,FILENAME"; "3,1,0,foo.c"], 0%Z))].

(** A Git repository of one commit where the tool lists the two changed
    files in another order than the native client. *)
Definition git_reordered : World :=
  table_world "/tmp"
    [("pepper -q", (lines ["git"; "/srv/project"], 0%Z));
     ("git rev-list", (lines ["4f2a"], 0%Z));
     ("pepper --no-cache",
      (lines ["INSERTED,DELETED,MODIFIED,FILENAME"; "3,1,0,foo.c"; "2,0,0,bar.c"], 0%Z));
     ("diffstat",
      (lines ["INSERTED,DELETED,MODIFIED,FILENAME"; "2,0,0,bar.c"; "3,1,0,foo.c"], 0%Z))].

(** A Git repository of three commits on which the tool agrees with the
    native client. *)
Definition git_three_commits : World :=
  table_world "/tmp"
    [("pepper -q", (lines ["git"; "/srv/project"], 0%Z));
     ("git rev-list", (lines ["9c1e"; "4f2a"; "07bd"], 0%Z));
     ("pepper --no-cache", (lines ["INSERTED,DELETED,MODIFIED,FILENAME"; "3,1,0,foo.c"], 0%Z));
     ("diffstat", (lines ["INSERTED,DELETED,MODIFIED,FILENAME"; "3,1,0,foo.c"], 0%Z))].

(** A Mercurial repository whose first log line names a revision with a
    slash in it, and on which the tool and the native client disagree. *)
Definition hg_slash : World :=
  table_world "/tmp"
    [("pepper -q", (lines ["mercurial"; "/srv/hg"], 0%Z));
     ("hg log", (lines ["5:a/b"; "4:0123456789ab"], 0%Z));
     ("pepper --no-cache", (lines ["INSERTED,DELETED,MODIFIED,FILENAME"; "3,1,0,foo.c"], 0%Z));
     ("diffstat", (lines ["INSERTED,DELETED,MODIFIED,FILENAME"; "3,0,0,foo.c"], 0%Z))].

(** The Subversion repository of [svn_mismatch], the script launched in
    a directory it may not write to. *)
Definition svn_read_only : World :=
  {| popen := popen svn_mismatch;
     popen_error := popen_error svn_mismatch;
     file_error := fun _ _ => Some "Errno::EACCES";
     pwd0 := pwd0 svn_mismatch;
     chdir := chdir svn_mismatch;
     absolute_path := absolute_path svn_mismatch;
     tmp_path := tmp_path svn_mismatch;
     puts_empty := puts_empty svn_mismatch |}.

(** The Git repository of [git_three_commits] on a machine without
    [diffstat]. *)
Definition git_no_diffstat : World :=
  {| popen := popen git_three_commits;
     popen_error := fun _ cmd _ =>
                      if prefix "diffstat" cmd then Some "Errno::ENOENT" else None;
     file_error := file_error git_three_commits;
     pwd0 := pwd0 git_three_commits;
     chdir := chdir git_three_commits;
     absolute_path := absolute_path git_three_commits;
     tmp_path := tmp_path git_three_commits;
     puts_empty := puts_empty git_three_commits |}.

(** The tool under test is not installed. *)
Definition no_pepper : World :=
  {| popen := fun _ _ _ => ("", 0%Z);
     popen_error := fun _ cmd _ =>
                      if prefix "pepper" cmd then Some "Errno::ENOENT" else None;
     file_error := fun _ _ => None;
     pwd0 := "/home/dev";
     chdir := fun _ target => Some target;
     absolute_path := fun d p => d ++ "/" ++ p;
     tmp_path := fun b => "/tmp/" ++ b;
     puts_empty := chr nl |}.

(** The variables of a run on the Git repository with the empty log
    line. *)
Definition git_vars : vars :=
  {| v_pepper := "pepper"; v_repo := "/srv/project"; v_type := "git";
     v_url := "/srv/project"; v_olddir := "/home/dev";
     v_log := [line "4f2a"; line ""; line "9c1e"] |}.

End Samples.


(** ** Reading a whole run *)

Module Observe.

(** The inputs the script hands to its subprocesses. *)
Definition inputs (t : list event) : list (string * option string) :=
  flat_map (fun e => match e with Popen _ cmd input => [(cmd, input)] | _ => [] end) t.

(** Two environments that differ at most in the wait status of the
    subprocesses other than the probe [pepper -q <script> repo]: they
    agree on what can be run and written, and on every standard output. *)
Record same_outputs (W1 W2 : World) (pepper repo : string) : Prop := {
  so_pwd : pwd0 W1 = pwd0 W2;
  so_chdir : forall d target, chdir W1 d target = chdir W2 d target;
  so_tmp : forall b, tmp_path W1 b = tmp_path W2 b;
  so_ruby : puts_empty W1 = puts_empty W2;
  so_files : forall path content, file_error W1 path content = file_error W2 path content;
  so_error : forall d cmd input, popen_error W1 d cmd input = popen_error W2 d cmd input;
  so_stdout : forall d cmd input, fst (popen W1 d cmd input) = fst (popen W2 d cmd input);
  so_probe : forall d,
      snd (popen W1 d (probe_command pepper (tmp_path W1 "type") repo) None)
      = snd (popen W2 d (probe_command pepper (tmp_path W2 "type") repo) None)
}.

(** A Git repository whose URL is no directory, and one whose native
    client and diffstat end with a status other than 0. *)
Definition git_no_directory : World :=
  {| popen := fun _ cmd _ =>
                Samples.answer [("pepper -q", (Samples.lines ["git"; "/srv/gone"], 0%Z))] cmd;
     popen_error := fun _ _ _ => None;
     file_error := fun _ _ => None;
     pwd0 := "/home/dev";
     chdir := fun _ _ => None;
     absolute_path := fun d p => d ++ "/" ++ p;
     tmp_path := fun b => "/tmp/" ++ b;
     puts_empty := chr nl |}.

Definition git_failing_helpers : World :=
  Samples.table_world "/tmp"
    [("pepper -q", (Samples.lines ["git"; "/srv/project"], 0%Z));
     ("git rev-list", (Samples.lines ["9c1e"; "4f2a"; "07bd"], 32768%Z));
     ("pepper --no-cache",
      (Samples.lines ["INSERTED,DELETED,MODIFIED,FILENAME"; "3,1,0,foo.c"], 256%Z));
     ("diffstat",
      (Samples.lines ["INSERTED,DELETED,MODIFIED,FILENAME"; "3,1,0,foo.c"], 512%Z))].

End Observe.
Import Observe.

(** ** The gnuplot binding (plot.cpp)

    The methods of [Plot] read their arguments from the Lua stack and
    send commands to gnuplot with [gcmd].  Modelled here is what the
    methods do with the values once they are read: how [set_output]
    chooses the terminal, how the [plot] command is put together, and how
    the data file and the number of series come out of the values.  The
    helpers whose code is elsewhere are parameters: [utils::strprintf],
    [LuaHelpers::tablesize], and the text [operator<<] gives a double. *)

Module Plot.

(** The double quote. *)
Definition dq : string := chr "034"%char.

(** [std::string::find_last_of(".")]: the position of the last
    character that is [c]; [None] is [npos]. *)
Fixpoint find_last_of (c : ascii) (s : string) : option nat :=
  match s with
  | "" => None
  | String c' s' =>
      match find_last_of c s' with
      | Some pos => Some (S pos)
      | None => if Ascii.eqb c' c then Some 0 else None
      end
  end.

(** [std::string::substr(pos)]: the text from [pos] on; [None] is the
    [std::out_of_range] thrown when [pos] is past the end. *)
Fixpoint substr (pos : nat) (s : string) : option string :=
  match pos, s with
  | 0, _ => Some s
  | S pos', String _ s' => substr pos' s'
  | S _, "" => None
  end.

Fixpoint no_dot (s : string) : bool :=
  match s with
  | "" => true
  | String c s' => negb (Ascii.eqb c ".") && no_dot s'
  end.

(** An argument of [utils::strprintf]. *)
Inductive parg :=
| PStr (s : string)
| PInt (n : Z).

(** The arguments of [set_output] as the [switch] of lines 99-104 reads
    them: the file alone, with a width, with width and height, or with
    width, height and terminal. *)
Inductive output_args :=
| File (file : string)
| FileWidth (file : string) (width : Z)
| FileSize (file : string) (width height : Z)
| FileSizeTerminal (file : string) (width height : Z) (terminal : string).

Definition file_of (a : output_args) : string :=
  match a with
  | File f | FileWidth f _ | FileSize f _ _ | FileSizeTerminal f _ _ _ => f
  end.

(** [width] and [height] start as 640 and 480, [terminal] as empty. *)
Definition width_of (a : output_args) : Z :=
  match a with
  | File _ => 640
  | FileWidth _ w | FileSize _ w _ | FileSizeTerminal _ w _ _ => w
  end.

Definition height_of (a : output_args) : Z :=
  match a with
  | File _ | FileWidth _ _ => 480
  | FileSize _ _ h | FileSizeTerminal _ _ h _ => h
  end.

Definition terminal_arg (a : output_args) : string :=
  match a with
  | FileSizeTerminal _ _ _ t => t
  | _ => ""
  end.

(** Lines 106-117: the terminal from the argument, from the extension
    of the file, or the standard one. *)
Definition choose_terminal (standard file terminal : string) : option string :=
  if terminal =? "" then
    match find_last_of "." file with
    | Some pos =>
        match substr (pos + 1) file with
        | Some t => Some (if t =? "" then standard else t)
        | None => None
        end
    | None => Some standard
    end
  else Some terminal.

(** Lines 119-123. *)
Definition alias (terminal : string) : string :=
  if (terminal =? "ps") || (terminal =? "eps") then "postscript eps color enhanced"
  else if terminal =? "jpg" then "jpeg"
  else terminal.

(** The terminal [set_output] asks gnuplot for. *)
Definition terminal_of (standard : string) (a : output_args) : option string :=
  option_map alias (choose_terminal standard (file_of a) (terminal_arg a)).

(** [options.find(key)] on the [std::map] of options. *)
Fixpoint find_option (key : string) (options : list (string * string)) : option string :=
  match options with
  | [] => None
  | (k, v) :: rest => if k =? key then Some v else find_option key rest
  end.

(** The part of a [plot] clause after the data source, lines 256-263:
    the title of series [i] when there is one, and the style. *)
Definition decoration (titles : list string) (style : option string) (i : nat) : string :=
  (match nth_error titles i with
   | Some title => " title " ++ dq ++ title ++ dq
   | None => " notitle"
   end)
  ++ (match style with
      | Some s => " with " ++ s
      | None => ""
      end).

(** The loop [for (size_t i = 0; i < nseries; i++)] of lines 254-267,
    349-362 and 449-462, from [i] on with [todo] rounds to go; [source i]
    is what the round writes before the title.  Inside the loop
    [nseries] is at least 1, so [nseries-1] does not wrap. *)
Fixpoint clauses (source : nat -> string) (titles : list string) (style : option string)
         (nseries i todo : nat) : string :=
  match todo with
  | 0 => ""
  | S todo' =>
      source i ++ decoration titles style i
      ++ (if (i <? nseries - 1)%nat then ", " else "")
      ++ clauses source titles style nseries (S i) todo'
  end.

Definition series_source (file : string) (i : nat) : string :=
  dq ++ file ++ dq ++ " using 1:" ++ to_s (i + 2).

Definition multi_source (files : list string) (i : nat) : string :=
  dq ++ nth i files "" ++ dq ++ " using 1:2".

Definition histogram_source (file : string) (i : nat) : string :=
  dq ++ file ++ dq ++ " using  " ++ to_s (i + 2) ++ ":xtic(1)".

(** The command of [plot_series], lines 251-270. *)
Definition series_command (file : string) (nseries : nat) (titles : list string)
           (options : list (string * string)) : string :=
  "plot " ++
  match find_option "command" options with
  | None =>
      clauses (series_source file) titles (find_option "style" options) nseries 0 nseries
  | Some command => dq ++ file ++ dq ++ " " ++ command
  end.

(** The command of [plot_multi_series], lines 347-362; [files] holds
    one data file per series. *)
Definition multi_series_command (files : list string) (titles : list string)
           (options : list (string * string)) : string :=
  "plot " ++
  clauses (multi_source files) titles (find_option "style" options)
          (List.length files) 0 (List.length files).

(** The command of [plot_histogram], lines 447-462. *)
Definition histogram_command (file : string) (nseries : nat) (titles : list string)
           (options : list (string * string)) : string :=
  "plot " ++
  clauses (histogram_source file) titles (find_option "style" options) nseries 0 nseries.

(** One clause without its separator. *)
Definition clause (source : nat -> string) (titles : list string) (style : option string)
           (i : nat) : string :=
  source i ++ decoration titles style i.

Section Methods.

Variable strprintf : string -> list parg -> string.

(** [set_output] from line 106 on: the commands sent with [gcmd], or
    [None] when [substr] throws. *)
Definition set_output (standard : string) (a : output_args) : option (list string) :=
  match terminal_of standard a with
  | Some terminal =>
      Some [if negb (file_of a =? "")
            then strprintf ("set output " ++ dq ++ "%s" ++ dq) [PStr (file_of a)]
            else strprintf "set output" [];
            strprintf "set terminal %s size %d,%d"
                      [PStr terminal; PInt (width_of a); PInt (height_of a)]]
  | None => None
  end.

End Methods.

Section Data.

(** The numbers of Lua, the text [out << x] gives for one, and
    [LuaHelpers::tablesize] on a table of numbers and on the table of
    values. *)
Variable D : Type.
Variable show : D -> string.
Variable row_size : list D -> nat.

(** A value of the data table: a number or a table of numbers. *)
Inductive entry :=
| Scalar (x : D)
| Row (xs : list D).

Inductive failure :=
| KeysMismatch        (* "Number of keys and values doesn't match" *)
| Inconsistent        (* "Inconsistent number of series" *)
| KeyOutOfRange.      (* keys[j] past the end of the vector *)

(** The numbers of a line of the data file. *)
Definition width (e : entry) : nat :=
  match e with
  | Scalar _ => 1
  | Row xs => List.length xs
  end.

(** The loop of lines 218-238 (and 413-433), with the keys still to
    come as they are written ([keys[j++]]), the values still to come in the
    order [lua_next] gives them, [nseries] and the text written so far. *)
Fixpoint write_rows (keys : list string) (values : list entry) (nseries : nat)
         (out : string) {struct values} : failure + (string * nat) :=
  match values with
  | [] => inr (out, nseries)
  | e :: values' =>
      match keys with
      | [] => inl KeyOutOfRange
      | k :: keys' =>
          let out := out ++ k ++ " " in
          match e with
          | Row xs =>
              if (nseries =? 0)%nat then
                write_rows keys' values' (row_size xs)
                           (out ++ String.concat "" (map (fun x => show x ++ " ") xs) ++ chr nl)
              else if negb (nseries =? row_size xs)%nat then inl Inconsistent
              else
                write_rows keys' values' nseries
                           (out ++ String.concat "" (map (fun x => show x ++ " ") xs) ++ chr nl)
          | Scalar x =>
              write_rows keys' values' 1 (out ++ show x ++ chr nl)
          end
      end
  end.

(** Lines 212-238: the check of the sizes ([values_size] is what
    [tablesize] gives for the table of values), then the loop.  The
    result is the text of the data file and [nseries]. *)
Definition write_data (values_size : nat) (keys : list string) (values : list entry)
  : failure + (string * nat) :=
  if negb (values_size =? List.length keys)%nat then inl KeysMismatch
  else write_rows keys values 0 "".

End Data.

End Plot.

(** * Properties *)

(** ** Strings and lines *)

Section StringFacts.

Lemma append_nil_r (s : string) : s ++ "" = s.
Proof. induction s as [|c s IH]; simpl; [reflexivity | now rewrite IH]. Qed.

Lemma append_assoc (s1 s2 s3 : string) : (s1 ++ s2) ++ s3 = s1 ++ (s2 ++ s3).
Proof. induction s1 as [|c s1 IH]; simpl; [reflexivity | now rewrite IH]. Qed.

Lemma append_inv_head (s t1 t2 : string) : s ++ t1 = s ++ t2 -> t1 = t2.
Proof.
  induction s as [|c s IH]; simpl; intros H; [exact H | injection H as H; auto].
Qed.

(** Joining the lines of a text gives the text back, byte for byte. *)
Lemma join_readlines (s : string) : join (readlines s) = s.
Proof.
  unfold join. induction s as [|c s IH]; simpl; [reflexivity|].
  destruct (Ascii.eqb c nl).
  - simpl. destruct (readlines s) as [|l ls]; simpl in *; now rewrite <- IH.
  - destruct (readlines s) as [|l ls] eqn:E; simpl in *.
    + now rewrite <- IH.
    + destruct ls; simpl in *; now rewrite <- IH.
Qed.

Lemma readlines_shape (s l : string) :
  In l (readlines s) -> nl_only_last l = true /\ l <> "".
Proof.
  revert l. induction s as [|c s IH]; simpl; intros l H; [contradiction|].
  destruct (Ascii.eqb c nl) eqn:Ec.
  - destruct H as [<- | H]; [split; [reflexivity | discriminate] | auto].
  - destruct (readlines s) as [|l0 ls] eqn:E.
    + destruct H as [<- | []]. split; [reflexivity | discriminate].
    + destruct H as [<- | H].
      * destruct (IH l0 (or_introl eq_refl)) as [H1 H2]. split; [|discriminate].
        simpl. destruct l0; [congruence|]. rewrite Ec. simpl. exact H1.
      * apply IH. now right.
Qed.

Lemma not_space_not_nl (c : ascii) : is_space c = false -> Ascii.eqb c nl = false.
Proof.
  intros H. destruct (Ascii.eqb c nl) eqn:E; [|reflexivity].
  apply Ascii.eqb_eq in E. subst c. discriminate H.
Qed.

Lemma lstrip_nl_only_last (s : string) :
  nl_only_last s = true -> nl_only_last (lstrip s) = true.
Proof.
  induction s as [|c s IH]; simpl; intros H; [reflexivity|].
  destruct (is_space c); [|exact H].
  apply IH. destruct s; [reflexivity|].
  apply andb_true_iff in H. apply H.
Qed.

Lemma rstrip_no_nl (s : string) : nl_only_last s = true -> no_nl (rstrip s) = true.
Proof.
  induction s as [|c s IH]; simpl; intros H; [reflexivity|].
  destruct s as [|c' s'].
  - simpl. destruct (is_space c) eqn:Es; [reflexivity|].
    simpl. now rewrite (not_space_not_nl _ Es).
  - apply andb_true_iff in H as [Hc Hs]. specialize (IH Hs).
    destruct (rstrip (String c' s')) as [|c'' r].
    + destruct (is_space c); simpl; [reflexivity | now rewrite Hc].
    + simpl in *. now rewrite Hc, IH.
Qed.

(** A stripped line holds no line feed. *)
Lemma strip_line_no_nl (l : string) : nl_only_last l = true -> no_nl (strip l) = true.
Proof. intros H. apply rstrip_no_nl, lstrip_nl_only_last, H. Qed.

Lemma rstrip_empty_iff (s : string) : rstrip s = "" <-> all_space s = true.
Proof.
  induction s as [|c s IH]; simpl; [tauto|].
  destruct (rstrip s) as [|c' r] eqn:E.
  - destruct (is_space c); simpl.
    + split; intros _; [now apply IH | reflexivity].
    + split; discriminate.
  - split; [discriminate|]. intros H. apply andb_true_iff in H as [_ H].
    apply IH in H. discriminate.
Qed.

Lemma all_space_lstrip (s : string) : all_space (lstrip s) = all_space s.
Proof.
  induction s as [|c s IH]; simpl; [reflexivity|].
  destruct (is_space c) eqn:E; simpl; [exact IH | now rewrite E].
Qed.

(** [strip] gives the empty string exactly on strings of whitespace. *)
Lemma strip_empty_iff (s : string) : strip s = "" <-> all_space s = true.
Proof. unfold strip. rewrite rstrip_empty_iff. now rewrite all_space_lstrip. Qed.

Lemma rstrip_line (s : string) : rstrip (s ++ chr nl) = rstrip s.
Proof. induction s as [|c s IH]; simpl; [reflexivity | now rewrite IH]. Qed.

Lemma strip_line (s : string) : strip (line s) = strip s.
Proof.
  unfold strip, line. induction s as [|c s IH]; simpl; [reflexivity|].
  destruct (is_space c); [exact IH|].
  change (String c (s ++ chr nl)) with (String c s ++ chr nl).
  apply rstrip_line.
Qed.

Lemma rstrip_last_not_space (s : string) : last_not_space s = true -> rstrip s = s.
Proof.
  induction s as [|c s IH]; simpl; intros H; [discriminate|].
  destruct s as [|c' s'].
  - simpl. apply negb_true_iff in H. now rewrite H.
  - rewrite (IH H). reflexivity.
Qed.

(** A line whose text is surrounded by no whitespace is stripped to
    that text: only the line feed goes. *)
Lemma strip_trimmed_line (s : string) : trimmed s = true -> strip (line s) = s.
Proof.
  intros H. rewrite strip_line. unfold strip.
  destruct s as [|c s]; [discriminate|].
  simpl in H. apply andb_true_iff in H as [Hc Hl].
  apply negb_true_iff in Hc. simpl lstrip. rewrite Hc.
  now apply rstrip_last_not_space.
Qed.

End StringFacts.

(** ** The patterns *)

Section RegexFacts.

Example source_re_slash : source re_slash = "^/".
Proof. reflexivity. Qed.
Example source_re_svn : source re_svn = "^r([0-9]+)".
Proof. reflexivity. Qed.
Example source_re_hg : source re_hg = "^[0-9]+:(." ++ "*" ++ ")".
Proof. reflexivity. Qed.

Example rmatch_svn :
  rmatch re_svn (line "r1234 | alice | 2011-03-04 10:00:00 +0100 (Fri, 04 Mar 2011)") = Some ["1234"].
Proof. reflexivity. Qed.
Example rmatch_svn_rule : rmatch re_svn (line "--------") = None.
Proof. reflexivity. Qed.
Example rmatch_hg : rmatch re_hg (line "5:abc123def") = Some ["abc123def"].
Proof. reflexivity. Qed.
Example rmatch_hg_colons : rmatch re_hg (line "12:a:b") = Some ["a:b"].
Proof. reflexivity. Qed.
Example rmatch_hg_blank : rmatch re_hg (line "") = None.
Proof. reflexivity. Qed.
Example rmatch_hg_empty_capture : rmatch re_hg (line "5:") = Some [""].
Proof. reflexivity. Qed.
Example rmatch_slash_second_line : rmatch re_slash ("a" ++ chr nl ++ "/b") = Some [].
Proof. reflexivity. Qed.

Lemma add_cap_length (cap : bool) (text : string) r caps n :
  add_cap cap text r = Some caps ->
  (forall caps', r = Some caps' -> List.length caps' = n) ->
  List.length caps = (if cap then S n else n).
Proof.
  unfold add_cap. destruct cap; intros H Hr.
  - destruct r as [caps'|]; [|discriminate]. injection H as <-. simpl.
    now rewrite (Hr caps' eq_refl).
  - now apply Hr.
Qed.

Lemma rep_length cap k q rest n :
  (forall prev s caps, rest prev s = Some caps -> List.length caps = n) ->
  forall s taken prev caps,
    rep cap k q rest taken prev s = Some caps ->
    List.length caps = (if cap then S n else n).
Proof.
  intros Hrest.
  assert (Hstop : forall taken prev s caps,
             match q, taken with
             | Plus, "" => None
             | _, _ => add_cap cap taken (rest prev s)
             end = Some caps ->
             List.length caps = (if cap then S n else n)).
  { intros taken prev s caps H.
    destruct q, taken; try discriminate;
      (eapply add_cap_length; [exact H | intros; eapply Hrest; eauto]). }
  induction s as [|c s IH]; intros taken prev caps H; simpl in H.
  - eapply Hstop; eauto.
  - destruct (accepts k c).
    + destruct (rep cap k q rest (taken ++ chr c) (Some c) s) eqn:E.
      * injection H as <-. eapply IH; eauto.
      * eapply Hstop; eauto.
    + eapply Hstop; eauto.
Qed.

(** A match captures one text per group of the pattern. *)
Lemma match_here_length (re : regex) :
  forall prev s caps, match_here re prev s = Some caps -> List.length caps = groups re.
Proof.
  induction re as [|n re IH]; intros prev s caps H; simpl in H.
  - now injection H as <-.
  - destruct n as [|cap k q].
    + destruct (at_bol prev s); [|discriminate]. simpl. eauto.
    + assert (Hg : groups (Atom cap k q :: re) = if cap then S (groups re) else groups re)
        by (destruct cap; reflexivity).
      rewrite Hg. destruct q.
      * destruct s as [|c s]; [discriminate|].
        destruct (accepts k c); [|discriminate].
        eapply add_cap_length; [exact H | intros; eapply IH; eauto].
      * eapply rep_length; [|exact H]. intros; eapply IH; eauto.
      * eapply rep_length; [|exact H]. intros; eapply IH; eauto.
Qed.

Lemma search_length (re : regex) :
  forall s prev caps, search re prev s = Some caps -> List.length caps = groups re.
Proof.
  induction s as [|c s IH]; intros prev caps H; simpl in H.
  - destruct (match_here re prev "") eqn:E; [|discriminate].
    injection H as <-. eapply match_here_length; eauto.
  - destruct (match_here re prev (String c s)) eqn:E.
    + injection H as <-. eapply match_here_length; eauto.
    + eauto.
Qed.

(** Both patterns of the table have one group, so [captures()[0]] is
    the captured text and never [nil]. *)
Lemma table_patterns_capture_once (re : regex) (x : string) (caps : list string) :
  re = re_svn \/ re = re_hg ->
  rmatch re x = Some caps ->
  caps = [first_capture caps].
Proof.
  intros Hre H. apply search_length in H.
  assert (Hl : List.length caps = 1) by (destruct Hre; subst re; exact H).
  destruct caps as [|c [|c' caps]]; try discriminate. reflexivity.
Qed.

Lemma no_nl_nl_only_last (s : string) : no_nl s = true -> nl_only_last s = true.
Proof.
  induction s as [|c s IH]; simpl; intros H; [reflexivity|].
  apply andb_true_iff in H as [Hc Hs]. destruct s; [reflexivity|].
  rewrite Hc. simpl. auto.
Qed.

(** Inside a line there is no second place where [^] holds. *)
Lemma search_anchored_tail (re : regex) :
  forall s c, nl_only_last (String c s) = true -> search (Bol :: re) (Some c) s = None.
Proof.
  induction s as [|c' s IH]; intros c H.
  - simpl. destruct (Ascii.eqb c nl); reflexivity.
  - simpl in H. apply andb_true_iff in H as [Hc Hs].
    apply negb_true_iff in Hc.
    cbn [search match_here at_bol]. rewrite Hc. simpl andb. cbv iota.
    apply IH. exact Hs.
Qed.

(** On a line, an anchored pattern matches at the start or not at all. *)
Lemma rmatch_anchored_line (re : regex) (x : string) :
  nl_only_last x = true -> rmatch (Bol :: re) x = match_here (Bol :: re) None x.
Proof.
  intros H. unfold rmatch. destruct x as [|c s].
  - simpl. destruct (match_here re None ""); reflexivity.
  - cbn [search]. destruct (match_here (Bol :: re) None (String c s)); [reflexivity|].
    now apply search_anchored_tail.
Qed.

(** On a string without line feed, [/^\//] tests the first character. *)
Lemma slash_match (url : string) :
  no_nl url = true -> matched (rmatch re_slash url) = starts_with "/" url.
Proof.
  intros H. unfold re_slash. rewrite rmatch_anchored_line by now apply no_nl_nl_only_last.
  destruct url as [|c s]; [reflexivity|]. simpl.
  destruct (Ascii.eqb c "/"); reflexivity.
Qed.

Lemma extract_flat_map (re : regex) (lines : list string) :
  extract re lines = flat_map (capture_of re) lines.
Proof.
  unfold extract.
  enough (G : forall acc,
             fold_left
               (fun newlog x =>
                  match rmatch re x with
                  | Some caps => (newlog ++ [first_capture caps])%list
                  | None => newlog
                  end) lines acc = (acc ++ flat_map (capture_of re) lines)%list)
    by apply (G []).
  induction lines as [|x lines IH]; intros acc; simpl.
  - now rewrite app_nil_r.
  - rewrite IH. unfold capture_of. destruct (rmatch re x); simpl.
    + now rewrite <- app_assoc.
    + reflexivity.
Qed.

End RegexFacts.

(** ** The command table *)

Section TableFacts.

Lemma diffcmd_cases (type : string) (b : backend) :
  diffcmd type = Some b ->
  type = "subversion" \/ type = "git" \/ type = "mercurial".
Proof.
  unfold diffcmd. intros H.
  destruct (String.eqb_spec type "subversion"); [now left|].
  destruct (String.eqb_spec type "git"); [now right; left|].
  destruct (String.eqb_spec type "mercurial"); [now right; right|].
  discriminate.
Qed.

Lemma sprintf_log (type url : string) (b : backend) :
  diffcmd type = Some b ->
  (if passurl b then sprintf (log b) [url] else sprintf (log b) [])
  = Some (log_command type url).
Proof.
  intros H. destruct (diffcmd_cases _ _ H) as [-> | [-> | ->]];
    injection H as <-; unfold log_command; simpl; try reflexivity.
  now rewrite append_nil_r.
Qed.

Lemma sprintf_single (type rev url : string) (b : backend) :
  diffcmd type = Some b ->
  (if passurl b then sprintf (single b) [rev; url] else sprintf (single b) [rev])
  = Some (single_diff_command type rev url).
Proof.
  intros H. destruct (diffcmd_cases _ _ H) as [-> | [-> | ->]];
    injection H as <-; unfold single_diff_command; simpl; now rewrite append_nil_r.
Qed.

End TableFacts.

(** ** The script, phase by phase *)

Section MonadFacts.

Context {A B : Type}.

Lemma bind_run (m : M A) (f : A -> M B) (d : string)
      (a : A) (d1 : string) (t1 : list event)
      (r : result B) (d2 : string) (t2 t : list event) :
  m d = (Ok a, d1, t1) ->
  f a d1 = (r, d2, t2) ->
  t = (t1 ++ t2)%list ->
  bind m f d = (r, d2, t).
Proof. intros Hm Hf ->. unfold bind. now rewrite Hm, Hf. Qed.

Lemma bind_stop (m : M A) (f : A -> M B) (d : string)
      (o : outcome) (d1 : string) (t1 : list event) :
  m d = (Stop o, d1, t1) ->
  bind m f d = (Stop o, d1, t1).
Proof. intros Hm. unfold bind. now rewrite Hm. Qed.

End MonadFacts.

Section ScriptFacts.

Variable W : World.

Lemma run_sprintf_log (type url : string) (b : backend) :
  diffcmd type = Some b ->
  (if passurl b then run_sprintf (log b) [url] else run_sprintf (log b) [])
  = ret (log_command type url).
Proof.
  intros H. pose proof (sprintf_log type url b H) as E.
  unfold run_sprintf. destruct (passurl b); now rewrite E.
Qed.

Lemma run_sprintf_single (type rev url : string) (b : backend) :
  diffcmd type = Some b ->
  (if passurl b then run_sprintf (single b) [rev; url] else run_sprintf (single b) [rev])
  = ret (single_diff_command type rev url).
Proof.
  intros H. pose proof (sprintf_single type rev url b H) as E.
  unfold run_sprintf. destruct (passurl b); now rewrite E.
Qed.

(** A call of [IO.popen] is recorded, and gives the answer of the
    subprocess or the exception of the exchange. *)
Lemma run_popen_run (cmd : string) (input : option string) (d : string) :
  run_popen W cmd input d
  = (match popen_error W d cmd input with
     | Some exn => Stop (Raised exn)
     | None => Ok (popen W d cmd input)
     end, d, [Popen d cmd input]).
Proof.
  unfold run_popen, bind, getcwd, emit.
  destruct (popen_error W d cmd input); reflexivity.
Qed.

(** A subprocess whose status the script does not read. *)
Lemma bind_popen {B : Type} (cmd : string) (input : option string)
      (k : string -> M B) (d : string) :
  bind (run_popen W cmd input) (fun x => match x with (output, _) => k output end) d
  = match popen_error W d cmd input with
    | Some exn => (Stop (Raised exn), d, [Popen d cmd input])
    | None =>
        let '(r, d', t) := k (fst (popen W d cmd input)) d in
        (r, d', Popen d cmd input :: t)
    end.
Proof.
  unfold bind. rewrite run_popen_run.
  destruct (popen_error W d cmd input); [reflexivity|].
  destruct (popen W d cmd input) as [o s]. reflexivity.
Qed.

(** Lines 123-128, the report of a mismatch. *)
Lemma report_run (olddir rev out_pepper out_native d : string) :
  (if negb (matches out_pepper out_native) then
     file_write W (pepper_artifact olddir rev) out_pepper ;;
     file_write W (native_artifact olddir rev) out_native ;;
     puts (chr nl) ;;
     warn (warning rev)
   else ret tt) d
  = if matches out_pepper out_native then (Ok tt, d, [])
    else match file_error W (pepper_artifact olddir rev) out_pepper with
         | Some exn => (Stop (Raised exn), d, [])
         | None =>
             match file_error W (native_artifact olddir rev) out_native with
             | Some exn =>
                 (Stop (Raised exn), d, [FileWrite (pepper_artifact olddir rev) out_pepper])
             | None => (Ok tt, d, report_events olddir rev out_pepper out_native)
             end
         end.
Proof.
  unfold report_events. destruct (matches out_pepper out_native); [reflexivity|].
  cbn [negb]. unfold bind, file_write.
  destruct (file_error W (pepper_artifact olddir rev) out_pepper); [reflexivity|].
  destruct (file_error W (native_artifact olddir rev) out_native); reflexivity.
Qed.

Lemma pass_fault_none (d : string) (v : vars) (tmp rev : string) :
  pass_fault W d v tmp rev = None <-> pass_ok W d v tmp rev = true.
Proof.
  unfold pass_fault, pass_ok, subprocesses_run, artifacts_written.
  destruct (popen_error W d (pepper_command (v_pepper v) tmp rev (v_repo v)) None);
    [split; discriminate|].
  destruct (popen_error W d (single_diff_command (v_type v) rev (v_url v)) None);
    [split; discriminate|].
  destruct (popen_error W d (diffstat_command (v_type v))
                        (Some (puts_array (puts_empty W) (readlines (native_diff W d v rev)))));
    [split; discriminate|].
  destruct (matches (candidate_output W d v tmp rev) (reference_output W d v rev));
    [split; reflexivity|].
  destruct (file_error W (pepper_artifact (v_olddir v) rev) (candidate_output W d v tmp rev));
    [split; discriminate|].
  destruct (file_error W (native_artifact (v_olddir v) rev) (reference_output W d v rev));
    [split; discriminate | split; reflexivity].
Qed.

(** One pass through the loop, in closed form: it leaves the working
    directory alone; it causes [rev_events] and gives the revision and
    the result of the comparison, or stops at the first call that raises,
    with the events up to there. *)
Lemma compare_rev_run (v : vars) (tmp : string) (i : nat) (x d : string) (b : backend) :
  diffcmd (v_type v) = Some b ->
  compare_rev W v tmp i x d
  = match pass_fault W d v tmp (strip x) with
    | None => (Ok (rev_result W d v tmp x), d, rev_events W d v tmp i (strip x))
    | Some (exn, k) => (Stop (Raised exn), d, firstn k (rev_events W d v tmp i (strip x)))
    end.
Proof.
  intros Hb. unfold compare_rev.
  unfold bind at 1. unfold print at 1, emit at 1.
  rewrite bind_popen.
  unfold pass_fault, rev_result, rev_events.
  destruct (popen_error W d (pepper_command (v_pepper v) tmp (strip x) (v_repo v)) None);
    [reflexivity|].
  unfold lookup. rewrite Hb. unfold bind at 1. unfold ret at 1.
  unfold bind at 1. rewrite (run_sprintf_single _ (strip x) (v_url v) _ Hb). unfold ret at 1.
  rewrite bind_popen.
  destruct (popen_error W d (single_diff_command (v_type v) (strip x) (v_url v)) None);
    [reflexivity|].
  rewrite bind_popen. fold (native_diff W d v (strip x)).
  destruct (popen_error W d (diffstat_command (v_type v))
                        (Some (puts_array (puts_empty W)
                                          (readlines (native_diff W d v (strip x))))));
    [reflexivity|].
  rewrite !join_readlines.
  fold (candidate_output W d v tmp (strip x)). fold (reference_output W d v (strip x)).
  unfold bind at 1. rewrite report_run.
  destruct (matches (candidate_output W d v tmp (strip x)) (reference_output W d v (strip x)))
    eqn:Em.
  - unfold report_events. rewrite Em. reflexivity.
  - destruct (file_error W (pepper_artifact (v_olddir v) (strip x))
                         (candidate_output W d v tmp (strip x))).
    + unfold report_events. rewrite Em. reflexivity.
    + destruct (file_error W (native_artifact (v_olddir v) (strip x))
                           (reference_output W d v (strip x))).
      * unfold report_events. rewrite Em. reflexivity.
      * unfold report_events. rewrite Em. reflexivity.
Qed.

Lemma compare_rev_ok (v : vars) (tmp : string) (i : nat) (x d : string) (b : backend) :
  diffcmd (v_type v) = Some b ->
  pass_ok W d v tmp (strip x) = true ->
  compare_rev W v tmp i x d = (Ok (rev_result W d v tmp x), d, rev_events W d v tmp i (strip x)).
Proof.
  intros Hb Hok. rewrite (compare_rev_run v tmp i x d b Hb).
  apply pass_fault_none in Hok. now rewrite Hok.
Qed.

Lemma each_rev_run (v : vars) (tmp d : string) (b : backend) :
  diffcmd (v_type v) = Some b ->
  forall revs i,
    each_rev (compare_rev W v tmp) i revs d
    = (fst (loop_run W d v tmp i revs), d, snd (loop_run W d v tmp i revs)).
Proof.
  intros Hb. induction revs as [|x revs IH]; intros i; cbn [each_rev loop_run]; [reflexivity|].
  unfold bind at 1. rewrite (compare_rev_run v tmp i x d b Hb).
  destruct (pass_fault W d v tmp (strip x)) as [[exn k]|]; [reflexivity|].
  unfold bind at 1. rewrite IH.
  destruct (loop_run W d v tmp (S i) revs) as [[rs|o] t]; cbn [fst snd].
  - unfold ret. now rewrite app_nil_r.
  - reflexivity.
Qed.

Lemma compare_all_run (v : vars) (d : string) (b : backend) :
  diffcmd (v_type v) = Some b ->
  compare_all W v d = (fst (all_run W d v), d, snd (all_run W d v)).
Proof.
  intros Hb. unfold compare_all, all_run, tempfile, print, puts, emit.
  unfold bind at 1. unfold bind at 1. unfold ret at 1.
  unfold bind at 1. unfold bind at 1.
  rewrite (each_rev_run v _ d b Hb).
  destruct (loop_run W d v (tmp_path W "diff") 0 (v_log v)) as [[rs|o] t]; cbn [fst snd].
  - unfold bind, ret. simpl. rewrite ?app_nil_r. reflexivity.
  - simpl. rewrite ?app_nil_r. reflexivity.
Qed.

(** *** The loop: where it stops *)

Lemma loop_run_ok (d : string) (v : vars) (tmp : string) (revs : list string) :
  forall i,
    passes_ok W d v tmp revs = true ->
    loop_run W d v tmp i revs
    = (Ok (map (rev_result W d v tmp) revs), loop_events W d v tmp i revs).
Proof.
  induction revs as [|x revs IH]; intros i H; cbn [loop_run map loop_events]; [reflexivity|].
  cbn [passes_ok forallb] in H. apply andb_true_iff in H as [Hx Hrevs].
  apply pass_fault_none in Hx. rewrite Hx. now rewrite (IH (S i) Hrevs).
Qed.

Lemma loop_run_stop (d : string) (v : vars) (tmp : string) (revs : list string) :
  forall i,
    passes_ok W d v tmp revs = false ->
    exists exn, fst (loop_run W d v tmp i revs) = Stop (Raised exn).
Proof.
  induction revs as [|x revs IH]; intros i H; cbn [loop_run]; [discriminate|].
  cbn [passes_ok forallb] in H.
  destruct (pass_fault W d v tmp (strip x)) as [[exn k]|] eqn:E; [now exists exn|].
  apply pass_fault_none in E. rewrite E in H. cbn [andb] in H.
  destruct (IH (S i) H) as (exn & Hexn). exists exn.
  destruct (loop_run W d v tmp (S i) revs) as [r t]. cbn [fst] in *. now rewrite Hexn.
Qed.

(** A loop that reaches its end has completed every pass. *)
Lemma loop_run_inv (d : string) (v : vars) (tmp : string) (revs : list string)
      (i : nat) (rs : list (string * bool)) :
  fst (loop_run W d v tmp i revs) = Ok rs -> passes_ok W d v tmp revs = true.
Proof.
  intros H. destruct (passes_ok W d v tmp revs) eqn:E; [reflexivity|].
  destruct (loop_run_stop d v tmp revs i E) as (exn & Hexn). congruence.
Qed.

Lemma In_firstn {X : Type} (k : nat) (l : list X) (a : X) : In a (firstn k l) -> In a l.
Proof.
  revert l. induction k as [|k IH]; intros l H; [destruct H|].
  destruct l as [|y l]; [destruct H|]. destruct H as [<- | H]; [now left | right; auto].
Qed.

(** Whatever happens, the loop causes no event that the completed loop
    would not cause. *)
Lemma loop_run_events (d : string) (v : vars) (tmp : string) (revs : list string) :
  forall i e, In e (snd (loop_run W d v tmp i revs)) -> In e (loop_events W d v tmp i revs).
Proof.
  induction revs as [|x revs IH]; intros i e H; cbn [loop_run loop_events] in *; [exact H|].
  apply in_or_app.
  destruct (pass_fault W d v tmp (strip x)) as [[exn k]|].
  - left. cbn [snd] in H. now apply In_firstn in H.
  - specialize (IH (S i) e).
    destruct (loop_run W d v tmp (S i) revs) as [r t]. cbn [snd] in *.
    apply in_app_or in H as [H | H]; [now left | right; auto].
Qed.

Lemma all_run_events (d : string) (v : vars) (e : event) :
  In e (snd (all_run W d v)) -> In e (compare_all_events W d v).
Proof.
  unfold all_run, compare_all_events.
  pose proof (loop_run_events d v (tmp_path W "diff") (v_log v) 0 e) as L.
  destruct (loop_run W d v (tmp_path W "diff") 0 (v_log v)) as [r t]. cbn [snd] in *.
  intros H. apply in_app_or in H as [H | H]; [apply in_or_app; now left|].
  apply in_or_app. right. apply in_app_or in H as [H | H].
  - apply in_or_app. left. auto.
  - apply in_or_app. right. destruct r; [exact H | destruct H].
Qed.

Lemma all_run_ok (d : string) (v : vars) :
  passes_ok W d v (tmp_path W "diff") (v_log v) = true ->
  all_run W d v
  = (Ok (map (rev_result W d v (tmp_path W "diff")) (v_log v)), compare_all_events W d v).
Proof.
  intros H. unfold all_run, compare_all_events. now rewrite (loop_run_ok d v _ _ 0 H).
Qed.

Lemma all_run_inv (d : string) (v : vars) (rs : list (string * bool)) :
  fst (all_run W d v) = Ok rs -> passes_ok W d v (tmp_path W "diff") (v_log v) = true.
Proof.
  unfold all_run. intros H. apply (loop_run_inv d v (tmp_path W "diff") (v_log v) 0 rs).
  destruct (loop_run W d v (tmp_path W "diff") 0 (v_log v)) as [r t]. exact H.
Qed.

Lemma all_run_stop (d : string) (v : vars) :
  passes_ok W d v (tmp_path W "diff") (v_log v) = false ->
  exists exn, fst (all_run W d v) = Stop (Raised exn).
Proof.
  intros H. destruct (loop_run_stop d v _ _ 0 H) as (exn & Hexn). exists exn.
  unfold all_run. destruct (loop_run W d v (tmp_path W "diff") 0 (v_log v)) as [r t].
  exact Hexn.
Qed.

End ScriptFacts.

Section SetupFacts.

Variable W : World.

(** The probe in closed form. *)
Lemma probe_run (pepper repo d : string) :
  probe W pepper repo d = (probe_result W pepper repo d, d, probe_events W pepper repo d).
Proof.
  unfold probe, probe_events, probe_result, puts, tempfile, emit.
  unfold bind at 1. unfold bind at 1. unfold bind at 1. unfold ret at 1.
  unfold bind at 1. rewrite run_popen_run.
  destruct (popen_error W d (probe_command pepper (tmp_path W "type") repo) None);
    [reflexivity|].
  destruct (popen W d (probe_command pepper (tmp_path W "type") repo) None) as [output status].
  destruct (negb (status =? 0)%Z); [reflexivity|].
  unfold strip_nth, bind, ret.
  destruct (readlines output) as [|l0 [|l1 more]]; reflexivity.
Qed.

Lemma probe_value (pepper repo d : string) :
  fst (fst (probe W pepper repo d)) = probe_result W pepper repo d.
Proof. now rewrite probe_run. Qed.

Lemma probe_keeps_dir (pepper repo d : string) r d' t :
  probe W pepper repo d = (r, d', t) -> d' = d /\ t = probe_events W pepper repo d.
Proof. rewrite probe_run. intros H. injection H as _ <- <-. auto. Qed.

(** A probe that stops has status 1: [exit 1] or an exception. *)
Lemma probe_result_stop (pepper repo d : string) (o : outcome) :
  probe_result W pepper repo d = Stop o -> exit_status o = 1%Z.
Proof.
  unfold probe_result.
  destruct (popen_error W d (probe_command pepper (tmp_path W "type") repo) None);
    [intros H; now injection H as <-|].
  destruct (popen W d (probe_command pepper (tmp_path W "type") repo) None) as [output status].
  destruct (negb (status =? 0)%Z); [intros H; now injection H as <-|].
  destruct (readlines output) as [|l0 [|l1 more]]; intros H; try discriminate;
    now injection H as <-.
Qed.

(** The log fetch in closed form, once the table has the backend and
    the working directory is settled. *)
Lemma fetch_log_run (type url d0 : string) (b : backend) (d : string) :
  diffcmd type = Some b ->
  work_dir W b d0 url = Some d ->
  fetch_log W type url d0
  = (match popen_error W d (log_command type url) None with
     | Some exn => Stop (Raised exn)
     | None => Ok (d0, enumerate b (log_output W d type url))
     end, d, fetch_events b d type url).
Proof.
  intros Hb Hd. unfold fetch_log, lookup, fetch_events, chdir_events, log_output, enumerate.
  rewrite Hb. unfold work_dir in Hd.
  eapply bind_run; [reflexivity | | reflexivity].
  eapply bind_run; [reflexivity | | reflexivity].
  eapply bind_run with (d1 := d) (t1 := if passurl b then [] else [Chdir url]).
  { destruct (passurl b).
    - injection Hd as <-. reflexivity.
    - unfold run_chdir. rewrite Hd. reflexivity. }
  2: reflexivity.
  eapply bind_run; [reflexivity | | reflexivity].
  rewrite (run_sprintf_log type url b Hb).
  eapply bind_run; [reflexivity | | reflexivity].
  rewrite bind_popen.
  destruct (popen_error W d (log_command type url) None); reflexivity.
Qed.

Lemma fetch_log_unknown (type url d0 : string) :
  diffcmd type = None ->
  fetch_log W type url d0 = (Stop (Raised "NoMethodError"), d0, []).
Proof.
  intros Hb. unfold fetch_log, lookup. rewrite Hb. reflexivity.
Qed.

Lemma fetch_log_no_dir (type url d0 : string) (b : backend) :
  diffcmd type = Some b ->
  work_dir W b d0 url = None ->
  fetch_log W type url d0 = (Stop (Raised "Errno::ENOENT"), d0, [Chdir url]).
Proof.
  intros Hb Hd. unfold fetch_log, lookup. rewrite Hb.
  unfold work_dir in Hd. unfold bind at 1. unfold getcwd at 1.
  unfold bind at 1. unfold ret at 1. unfold bind at 1.
  destruct (passurl b); [discriminate|].
  unfold run_chdir. rewrite Hd. reflexivity.
Qed.

(** A probe that stops, stops the run, with nothing after it. *)
Lemma run_probe_stop (repo : string) (rest : list string) (o : outcome) d t :
  probe W (pepper_of W rest) repo (pwd0 W) = (Stop o, d, t) ->
  run W (repo :: rest) = (Stop o, d, t).
Proof.
  intros Hp. unfold run, main. apply bind_stop. unfold setup.
  eapply bind_run; [reflexivity | | reflexivity].
  fold (pepper_of W rest). now apply bind_stop.
Qed.

(** A backend missing from the table stops the run after the probe. *)
Lemma run_unknown_backend (repo : string) (rest : list string) (type url : string) tp :
  probe W (pepper_of W rest) repo (pwd0 W) = (Ok (type, url), pwd0 W, tp) ->
  diffcmd type = None ->
  run W (repo :: rest) = (Stop (Raised "NoMethodError"), pwd0 W, tp).
Proof.
  intros Hp Hb. unfold run, main. apply bind_stop. unfold setup.
  eapply bind_run; [reflexivity | | reflexivity].
  fold (pepper_of W rest).
  eapply bind_run; [exact Hp | | ].
  - apply bind_stop. now apply fetch_log_unknown.
  - now rewrite app_nil_r.
Qed.

Lemma run_no_dir (repo : string) (rest : list string) (type url : string) tp b :
  probe W (pepper_of W rest) repo (pwd0 W) = (Ok (type, url), pwd0 W, tp) ->
  diffcmd type = Some b ->
  work_dir W b (pwd0 W) url = None ->
  run W (repo :: rest) = (Stop (Raised "Errno::ENOENT"), pwd0 W, (tp ++ [Chdir url])%list).
Proof.
  intros Hp Hb Hd. unfold run, main. apply bind_stop. unfold setup.
  eapply bind_run; [reflexivity | | reflexivity].
  fold (pepper_of W rest).
  eapply bind_run; [exact Hp | | reflexivity].
  apply bind_stop. now apply (fetch_log_no_dir type url (pwd0 W) b).
Qed.

(** A log command that cannot be run stops the run in the working
    directory. *)
Lemma run_log_stop (repo : string) (rest : list string) (type url : string) tp b d exn :
  probe W (pepper_of W rest) repo (pwd0 W) = (Ok (type, url), pwd0 W, tp) ->
  diffcmd type = Some b ->
  work_dir W b (pwd0 W) url = Some d ->
  popen_error W d (log_command type url) None = Some exn ->
  run W (repo :: rest) = (Stop (Raised exn), d, (tp ++ fetch_events b d type url)%list).
Proof.
  intros Hp Hb Hd He. unfold run, main. apply bind_stop. unfold setup.
  eapply bind_run; [reflexivity | | reflexivity].
  fold (pepper_of W rest).
  eapply bind_run; [exact Hp | | reflexivity].
  apply bind_stop. rewrite (fetch_log_run type url (pwd0 W) b d Hb Hd). now rewrite He.
Qed.

(** The run from the loop on, once the log is there. *)
Lemma run_loop (repo : string) (rest : list string) (type url : string)
      (tp : list event) (b : backend) (d : string) :
  probe W (pepper_of W rest) repo (pwd0 W) = (Ok (type, url), pwd0 W, tp) ->
  diffcmd type = Some b ->
  work_dir W b (pwd0 W) url = Some d ->
  popen_error W d (log_command type url) None = None ->
  let v := vars_of W repo rest type url b d in
  run W (repo :: rest)
  = (fst (all_run W d v), d, (tp ++ fetch_events b d type url ++ snd (all_run W d v))%list).
Proof.
  intros Hp Hb Hd He v. unfold run, main.
  eapply bind_run with (a := v) (d1 := d) (t1 := (tp ++ fetch_events b d type url)%list).
  - unfold setup.
    eapply bind_run; [reflexivity | | ].
    + fold (pepper_of W rest).
      eapply bind_run; [exact Hp | | reflexivity].
      eapply bind_run; [| | reflexivity].
      * rewrite (fetch_log_run type url (pwd0 W) b d Hb Hd). rewrite He. reflexivity.
      * reflexivity.
    + simpl. now rewrite app_nil_r.
  - exact (compare_all_run W v d b Hb).
  - now rewrite app_assoc.
Qed.

(** The whole run in closed form, when nothing raises. *)
Lemma run_closed (repo : string) (rest : list string) (type url : string)
      (tp : list event) (b : backend) (d : string) :
  probe W (pepper_of W rest) repo (pwd0 W) = (Ok (type, url), pwd0 W, tp) ->
  diffcmd type = Some b ->
  work_dir W b (pwd0 W) url = Some d ->
  log_ok W d type url = true ->
  let v := vars_of W repo rest type url b d in
  passes_ok W d v (tmp_path W "diff") (v_log v) = true ->
  run W (repo :: rest)
  = (Ok (map (rev_result W d v (tmp_path W "diff")) (v_log v)), d,
     (tp ++ fetch_events b d type url ++ compare_all_events W d v)%list).
Proof.
  intros Hp Hb Hd Hl v Hok.
  assert (He : popen_error W d (log_command type url) None = None).
  { unfold log_ok in Hl. now destruct (popen_error W d (log_command type url) None). }
  pose proof (run_loop repo rest type url tp b d Hp Hb Hd He) as R. cbv zeta in R.
  fold v in R. rewrite R. now rewrite (all_run_ok W d v Hok).
Qed.

(** The ways a run with a repository argument can go. *)
Lemma run_cases (repo : string) (rest : list string) :
  let pepper := pepper_of W rest in
  let tp := probe_events W pepper repo (pwd0 W) in
  match probe_result W pepper repo (pwd0 W) with
  | Stop o => run W (repo :: rest) = (Stop o, pwd0 W, tp)
  | Ok (type, url) =>
      match diffcmd type with
      | None => run W (repo :: rest) = (Stop (Raised "NoMethodError"), pwd0 W, tp)
      | Some b =>
          match work_dir W b (pwd0 W) url with
          | None =>
              run W (repo :: rest)
              = (Stop (Raised "Errno::ENOENT"), pwd0 W, (tp ++ [Chdir url])%list)
          | Some d =>
              let v := vars_of W repo rest type url b d in
              match popen_error W d (log_command type url) None with
              | Some exn =>
                  run W (repo :: rest)
                  = (Stop (Raised exn), d, (tp ++ fetch_events b d type url)%list)
              | None =>
                  run W (repo :: rest)
                  = (fst (all_run W d v), d,
                     (tp ++ fetch_events b d type url ++ snd (all_run W d v))%list)
              end
          end
      end
  end.
Proof.
  intros pepper tp.
  pose proof (probe_run pepper repo (pwd0 W)) as P. fold tp in P.
  destruct (probe_result W pepper repo (pwd0 W)) as [[type url]|o].
  - destruct (diffcmd type) as [b|] eqn:Hb.
    + destruct (work_dir W b (pwd0 W) url) as [d|] eqn:Hd.
      * destruct (popen_error W d (log_command type url) None) as [exn|] eqn:He.
        -- exact (run_log_stop repo rest type url tp b d exn P Hb Hd He).
        -- exact (run_loop repo rest type url tp b d P Hb Hd He).
      * exact (run_no_dir repo rest type url tp b P Hb Hd).
    + exact (run_unknown_backend repo rest type url tp P Hb).
  - exact (run_probe_stop repo rest o _ _ P).
Qed.

(** A run that completes, taken apart. *)
Lemma run_ok_inv (argv : list string) (rs : list (string * bool)) (d : string)
      (t : list event) :
  run W argv = (Ok rs, d, t) ->
  exists repo rest type url b,
    argv = repo :: rest
    /\ probe_result W (pepper_of W rest) repo (pwd0 W) = Ok (type, url)
    /\ diffcmd type = Some b
    /\ work_dir W b (pwd0 W) url = Some d
    /\ log_ok W d type url = true
    /\ passes_ok W d (vars_of W repo rest type url b d) (tmp_path W "diff")
                 (v_log (vars_of W repo rest type url b d)) = true
    /\ rs = map (rev_result W d (vars_of W repo rest type url b d) (tmp_path W "diff"))
                (v_log (vars_of W repo rest type url b d))
    /\ t = (probe_events W (pepper_of W rest) repo (pwd0 W)
            ++ fetch_events b d type url
            ++ compare_all_events W d (vars_of W repo rest type url b d))%list.
Proof.
  destruct argv as [|repo rest]; [discriminate|].
  pose proof (run_cases repo rest) as C. cbv zeta in C.
  destruct (probe_result W (pepper_of W rest) repo (pwd0 W)) as [[type url]|o] eqn:P.
  - destruct (diffcmd type) as [b|] eqn:Hb.
    + destruct (work_dir W b (pwd0 W) url) as [d'|] eqn:Hd.
      * destruct (popen_error W d' (log_command type url) None) as [exn|] eqn:He.
        -- rewrite C. discriminate.
        -- rewrite C. intros H. injection H as Hr <- <-.
           pose proof (all_run_inv W d' _ rs Hr) as Hok.
           rewrite (all_run_ok W d' _ Hok) in Hr |- *. cbn [fst snd] in *.
           injection Hr as <-.
           exists repo, rest, type, url, b. repeat split; try assumption.
           unfold log_ok. now rewrite He.
      * rewrite C. discriminate.
    + rewrite C. discriminate.
  - rewrite C. discriminate.
Qed.

(** Every run ends with status 0 or 1. *)
Lemma run_status_cases (argv : list string) :
  run_status W argv = 0%Z \/ run_status W argv = 1%Z.
Proof.
  destruct argv as [|repo rest]; [now right|].
  pose proof (run_cases repo rest) as C. cbv zeta in C.
  unfold run_status, run_result.
  destruct (probe_result W (pepper_of W rest) repo (pwd0 W)) as [[type url]|o] eqn:P.
  - destruct (diffcmd type) as [b|].
    + destruct (work_dir W b (pwd0 W) url) as [d|].
      * destruct (popen_error W d (log_command type url) None) as [exn|].
        -- rewrite C. now right.
        -- rewrite C. cbn [fst].
           set (v := vars_of W repo rest type url b d).
           destruct (passes_ok W d v (tmp_path W "diff") (v_log v)) eqn:Hok.
           ++ rewrite (all_run_ok W d v Hok). now left.
           ++ destruct (all_run_stop W d v Hok) as (exn & ->). now right.
      * rewrite C. now right.
    + rewrite C. now right.
  - rewrite C. cbn [fst outcome_of]. right. exact (probe_result_stop _ _ _ o P).
Qed.

End SetupFacts.

Section RunFacts.

Lemma artifact_paths_differ (olddir rev : string) :
  pepper_artifact olddir rev <> native_artifact olddir rev.
Proof.
  unfold pepper_artifact, native_artifact. intros H.
  apply append_inv_head in H. discriminate H.
Qed.

Lemma matches_true_iff (a b : string) : matches a b = true <-> a = b.
Proof. apply String.eqb_eq. Qed.

Lemma matches_false_iff (a b : string) : matches a b = false <-> a <> b.
Proof. apply String.eqb_neq. Qed.

Lemma succeeds_none (err : option string) : succeeds err = true <-> err = None.
Proof. destruct err; simpl; split; congruence. Qed.

End RunFacts.


(** ** What the two log patterns capture *)

Section PatternFacts.

Lemma append_not_empty (s : string) (c : ascii) (t : string) : s ++ String c t <> "".
Proof. destruct s; discriminate. Qed.

Lemma span_after (k : cclass) (s : string) : span k s ++ after k s = s.
Proof.
  induction s as [|c s IH]; simpl; [reflexivity|].
  destruct (accepts k c); simpl; [now rewrite IH | reflexivity].
Qed.

(** A repetition at the end of a pattern takes the longest run. *)
Lemma rep_last (cap : bool) (k : cclass) (q : quant) :
  forall s taken prev,
    rep cap k q (match_here []) taken prev s
    = match q, taken ++ span k s with
      | Plus, "" => None
      | _, t => add_cap cap t (Some [])
      end.
Proof.
  induction s as [|c s IH]; intros taken prev; simpl.
  - rewrite append_nil_r. destruct q, taken; reflexivity.
  - destruct (accepts k c).
    + rewrite IH, append_assoc. simpl.
      destruct (taken ++ String c (span k s)) eqn:E.
      * now apply append_not_empty in E.
      * destruct q, cap; reflexivity.
    + rewrite append_nil_r. destruct q, taken; reflexivity.
Qed.

Lemma match_here_svn (x : string) :
  match_here re_svn None x = option_map (fun r => [r]) (svn_revision x).
Proof.
  unfold re_svn, svn_revision. cbn [match_here at_bol].
  destruct x as [|c s]; [reflexivity|].
  cbn [accepts]. destruct (Ascii.eqb c "r"); [|reflexivity].
  unfold add_cap. rewrite rep_last. simpl append.
  fold digit. destruct (span digit s); reflexivity.
Qed.

Lemma digit_not_colon (c : ascii) : accepts digit c = true -> Ascii.eqb c ":" = false.
Proof.
  intros H. destruct (Ascii.eqb_spec c ":") as [->|]; [discriminate H | reflexivity].
Qed.

Lemma colon_rest_eq (prev : option ascii) (s : string) :
  colon_rest prev s
  = match s with
    | String c s' => if Ascii.eqb c ":" then Some [span CDot s'] else None
    | "" => None
    end.
Proof.
  unfold colon_rest. cbn [match_here]. destruct s as [|c s]; [reflexivity|].
  cbn [accepts]. destruct (Ascii.eqb c ":"); [|reflexivity].
  unfold add_cap. rewrite rep_last. reflexivity.
Qed.

(** Digits followed by a colon: giving digits back never helps, since
    a digit is no colon. *)
Lemma rep_digits_colon :
  forall s taken prev,
    rep false digit Plus colon_rest taken prev s
    = match taken ++ span digit s with
      | "" => None
      | _ => colon_rest None (after digit s)
      end.
Proof.
  induction s as [|c s IH]; intros taken prev.
  - simpl. rewrite append_nil_r. destruct taken; [reflexivity|].
    now rewrite !colon_rest_eq.
  - cbn [rep span after]. destruct (accepts digit c) eqn:Ed.
    + rewrite IH, append_assoc. simpl append.
      destruct (taken ++ String c (span digit s)) eqn:E;
        [now apply append_not_empty in E|].
      destruct (colon_rest None (after digit s)) eqn:Ec; [reflexivity|].
      destruct taken; [reflexivity|].
      unfold add_cap. rewrite colon_rest_eq. now rewrite (digit_not_colon c Ed).
    + rewrite append_nil_r. destruct taken; [reflexivity|].
      unfold add_cap. now rewrite !colon_rest_eq.
Qed.

Lemma match_here_hg (x : string) :
  match_here re_hg None x = option_map (fun r => [r]) (hg_revision x).
Proof.
  unfold re_hg, hg_revision. cbn [match_here at_bol].
  fold digit. fold colon_rest. rewrite rep_digits_colon. simpl append.
  destruct (span digit x); [reflexivity|].
  rewrite colon_rest_eq. destruct (after digit x) as [|c' s']; [reflexivity|].
  destruct (Ascii.eqb c' ":"); reflexivity.
Qed.

(** On a line, the loop of lines 77-82 adds what the pattern, read in
    words, gives. *)
Lemma capture_of_line (type : string) (b : backend) (re : regex) (x : string) :
  diffcmd type = Some b ->
  logregex b = Some re ->
  nl_only_last x = true ->
  capture_of re x = pattern_revision type x.
Proof.
  intros Hb Hre Hx. unfold capture_of, pattern_revision.
  destruct (diffcmd_cases _ _ Hb) as [-> | [-> | ->]];
    injection Hb as <-; simpl in Hre; try discriminate; injection Hre as <-.
  - unfold re_svn. rewrite rmatch_anchored_line by exact Hx.
    fold re_svn. rewrite match_here_svn. simpl.
    destruct (svn_revision x); reflexivity.
  - unfold re_hg. rewrite rmatch_anchored_line by exact Hx.
    fold re_hg. rewrite match_here_hg. simpl.
    destruct (hg_revision x); reflexivity.
Qed.

Lemma span_accepted (k : cclass) (s : string) : all_chars (accepts k) (span k s) = true.
Proof.
  induction s as [|c s IH]; simpl; [reflexivity|].
  destruct (accepts k c) eqn:E; simpl; [now rewrite E | reflexivity].
Qed.

Lemma digit_not_space (c : ascii) : accepts digit c = true -> is_space c = false.
Proof.
  destruct c as [[] [] [] [] [] [] [] []]; vm_compute; intros H;
    first [reflexivity | discriminate H].
Qed.

Lemma rstrip_digits (s : string) : all_chars (accepts digit) s = true -> rstrip s = s.
Proof.
  induction s as [|c s IH]; simpl; intros H; [reflexivity|].
  apply andb_true_iff in H as [Hc Hs]. rewrite (IH Hs).
  destruct s; [now rewrite (digit_not_space c Hc) | reflexivity].
Qed.

(** A Subversion revision is a run of digits, not empty, and [strip]
    leaves it as it is. *)
Lemma svn_revision_digits (x r : string) :
  svn_revision x = Some r ->
  r <> "" /\ all_chars (accepts digit) r = true /\ strip r = r.
Proof.
  unfold svn_revision. destruct x as [|c s]; [discriminate|].
  destruct (Ascii.eqb c "r"); [|discriminate].
  pose proof (span_accepted digit s) as Hd.
  destruct (span digit s) as [|c' ds] eqn:E; [discriminate|].
  intros H. injection H as <-. split; [discriminate|]. split; [exact Hd|].
  unfold strip. simpl in Hd. apply andb_true_iff in Hd as [Hc Hds].
  simpl lstrip. rewrite (digit_not_space c' Hc).
  apply rstrip_digits. simpl. now rewrite Hc, Hds.
Qed.

Lemma flat_map_ext_in {A B : Type} (f g : A -> list B) (l : list A) :
  (forall a, In a l -> f a = g a) -> flat_map f l = flat_map g l.
Proof.
  induction l as [|a l IH]; intros H; simpl; [reflexivity|].
  rewrite (H a (or_introl eq_refl)). f_equal. apply IH. intros; apply H. now right.
Qed.

End PatternFacts.

(** ** Revisions *)

Section RevisionFacts.

Lemma rstrip_idempotent (s : string) : rstrip (rstrip s) = rstrip s.
Proof.
  induction s as [|c s IH]; [reflexivity|]. cbn [rstrip].
  destruct (rstrip s) as [|c' r] eqn:E.
  - destruct (is_space c) eqn:Es; [reflexivity|]. simpl. now rewrite Es.
  - change (rstrip (String c (String c' r)))
      with (match rstrip (String c' r) with
            | "" => if is_space c then "" else chr c
            | String a r' => String c (String a r')
            end).
    now rewrite IH.
Qed.

Lemma lstrip_head (s : string) :
  lstrip s = "" \/ exists c t, lstrip s = String c t /\ is_space c = false.
Proof.
  induction s as [|c s IH]; [now left|]. simpl.
  destruct (is_space c) eqn:E; [exact IH|]. right. now exists c, s.
Qed.

Lemma rstrip_keeps_head (c : ascii) (t : string) :
  is_space c = false -> exists t', rstrip (String c t) = String c t'.
Proof.
  intros Hc. cbn [rstrip]. destruct (rstrip t) as [|c' r].
  - rewrite Hc. now exists "".
  - now exists (String c' r).
Qed.

(** Stripping twice is stripping once. *)
Lemma strip_idempotent (s : string) : strip (strip s) = strip s.
Proof.
  unfold strip. destruct (lstrip_head s) as [E | (c & t & E & Hc)]; rewrite E.
  - reflexivity.
  - destruct (rstrip_keeps_head c t Hc) as (t' & E').
    assert (Hl : lstrip (rstrip (String c t)) = rstrip (String c t)).
    { rewrite E'. simpl. now rewrite Hc. }
    rewrite Hl. apply rstrip_idempotent.
Qed.

Lemma no_nl_span_dot (s : string) : no_nl (span CDot s) = true.
Proof.
  induction s as [|c s IH]; simpl; [reflexivity|].
  destruct (negb (Ascii.eqb c nl)) eqn:E; simpl; [now rewrite E | reflexivity].
Qed.

Lemma no_nl_digits (s : string) : all_chars (accepts digit) s = true -> no_nl s = true.
Proof.
  induction s as [|c s IH]; simpl; intros H; [reflexivity|].
  apply andb_true_iff in H as [Hc Hs].
  rewrite (not_space_not_nl c (digit_not_space c Hc)). simpl. auto.
Qed.

Lemma pattern_revision_no_nl (type x r : string) :
  In r (pattern_revision type x) -> no_nl r = true.
Proof.
  unfold pattern_revision. destruct (type =? "subversion").
  - destruct (svn_revision x) as [r'|] eqn:E; [|intros []].
    intros [<- | []]. apply no_nl_digits. now apply (svn_revision_digits x r').
  - unfold hg_revision. destruct (span digit x) as [|c0 ds]; [intros []|].
    destruct (after digit x) as [|c s]; [intros []|].
    destruct (Ascii.eqb c ":"); [|intros []].
    intros [<- | []]. apply no_nl_span_dot.
Qed.

(** The log after line 84 in words: the lines, or what the pattern
    gives on each line. *)
Lemma enumerate_lines (type : string) (b : backend) (output : string) :
  diffcmd type = Some b ->
  enumerate b output
  = match logregex b with
    | Some _ => flat_map (pattern_revision type) (readlines output)
    | None => readlines output
    end.
Proof.
  intros Hb. unfold enumerate. destruct (logregex b) as [re|] eqn:Hre; [|reflexivity].
  rewrite extract_flat_map. apply flat_map_ext_in. intros x Hx.
  apply (capture_of_line type b re x Hb Hre). now apply (readlines_shape output).
Qed.

(** No entry of the log holds a line feed before its end. *)
Lemma enumerate_shape (type : string) (b : backend) (output x : string) :
  diffcmd type = Some b -> In x (enumerate b output) -> nl_only_last x = true.
Proof.
  intros Hb. rewrite (enumerate_lines type b output Hb).
  destruct (logregex b).
  - intros H. apply in_flat_map in H as (l & _ & H).
    apply no_nl_nl_only_last. now apply (pattern_revision_no_nl type l).
  - intros H. now apply (readlines_shape output).
Qed.

Lemma nl_only_last_app_nl (a t : string) :
  nl_only_last (a ++ String nl t) = true -> t = "".
Proof.
  induction a as [|c a IH].
  - simpl. destruct t; [reflexivity|]. unfold nl. simpl. discriminate.
  - intros H. apply IH.
    change ((String c a) ++ String nl t) with (String c (a ++ String nl t)) in H.
    destruct (a ++ String nl t) as [|c' u] eqn:E; [now apply append_not_empty in E|].
    cbn [nl_only_last] in H. apply andb_true_iff in H as [_ H]. exact H.
Qed.

Lemma after_shape (k : cclass) (s : string) :
  after k s = "" \/ exists c t, after k s = String c t /\ accepts k c = false.
Proof.
  induction s as [|c s IH]; [now left|]. simpl.
  destruct (accepts k c) eqn:E; [exact IH|]. right. now exists c, s.
Qed.

End RevisionFacts.

(** ** What diffstat reads *)

Section DiffstatInput.

Lemma join_cons (x : string) (xs : list string) : join (x :: xs) = x ++ join xs.
Proof. unfold join. destruct xs; simpl; [now rewrite append_nil_r | reflexivity]. Qed.

Lemma puts_string_cons (c : ascii) (s : string) :
  s <> "" -> puts_string (String c s) = String c (puts_string s).
Proof.
  intros Hs. unfold puts_string. destruct s as [|c' s']; [contradiction|].
  change (ends_with_nl (String c (String c' s'))) with (ends_with_nl (String c' s')).
  destruct (ends_with_nl (String c' s')); reflexivity.
Qed.

Lemma readlines_not_nil (s : string) : s <> "" -> readlines s <> [].
Proof.
  destruct s as [|c s]; [contradiction|]. intros _. cbn [readlines].
  destruct (Ascii.eqb c nl); [discriminate|].
  destruct (readlines s); discriminate.
Qed.

(** Written line by line with [puts], a text that is not empty arrives
    as it is, completed by a line feed when it does not end with one. *)
Lemma puts_array_readlines (empty s : string) :
  s <> "" -> puts_array empty (readlines s) = puts_string s.
Proof.
  intros Hs.
  assert (G : join (map puts_string (readlines s)) = puts_string s).
  { clear empty. induction s as [|c s IH]; [contradiction|].
    cbn [readlines]. destruct (Ascii.eqb_spec c nl) as [->|Hc].
    - cbn [map]. rewrite join_cons. destruct s as [|c' s'].
      + reflexivity.
      + assert (Hne : String c' s' <> "") by (intros E; discriminate E).
        rewrite (IH Hne), (puts_string_cons nl (String c' s') Hne). reflexivity.
    - destruct s as [|c' s'].
      + reflexivity.
      + assert (Hne : String c' s' <> "") by (intros E; discriminate E). specialize (IH Hne).
        destruct (readlines (String c' s')) as [|l ls] eqn:El.
        * now apply (readlines_not_nil (String c' s')) in El.
        * cbn [map] in *. rewrite join_cons in *.
          rewrite (puts_string_cons c (String c' s') Hne), <- IH.
          assert (Hl : l <> "").
          { apply (readlines_shape (String c' s')). rewrite El. now left. }
          rewrite (puts_string_cons c l Hl). reflexivity. }
  unfold puts_array. destruct (readlines s) as [|l ls] eqn:El; [|exact G].
  now apply (readlines_not_nil s) in El.
Qed.

End DiffstatInput.


(** ** Reading the trace of the loop *)

Section TraceFacts.

Variable W : World.

Lemma popens_app (t1 t2 : list event) : popens (t1 ++ t2) = (popens t1 ++ popens t2)%list.
Proof. apply flat_map_app. Qed.

Lemma chdirs_app (t1 t2 : list event) : chdirs (t1 ++ t2) = (chdirs t1 ++ chdirs t2)%list.
Proof. apply flat_map_app. Qed.

Lemma file_writes_app (t1 t2 : list event) :
  file_writes (t1 ++ t2) = (file_writes t1 ++ file_writes t2)%list.
Proof. apply flat_map_app. Qed.

Lemma warnings_app (t1 t2 : list event) :
  warnings (t1 ++ t2) = (warnings t1 ++ warnings t2)%list.
Proof. apply flat_map_app. Qed.

Lemma prints_app (t1 t2 : list event) : prints (t1 ++ t2) = (prints t1 ++ prints t2)%list.
Proof. apply flat_map_app. Qed.

(** What is read off a part of a trace is read off the whole trace. *)
Lemma flat_map_within {X Y : Type} (f : X -> list Y) (t t' : list X) :
  (forall e, In e t -> In e t') ->
  forall p, In p (flat_map f t) -> In p (flat_map f t').
Proof.
  intros H p Hp. apply in_flat_map in Hp as (e & He & Hpe).
  apply in_flat_map. exists e. auto.
Qed.

Lemma nil_within {X Y : Type} (f : X -> list Y) (t t' : list X) :
  (forall e, In e t -> In e t') -> flat_map f t' = [] -> flat_map f t = [].
Proof.
  intros H E. destruct (flat_map f t) as [|p l] eqn:Et; [reflexivity|].
  assert (Hp : In p (flat_map f t')).
  { apply (flat_map_within f t t' H). rewrite Et. now left. }
  rewrite E in Hp. destruct Hp.
Qed.

Lemma popens_rev_events d v tmp i rev :
  popens (rev_events W d v tmp i rev) = rev_popens d v tmp rev.
Proof.
  unfold rev_events, report_events.
  destruct (matches (candidate_output W d v tmp rev) (reference_output W d v rev));
    reflexivity.
Qed.

Lemma chdirs_rev_events d v tmp i rev : chdirs (rev_events W d v tmp i rev) = [].
Proof.
  unfold rev_events, report_events.
  destruct (matches (candidate_output W d v tmp rev) (reference_output W d v rev));
    reflexivity.
Qed.

Lemma file_writes_rev_events d v tmp i rev :
  file_writes (rev_events W d v tmp i rev) = rev_artifacts W d v tmp rev.
Proof.
  unfold rev_events, report_events, rev_artifacts.
  destruct (matches (candidate_output W d v tmp rev) (reference_output W d v rev));
    reflexivity.
Qed.

Lemma popens_loop_events d v tmp revs :
  forall i, popens (loop_events W d v tmp i revs)
            = flat_map (fun x => rev_popens d v tmp (strip x)) revs.
Proof.
  induction revs as [|x revs IH]; intros i; cbn [loop_events flat_map]; [reflexivity|].
  rewrite popens_app, popens_rev_events, IH. reflexivity.
Qed.

Lemma chdirs_loop_events d v tmp revs :
  forall i, chdirs (loop_events W d v tmp i revs) = [].
Proof.
  induction revs as [|x revs IH]; intros i; cbn [loop_events flat_map]; [reflexivity|].
  rewrite chdirs_app, chdirs_rev_events, IH. reflexivity.
Qed.

Lemma file_writes_loop_events d v tmp revs :
  forall i, file_writes (loop_events W d v tmp i revs)
            = flat_map (fun x => rev_artifacts W d v tmp (strip x)) revs.
Proof.
  induction revs as [|x revs IH]; intros i; cbn [loop_events flat_map]; [reflexivity|].
  rewrite file_writes_app, file_writes_rev_events, IH. reflexivity.
Qed.

Lemma popens_compare_all d v :
  popens (compare_all_events W d v)
  = flat_map (fun x => rev_popens d v (tmp_path W "diff") (strip x)) (v_log v).
Proof.
  unfold compare_all_events. rewrite !popens_app, popens_loop_events.
  simpl. now rewrite app_nil_r.
Qed.

Lemma chdirs_compare_all d v : chdirs (compare_all_events W d v) = [].
Proof.
  unfold compare_all_events. rewrite !chdirs_app, chdirs_loop_events. reflexivity.
Qed.

Lemma file_writes_compare_all d v :
  file_writes (compare_all_events W d v)
  = flat_map (fun x => rev_artifacts W d v (tmp_path W "diff") (strip x)) (v_log v).
Proof.
  unfold compare_all_events. rewrite !file_writes_app, file_writes_loop_events.
  simpl. now rewrite app_nil_r.
Qed.

Lemma popens_fetch_events b d type url :
  popens (fetch_events b d type url) = [(d, log_command type url)].
Proof. unfold fetch_events, chdir_events. destruct (passurl b); reflexivity. Qed.

Lemma file_writes_fetch_events b d type url : file_writes (fetch_events b d type url) = [].
Proof. unfold fetch_events, chdir_events. destruct (passurl b); reflexivity. Qed.

Lemma length_flat_map_rev_popens d v tmp revs :
  List.length (flat_map (fun x => rev_popens d v tmp (strip x)) revs) = 3 * List.length revs.
Proof. induction revs as [|x revs IH]; simpl; [reflexivity | rewrite IH; lia]. Qed.

Lemma revisions_of_results d v tmp revs :
  map fst (map (rev_result W d v tmp) revs) = map strip revs.
Proof. rewrite map_map. reflexivity. Qed.

(** A pass whose three subprocesses run can only stop at an artifact:
    the outputs differ, and all the events up to the artifact that cannot
    be written have happened. *)
Lemma artifact_fault d v tmp i rev exn k :
  subprocesses_run W d v tmp rev = true ->
  pass_fault W d v tmp rev = Some (exn, k) ->
  matches (candidate_output W d v tmp rev) (reference_output W d v rev) = false
  /\ (file_error W (pepper_artifact (v_olddir v) rev) (candidate_output W d v tmp rev)
      = Some exn
      /\ firstn k (rev_events W d v tmp i rev)
         = [Write Stdout (progress (i + 1) (List.length (v_log v)));
            Popen d (pepper_command (v_pepper v) tmp rev (v_repo v)) None;
            Popen d (single_diff_command (v_type v) rev (v_url v)) None;
            Popen d (diffstat_command (v_type v))
                  (Some (puts_array (puts_empty W) (readlines (native_diff W d v rev))))]
      \/ file_error W (pepper_artifact (v_olddir v) rev) (candidate_output W d v tmp rev)
         = None
         /\ file_error W (native_artifact (v_olddir v) rev) (reference_output W d v rev)
            = Some exn
         /\ firstn k (rev_events W d v tmp i rev)
            = [Write Stdout (progress (i + 1) (List.length (v_log v)));
               Popen d (pepper_command (v_pepper v) tmp rev (v_repo v)) None;
               Popen d (single_diff_command (v_type v) rev (v_url v)) None;
               Popen d (diffstat_command (v_type v))
                     (Some (puts_array (puts_empty W) (readlines (native_diff W d v rev))));
               FileWrite (pepper_artifact (v_olddir v) rev)
                         (candidate_output W d v tmp rev)]).
Proof.
  unfold subprocesses_run, pass_fault, rev_events, report_events. intros Hs.
  apply andb_true_iff in Hs as [Hs H3]. apply andb_true_iff in Hs as [H1 H2].
  apply succeeds_none in H1, H2, H3. rewrite H1, H2, H3.
  destruct (matches (candidate_output W d v tmp rev) (reference_output W d v rev));
    [discriminate|].
  destruct (file_error W (pepper_artifact (v_olddir v) rev) (candidate_output W d v tmp rev))
    as [e1|].
  - intros H. injection H as <- <-. split; [reflexivity|]. left. split; reflexivity.
  - destruct (file_error W (native_artifact (v_olddir v) rev) (reference_output W d v rev))
      as [e2|]; [|discriminate].
    intros H. injection H as <- <-. split; [reflexivity|]. right. repeat split.
Qed.

End TraceFacts.

(** ** What the warning reads *)

Section WarningFacts.

Lemma ends_with_nl_app (s t : string) :
  ends_with_nl (s ++ t) = match t with
                          | "" => ends_with_nl s
                          | _ => ends_with_nl t
                          end.
Proof.
  induction s as [|c s IH]; [now destruct t|].
  destruct t as [|c' t']; [now rewrite append_nil_r|].
  change (String c s ++ String c' t') with (String c (s ++ String c' t')).
  destruct (s ++ String c' t') as [|c'' u] eqn:E; [now apply append_not_empty in E|].
  change (ends_with_nl (String c (String c'' u))) with (ends_with_nl (String c'' u)).
  exact IH.
Qed.

Lemma ends_with_nl_rstrip (s : string) : ends_with_nl (rstrip s) = false.
Proof.
  induction s as [|c s IH]; [reflexivity|]. cbn [rstrip].
  destruct (rstrip s) as [|c' r].
  - destruct (is_space c) eqn:Ec; [reflexivity|]. simpl. now apply not_space_not_nl.
  - exact IH.
Qed.

(** [$stderr.puts] ends the warning with a line feed: a stripped
    revision does not bring one. *)
Lemma warning_line (x : string) :
  puts_string (warning (strip x))
  = "Warning: Diffstats for revision " ++ strip x ++ " don't match! Check diff.pepper."
    ++ strip x ++ " and diff.native." ++ strip x ++ chr nl.
Proof.
  assert (Hw : forall rev, warning rev
               = ("Warning: Diffstats for revision " ++ rev
                  ++ " don't match! Check diff.pepper." ++ rev ++ " and diff.native.") ++ rev).
  { intros rev. unfold warning. now rewrite !append_assoc. }
  assert (He : ends_with_nl (warning (strip x)) = false).
  { rewrite Hw, ends_with_nl_app. destruct (strip x) as [|c r] eqn:E.
    - rewrite <- !append_assoc. rewrite ends_with_nl_app. reflexivity.
    - rewrite <- E. apply ends_with_nl_rstrip. }
  unfold puts_string. rewrite He. unfold warning. now rewrite !append_assoc.
Qed.

End WarningFacts.


(** ** The claims *)

(** C1: in every pass through the loop the comparison result [matches]
    is true if and only if the text the tool under test printed and the
    text the diffstat formatter printed are the same byte string.  A pass
    whose subprocesses run and whose artifacts, if any, can be written
    completes with that result; and a pass that completes, however it
    came to, has that result.  Nothing is normalised on the way
    ([readlines] followed by [join] gives back every byte). *)
Theorem matches_iff_outputs_equal
        (W : World) (v : vars) (tmp : string) (i : nat) (x d : string) (b : backend) :
  diffcmd (v_type v) = Some b ->
  (pass_ok W d v tmp (strip x) = true ->
   exists (m : bool) (t : list event),
     compare_rev W v tmp i x d = (Ok (strip x, m), d, t)
     /\ (m = true <->
         candidate_output W d v tmp (strip x) = reference_output W d v (strip x)))
  /\ (forall (rev : string) (m : bool) (d' : string) (t : list event),
         compare_rev W v tmp i x d = (Ok (rev, m), d', t) ->
         rev = strip x
         /\ (m = true <->
             candidate_output W d v tmp (strip x) = reference_output W d v (strip x))).
Proof.
  intros Hb. split.
  - intros Hok. eexists _, _. split.
    + apply (compare_rev_ok W v tmp i x d b Hb Hok).
    + apply matches_true_iff.
  - intros rev m d' t. rewrite (compare_rev_run W v tmp i x d b Hb).
    destruct (pass_fault W d v tmp (strip x)) as [[exn k]|]; [discriminate|].
    unfold rev_result. intros H. injection H as <- <- _ _.
    split; [reflexivity | apply matches_true_iff].
Qed.

(** C2, as the script has it: a pass through the loop, run as the
    script runs it (with the launch directory as [olddir]).  When one of
    its three subprocesses cannot be run it stops there, without file or
    warning.  When they have run: on equal outputs it writes no file and
    no warning.  On outputs that differ it writes [diff.pepper.<rev>] and
    [diff.native.<rev>] under the launch directory, holding the two
    outputs as they are, and then one warning that names the revision,
    when both files can be written; when the first cannot, the pass stops
    with the exception and has written nothing; when the second cannot,
    it stops having written the first; in neither case is there a
    warning. *)
Theorem artifacts_iff_mismatch
        (W : World) (repo : string) (rest : list string) (type url : string)
        (b : backend) (d : string) (i : nat) (x : string) :
  diffcmd type = Some b ->
  let v := vars_of W repo rest type url b d in
  let tmp := tmp_path W "diff" in
  let rev := strip x in
  let out_pepper := candidate_output W d v tmp rev in
  let out_native := reference_output W d v rev in
  let pepper_file := pwd0 W ++ "/diff.pepper." ++ rev in
  let native_file := pwd0 W ++ "/diff.native." ++ rev in
  let r := fst (fst (compare_rev W v tmp i x d)) in
  let t := snd (compare_rev W v tmp i x d) in
  (subprocesses_run W d v tmp rev = false ->
   (exists exn, r = Stop (Raised exn)) /\ files_written t = [] /\ warnings t = [])
  /\ (subprocesses_run W d v tmp rev = true ->
      (out_pepper = out_native ->
       r = Ok (rev, true) /\ files_written t = [] /\ warnings t = [])
      /\ (out_pepper <> out_native ->
          pepper_file <> native_file
          /\ (file_error W pepper_file out_pepper = None ->
              file_error W native_file out_native = None ->
              r = Ok (rev, false)
              /\ files_written t = [(pepper_file, out_pepper); (native_file, out_native)]
              /\ warnings t
                 = ["Warning: Diffstats for revision " ++ rev
                    ++ " don't match! Check diff.pepper." ++ rev
                    ++ " and diff.native." ++ rev ++ chr nl])
          /\ (forall exn,
                 file_error W pepper_file out_pepper = Some exn ->
                 r = Stop (Raised exn) /\ files_written t = [] /\ warnings t = [])
          /\ (forall exn,
                 file_error W pepper_file out_pepper = None ->
                 file_error W native_file out_native = Some exn ->
                 r = Stop (Raised exn)
                 /\ files_written t = [(pepper_file, out_pepper)]
                 /\ warnings t = []))).
Proof.
  intros Hb v tmp rev out_pepper out_native pepper_file native_file r t.
  assert (Hv : diffcmd (v_type v) = Some b) by exact Hb.
  pose proof (compare_rev_run W v tmp i x d b Hv) as Hrun. fold rev in Hrun.
  split.
  { intros Hs. unfold r, t. rewrite Hrun. unfold pass_fault, rev_events.
    unfold subprocesses_run in Hs.
    destruct (popen_error W d (pepper_command (v_pepper v) tmp rev (v_repo v)) None);
      [split; [eexists; reflexivity | split; reflexivity]|].
    destruct (popen_error W d (single_diff_command (v_type v) rev (v_url v)) None);
      [split; [eexists; reflexivity | split; reflexivity]|].
    destruct (popen_error W d (diffstat_command (v_type v))
                          (Some (puts_array (puts_empty W) (readlines (native_diff W d v rev)))));
      [split; [eexists; reflexivity | split; reflexivity]|].
    discriminate Hs. }
  intros Hs.
  assert (Hpf : pepper_file = pepper_artifact (v_olddir v) rev) by reflexivity.
  assert (Hnf : native_file = native_artifact (v_olddir v) rev) by reflexivity.
  destruct (pass_fault W d v tmp rev) as [[exn k]|] eqn:Ef.
  - destruct (artifact_fault W d v tmp i rev exn k Hs Ef) as [Hm Hcase].
    fold out_pepper out_native in Hm, Hcase. rewrite <- Hpf, <- Hnf in Hcase.
    assert (Hne : out_pepper <> out_native) by now apply matches_false_iff.
    split; [intros Heq; contradiction|]. intros _.
    split; [rewrite Hpf, Hnf; apply artifact_paths_differ|].
    unfold r, t. rewrite Hrun. cbn [fst snd].
    destruct Hcase as [[H1 Ht] | (H1 & H2 & Ht)]; rewrite Ht.
    + split; [intros E; congruence|]. split.
      * intros e E. rewrite H1 in E. injection E as <-. repeat split.
      * intros e E. congruence.
    + split; [intros _ E; congruence|]. split.
      * intros e E. congruence.
      * intros e _ E. rewrite H2 in E. injection E as <-. repeat split.
  - unfold r, t. rewrite Hrun. cbn [fst snd]. unfold rev_result, rev_events, report_events.
    fold rev out_pepper out_native.
    unfold pass_fault in Ef. unfold subprocesses_run in Hs.
    apply andb_true_iff in Hs as [Hs H3]. apply andb_true_iff in Hs as [H1 H2].
    apply succeeds_none in H1, H2, H3. rewrite H1, H2, H3 in Ef.
    fold out_pepper out_native in Ef. rewrite <- Hpf, <- Hnf in Ef. split.
    + intros Heq. apply matches_true_iff in Heq. rewrite Heq. repeat split.
    + intros Hne. apply matches_false_iff in Hne. rewrite Hne in Ef |- *.
      split; [rewrite Hpf, Hnf; apply artifact_paths_differ|].
      destruct (file_error W pepper_file out_pepper) as [e1|]; [discriminate|].
      destruct (file_error W native_file out_native) as [e2|]; [discriminate|].
      split; [|split; intros; discriminate].
      intros _ _. split; [reflexivity|]. split; [reflexivity|].
      cbn [warnings flat_map app]. unfold rev. now rewrite warning_line.
Qed.

(** C3: the probe is fatal.  When the probe subprocess ends with a
    status other than 0, or prints fewer than two lines, the run ends
    with exit status 1, having started that one subprocess and nothing
    after it (no second attempt); so it does when the subprocess cannot
    be run at all.  When it runs, ends with status 0 and prints at least
    two lines, the probe gives the backend type read from the first line
    and the URL read from the second (both stripped, the URL then
    normalised). *)
Theorem probe_failure_is_fatal
        (W : World) (repo : string) (rest : list string) (output : string) (status : Z) :
  let pepper := pepper_of W rest in
  popen W (pwd0 W) (probe_command pepper (tmp_path W "type") repo) None = (output, status) ->
  (status <> 0%Z \/ List.length (readlines output) < 2 ->
   run_status W (repo :: rest) = 1%Z
   /\ run_trace W (repo :: rest) = probe_events W pepper repo (pwd0 W)
   /\ popens (run_trace W (repo :: rest))
      = [(pwd0 W, probe_command pepper (tmp_path W "type") repo)])
  /\ (status = 0%Z ->
      popen_error W (pwd0 W) (probe_command pepper (tmp_path W "type") repo) None = None ->
      forall l0 l1 more,
        readlines output = l0 :: l1 :: more ->
        probe W pepper repo (pwd0 W)
        = (Ok (strip l0, normalize_url (strip l0) (strip l1)), pwd0 W,
           probe_events W pepper repo (pwd0 W)))
  /\ (forall exn,
         popen_error W (pwd0 W) (probe_command pepper (tmp_path W "type") repo) None
         = Some exn ->
         run_result W (repo :: rest) = Stop (Raised exn)
         /\ run_status W (repo :: rest) = 1%Z
         /\ popens (run_trace W (repo :: rest))
            = [(pwd0 W, probe_command pepper (tmp_path W "type") repo)]).
Proof.
  intros pepper Hout. pose proof (probe_run W pepper repo (pwd0 W)) as Hp.
  unfold probe_result in Hp. rewrite Hout in Hp. split; [|split].
  - intros Hfail.
    assert (Hstop : exists o, exit_status o = 1%Z /\
                              probe W pepper repo (pwd0 W)
                              = (Stop o, pwd0 W, probe_events W pepper repo (pwd0 W))).
    { destruct (popen_error W (pwd0 W) (probe_command pepper (tmp_path W "type") repo) None);
        [eexists; split; [|exact Hp]; reflexivity|].
      destruct (Z.eqb_spec status 0) as [E|E]; simpl in Hp.
      - destruct Hfail as [Hs|Hl]; [contradiction|].
        destruct (readlines output) as [|l0 [|l1 more]];
          [eexists; split; [|exact Hp]; reflexivity ..|].
        simpl in Hl. lia.
      - eexists; split; [|exact Hp]; reflexivity. }
    destruct Hstop as (o & Ho & Hstop).
    apply run_probe_stop in Hstop.
    unfold run_status, run_result, run_trace. rewrite Hstop. simpl.
    split; [exact Ho | split; reflexivity].
  - intros -> He l0 l1 more Hl. rewrite He, Hl in Hp. exact Hp.
  - intros exn He. rewrite He in Hp. apply run_probe_stop in Hp.
    unfold run_status, run_result, run_trace. rewrite Hp. repeat split.
Qed.

(** C4: the URL of a probed repository.  With [raw] the stripped second
    line of the probe's output, the URL the probe gives is
    [file://] followed by [raw] when the backend type is [subversion] and
    [raw] begins with a slash, and [raw] itself in every other case; the
    prefix is put in front once. *)
Theorem url_normalization
        (W : World) (pepper repo d type url d' : string) (t : list event) :
  probe W pepper repo d = (Ok (type, url), d', t) ->
  exists l0 l1 more,
    readlines (fst (popen W d (probe_command pepper (tmp_path W "type") repo) None))
    = l0 :: l1 :: more
    /\ type = strip l0
    /\ url = (if (type =? "subversion") && starts_with "/" (strip l1)
              then "file://" ++ strip l1
              else strip l1).
Proof.
  rewrite probe_run. unfold probe_result.
  destruct (popen_error W d (probe_command pepper (tmp_path W "type") repo) None);
    [discriminate|].
  destruct (popen W d (probe_command pepper (tmp_path W "type") repo) None)
    as [output status].
  destruct (negb (status =? 0)%Z); [discriminate|].
  simpl fst. destruct (readlines output) as [|l0 [|l1 more]] eqn:El; try discriminate.
  intros H. injection H as <- <- _ _.
  exists l0, l1, more. repeat split.
  unfold normalize_url. rewrite slash_match; [reflexivity|].
  apply strip_line_no_nl.
  apply (readlines_shape output). rewrite El. right. now left.
Qed.

Example normalize_svn_path : normalize_url "subversion" "/srv/repo" = "file:///srv/repo".
Proof. reflexivity. Qed.
Example normalize_svn_http : normalize_url "subversion" "http://host/repo" = "http://host/repo".
Proof. reflexivity. Qed.
Example normalize_git_path : normalize_url "git" "/srv/repo" = "/srv/repo".
Proof. reflexivity. Qed.

(** C5: revision extraction with a pattern.  For the backends whose
    table entry has a [:logregex] (Subversion, Mercurial), the log that
    lines 66-84 hand to the loop is the list of the lines the log command
    printed, in their order, with every line that matches the pattern
    replaced by its first capture and every other line (a blank line,
    say) left out.  Read in words: for Subversion the digits after the
    leading [r], for Mercurial what follows the first colon after the
    leading digits, so that the line [5:abc123def] gives [abc123def], not
    [5]. *)
Theorem extraction_keeps_matching_lines_in_order
        (W : World) (type url d0 : string) (b : backend) (re : regex) (d : string) :
  diffcmd type = Some b ->
  logregex b = Some re ->
  work_dir W b d0 url = Some d ->
  popen_error W d (log_command type url) None = None ->
  let printed := readlines (fst (popen W d (log_command type url) None)) in
  exists (revs : list string) (t : list event),
    fetch_log W type url d0 = (Ok (d0, revs), d, t)
    /\ revs = flat_map (fun x => match rmatch re x with
                                 | Some caps => [hd "" caps]
                                 | None => []
                                 end) printed
    /\ revs = flat_map (fun x => match (if type =? "subversion"
                                        then svn_revision x else hg_revision x) with
                                 | Some r => [r]
                                 | None => []
                                 end) printed
    /\ (forall x caps, rmatch re x = Some caps -> caps = [hd "" caps])
    /\ (type = "mercurial" ->
        rmatch re (line "5:abc123def") = Some ["abc123def"]
        /\ rmatch re (line "") = None).
Proof.
  intros Hb Hre Hd He printed.
  pose proof (fetch_log_run W type url d0 b d Hb Hd) as Hrun. rewrite He in Hrun.
  assert (E : enumerate b (log_output W d type url) = flat_map (capture_of re) printed).
  { unfold enumerate. rewrite Hre. apply extract_flat_map. }
  eexists _, _. split; [exact Hrun|]. split; [exact E|]. split; [|split].
  - rewrite E. apply flat_map_ext_in. intros x Hx.
    apply (capture_of_line type b re x Hb Hre).
    now apply (readlines_shape (fst (popen W d (log_command type url) None))).
  - intros x caps Hx.
    apply (table_patterns_capture_once re x caps); [|exact Hx].
    destruct (diffcmd_cases _ _ Hb) as [-> | [-> | ->]];
      injection Hb as <-; simpl in Hre; try discriminate; injection Hre as <-; auto.
  - intros ->. injection Hb as <-. simpl in Hre. injection Hre as <-.
    split; reflexivity.
Qed.

(** C6: the backend command table.  For each of the three backends: the
    log command (with the URL substituted for Subversion, without
    argument for Git and Mercurial), the log pattern as written in the
    source (none for Git), the single-revision diff command, whether the
    URL is passed, and the diffstat command with its strip level; and
    these are the commands the log fetch starts and, when they can be
    run, a pass through the loop. *)
Theorem command_table_exact (url rev : string) :
  (diffcmd "subversion" = Some subversion_backend
   /\ sprintf (log subversion_backend) [url] = Some ("svn log -q " ++ url)
   /\ option_map source (logregex subversion_backend) = Some "^r([0-9]+)"
   /\ sprintf (single subversion_backend) [rev; url]
      = Some ("svn diff -c " ++ rev ++ " " ++ url)
   /\ passurl subversion_backend = true
   /\ diffstat_command "subversion" = "diffstat -t -p0")
  /\ (diffcmd "git" = Some git_backend
      /\ sprintf (log git_backend) [] = Some "git rev-list HEAD"
      /\ logregex git_backend = None
      /\ sprintf (single git_backend) [rev]
         = Some ("git diff-tree -U --no-renames --root " ++ rev)
      /\ passurl git_backend = false
      /\ diffstat_command "git" = "diffstat -t -p1")
  /\ (diffcmd "mercurial" = Some mercurial_backend
      /\ sprintf (log mercurial_backend) [] = Some "hg log -q"
      /\ option_map source (logregex mercurial_backend) = Some ("^[0-9]+:(." ++ "*" ++ ")")
      /\ sprintf (single mercurial_backend) [rev] = Some ("hg diff -c " ++ rev)
      /\ passurl mercurial_backend = false
      /\ diffstat_command "mercurial" = "diffstat -t -p1")
  /\ single_diff_command "subversion" rev url = "svn diff -c " ++ rev ++ " " ++ url
  /\ single_diff_command "git" rev url = "git diff-tree -U --no-renames --root " ++ rev
  /\ single_diff_command "mercurial" rev url = "hg diff -c " ++ rev
  /\ log_command "subversion" url = "svn log -q " ++ url
  /\ log_command "git" url = "git rev-list HEAD"
  /\ log_command "mercurial" url = "hg log -q"
  /\ (forall (W : World) (v : vars) (tmp : string) (i : nat) (x d : string) (b : backend),
         diffcmd (v_type v) = Some b ->
         subprocesses_run W d v tmp (strip x) = true ->
         popens (snd (compare_rev W v tmp i x d))
         = [(d, pepper_command (v_pepper v) tmp (strip x) (v_repo v));
            (d, single_diff_command (v_type v) (strip x) (v_url v));
            (d, diffstat_command (v_type v))])
  /\ (forall (W : World) (type d0 d : string) (b : backend),
         diffcmd type = Some b ->
         work_dir W b d0 url = Some d ->
         popens (snd (fetch_log W type url d0)) = [(d, log_command type url)]).
Proof.
  split; [|split; [|split]].
  - split; [reflexivity|]. simpl. rewrite !append_nil_r. repeat split.
  - split; [reflexivity|]. simpl. rewrite !append_nil_r. repeat split.
  - split; [reflexivity|]. simpl. rewrite !append_nil_r. repeat split.
  - do 6 (split; [reflexivity|]). split.
    + intros W v tmp i x d b Hb Hs.
      rewrite (compare_rev_run W v tmp i x d b Hb).
      destruct (pass_fault W d v tmp (strip x)) as [[exn k]|] eqn:Ef; cbn [snd].
      * destruct (artifact_fault W d v tmp i (strip x) exn k Hs Ef)
          as [_ [[_ ->] | (_ & _ & ->)]]; reflexivity.
      * now rewrite popens_rev_events.
    + intros W type d0 d b Hb Hd.
      rewrite (fetch_log_run W type url d0 b d Hb Hd). cbn [snd].
      apply popens_fetch_events.
Qed.

(** C7, as the script has it: with no pattern in the table entry (Git),
    every line of the log output, blank or not, becomes a revision: the
    revisions of a run are the lines in their order, each stripped of the
    white space around it.  A revision is empty exactly when its line
    holds nothing but white space, and a line whose text has no white
    space around it gives that text as it is.  (The run completes when
    the log command and every pass can be run; a run that completes has
    these revisions in any case.) *)
Theorem git_revisions_are_stripped_lines
        (W : World) (repo : string) (rest : list string) (type url : string)
        (tp : list event) (b : backend) (d : string) :
  probe W (pepper_of W rest) repo (pwd0 W) = (Ok (type, url), pwd0 W, tp) ->
  diffcmd type = Some b ->
  logregex b = None ->
  work_dir W b (pwd0 W) url = Some d ->
  let v := vars_of W repo rest type url b d in
  (log_ok W d type url = true ->
   passes_ok W d v (tmp_path W "diff") (readlines (log_output W d type url)) = true ->
   exists rs,
     run_result W (repo :: rest) = Ok rs
     /\ map fst rs = map strip (readlines (log_output W d type url))
     /\ (forall x, In x (readlines (log_output W d type url)) ->
                   (strip x = "" <-> all_space x = true))
     /\ (forall s, trimmed s = true ->
                   In (line s) (readlines (log_output W d type url)) ->
                   In s (map fst rs)))
  /\ (forall rs, run_result W (repo :: rest) = Ok rs ->
                 map fst rs = map strip (readlines (log_output W d type url))).
Proof.
  intros Hp Hb Hre Hd v.
  assert (Hlog : v_log v = readlines (log_output W d type url)).
  { unfold v, vars_of, enumerate. cbn [v_log]. now rewrite Hre. }
  split.
  - intros Hl Hok. rewrite <- Hlog in Hok.
    pose proof (run_closed W repo rest type url tp b d Hp Hb Hd Hl Hok) as Hrun.
    fold v in Hrun. eexists. unfold run_result. rewrite Hrun. cbn [fst].
    split; [reflexivity|].
    rewrite revisions_of_results, Hlog. split; [reflexivity|]. split.
    + intros x _. apply strip_empty_iff.
    + intros s Hs Hin. rewrite <- (strip_trimmed_line s Hs). now apply in_map.
  - intros rs Hrs. unfold run_result in Hrs.
    destruct (run W (repo :: rest)) as [[r d'] t] eqn:Hrun. cbn [fst] in Hrs. subst r.
    apply run_ok_inv in Hrun
      as (repo' & rest' & type' & url' & b' & E & Hp' & Hb' & Hd' & _ & _ & -> & _).
    injection E as <- <-.
    pose proof (probe_value W (pepper_of W rest) repo (pwd0 W)) as Hv.
    rewrite Hp in Hv. cbn [fst] in Hv. rewrite <- Hv in Hp'. injection Hp' as <- <-.
    rewrite Hb in Hb'. injection Hb' as <-.
    rewrite Hd in Hd'. injection Hd' as <-.
    fold v. now rewrite revisions_of_results, Hlog.
Qed.

(** C8, as the script has it: a mismatch is not fatal as long as its
    artifacts can be written.  Once the probe has succeeded with a
    backend of the table, the working directory is settled (the launch
    directory for Subversion, the URL after a successful [Dir.chdir] for
    Git and Mercurial) and the log command has run: when in every pass
    the three subprocesses run and the artifacts of a mismatch can be
    written, every entry of the log is compared, three subprocesses
    each, in log order, whatever the comparisons give, and the exit
    status is 0; with an empty log nothing is compared and no artifact
    is written.  When some pass cannot be completed (a subprocess that
    cannot be run, or the artifact of a mismatch that cannot be written)
    the exit status is 1. *)
Theorem mismatch_never_fatal
        (W : World) (repo : string) (rest : list string) (type url : string)
        (tp : list event) (b : backend) (d : string) :
  probe W (pepper_of W rest) repo (pwd0 W) = (Ok (type, url), pwd0 W, tp) ->
  diffcmd type = Some b ->
  work_dir W b (pwd0 W) url = Some d ->
  popen_error W d (log_command type url) None = None ->
  let v := vars_of W repo rest type url b d in
  let argv := repo :: rest in
  ((forall x, In x (v_log v) ->
              subprocesses_run W d v (tmp_path W "diff") (strip x) = true
              /\ (candidate_output W d v (tmp_path W "diff") (strip x)
                  = reference_output W d v (strip x)
                  \/ artifacts_written W d v (tmp_path W "diff") (strip x) = true)) ->
   exists rs,
     run_result W argv = Ok rs
     /\ run_status W argv = 0%Z
     /\ map fst rs = map strip (v_log v)
     /\ popens (run_trace W argv)
        = ([(pwd0 W, probe_command (v_pepper v) (tmp_path W "type") repo);
            (d, log_command type url)]
           ++ flat_map (fun x => rev_popens d v (tmp_path W "diff") (strip x)) (v_log v))%list
     /\ List.length (popens (run_trace W argv)) = 2 + 3 * List.length (v_log v)
     /\ (v_log v = [] ->
         rs = [] /\ file_writes (run_trace W argv) = []
         /\ List.length (popens (run_trace W argv)) = 2))
  /\ (forall x,
         In x (v_log v) ->
         subprocesses_run W d v (tmp_path W "diff") (strip x) = false
         \/ (candidate_output W d v (tmp_path W "diff") (strip x)
             <> reference_output W d v (strip x)
             /\ artifacts_written W d v (tmp_path W "diff") (strip x) = false) ->
         run_status W argv = 1%Z).
Proof.
  intros Hp Hb Hd He v argv.
  assert (Hl : log_ok W d type url = true) by (unfold log_ok; now rewrite He).
  split.
  - intros Hall.
    assert (Hok : passes_ok W d v (tmp_path W "diff") (v_log v) = true).
    { apply forallb_forall. intros x Hx. destruct (Hall x Hx) as [Hs Hw].
      unfold pass_ok. rewrite Hs. cbn [andb]. apply orb_true_iff.
      destruct Hw as [Heq | Hw]; [left; now apply matches_true_iff | now right]. }
    pose proof (run_closed W repo rest type url tp b d Hp Hb Hd Hl Hok) as Hrun.
    fold v in Hrun. fold argv in Hrun.
    destruct (probe_keeps_dir W _ _ _ _ _ _ Hp) as [_ Htp].
    assert (Hpop : popens (run_trace W argv)
                   = ([(pwd0 W, probe_command (v_pepper v) (tmp_path W "type") repo);
                       (d, log_command type url)]
                      ++ flat_map (fun x => rev_popens d v (tmp_path W "diff") (strip x))
                                  (v_log v))%list).
    { unfold run_trace. rewrite Hrun. cbn [snd].
      rewrite !popens_app, popens_compare_all, popens_fetch_events. rewrite Htp.
      reflexivity. }
    assert (Hfw : file_writes (run_trace W argv)
                  = flat_map (fun x => rev_artifacts W d v (tmp_path W "diff") (strip x))
                             (v_log v)).
    { unfold run_trace. rewrite Hrun. cbn [snd].
      rewrite !file_writes_app, file_writes_compare_all, file_writes_fetch_events.
      rewrite Htp. reflexivity. }
    eexists. unfold run_status, run_result. rewrite Hrun. cbn [fst].
    split; [reflexivity|]. split; [reflexivity|].
    split; [apply revisions_of_results|].
    split; [exact Hpop|]. split.
    + rewrite Hpop, length_app, length_flat_map_rev_popens. reflexivity.
    + intros Hnil. rewrite Hpop, Hfw, Hnil. repeat split.
  - intros x Hx Hbad.
    assert (Hno : passes_ok W d v (tmp_path W "diff") (v_log v) = false).
    { destruct (passes_ok W d v (tmp_path W "diff") (v_log v)) eqn:E; [|reflexivity].
      pose proof (proj1 (forallb_forall _ _) E x Hx) as Hpx. cbv beta in Hpx.
      unfold pass_ok in Hpx. apply andb_true_iff in Hpx as [Hs Hw].
      destruct Hbad as [Hbad | [Hne Hbad]]; [congruence|].
      apply orb_true_iff in Hw as [Hw | Hw]; [|congruence].
      apply matches_true_iff in Hw. contradiction. }
    pose proof (run_loop W repo rest type url tp b d Hp Hb Hd He) as Hrun.
    fold v in Hrun. fold argv in Hrun.
    destruct (all_run_stop W d v Hno) as (exn & Hexn).
    unfold run_status, run_result. rewrite Hrun. cbn [fst]. now rewrite Hexn.
Qed.

(** C10: for the backends that do not pass the URL (Git, Mercurial), the
    run changes the working directory once, to the URL, after the probe
    and before the log command, and never again, however the run goes on:
    it ends in that directory, and the log command and every subprocess
    of the loop start there.  The tool under test is given [ARGV[0]] as
    it came, and every artifact is written under the directory the run
    was launched in, its name made of the launch directory,
    [/diff.pepper.] or [/diff.native.], and the revision. *)
Theorem chdir_once_never_restored
        (W : World) (repo : string) (rest : list string) (type url : string)
        (tp : list event) (b : backend) (d : string) :
  probe W (pepper_of W rest) repo (pwd0 W) = (Ok (type, url), pwd0 W, tp) ->
  diffcmd type = Some b ->
  passurl b = false ->
  chdir W (pwd0 W) url = Some d ->
  let v := vars_of W repo rest type url b d in
  exists r t1,
    run W (repo :: rest) = (r, d, (tp ++ Chdir url :: t1)%list)
    /\ chdirs tp = [] /\ chdirs t1 = []
    /\ popens tp
       = [(pwd0 W, pepper_of W rest ++ " -q " ++ tmp_path W "type" ++ " " ++ repo)]
    /\ (forall dir cmd, In (dir, cmd) (popens t1) -> dir = d)
    /\ (forall path content,
           In (path, content) (file_writes t1) ->
           exists x, In x (v_log v)
                     /\ (path = pwd0 W ++ "/diff.pepper." ++ strip x
                         \/ path = pwd0 W ++ "/diff.native." ++ strip x))
    /\ (log_ok W d type url = true ->
        passes_ok W d v (tmp_path W "diff") (v_log v) = true ->
        exists rs,
          r = Ok rs
          /\ map fst rs = map strip (v_log v)
          /\ popens t1
             = (d, log_command type url)
                 :: flat_map
                      (fun x =>
                         [(d, pepper_of W rest ++ " --no-cache -q " ++ tmp_path W "diff"
                              ++ " -r" ++ strip x ++ " " ++ repo);
                          (d, single_diff_command type (strip x) url);
                          (d, "diffstat -t -p1")])
                      (v_log v)).
Proof.
  intros Hp Hb Hpass Hcd v.
  assert (Hd : work_dir W b (pwd0 W) url = Some d)
    by (unfold work_dir; now rewrite Hpass).
  destruct (probe_keeps_dir W _ _ _ _ _ _ Hp) as [_ Htp].
  assert (Hpv : probe_result W (pepper_of W rest) repo (pwd0 W) = Ok (type, url)).
  { rewrite <- probe_value. now rewrite Hp. }
  assert (Hnsvn : (type =? "subversion") = false).
  { destruct (diffcmd_cases _ _ Hb) as [-> | [-> | ->]];
      injection Hb as <-; [discriminate Hpass | reflexivity | reflexivity]. }
  pose proof (run_cases W repo rest) as C. cbv zeta in C.
  rewrite Hpv, Hb, Hd in C. fold v in C. rewrite <- Htp in C.
  unfold fetch_events, chdir_events in C. rewrite Hpass in C. cbn [app] in C.
  assert (Hfull : forall t,
             (forall e, In e t -> In e (compare_all_events W d v)) ->
             chdirs (Write Stdout (line "Fetching logs...")
                           :: Popen d (log_command type url) None :: t) = []
             /\ (forall dir cmd,
                    In (dir, cmd) (popens (Write Stdout (line "Fetching logs...")
                                                 :: Popen d (log_command type url) None :: t)) ->
                    dir = d)
             /\ (forall path content,
                    In (path, content)
                       (file_writes (Write Stdout (line "Fetching logs...")
                                           :: Popen d (log_command type url) None :: t)) ->
                    exists x, In x (v_log v)
                              /\ (path = pwd0 W ++ "/diff.pepper." ++ strip x
                                  \/ path = pwd0 W ++ "/diff.native." ++ strip x))).
  { intros t Ht. split; [|split].
    - cbn [chdirs flat_map app]. fold (chdirs t).
      apply (nil_within _ t (compare_all_events W d v) Ht). apply chdirs_compare_all.
    - intros dir cmd Hin. cbn [popens flat_map app] in Hin. fold (popens t) in Hin.
      destruct Hin as [E | Hin]; [now injection E as <- _|].
      apply (flat_map_within _ t (compare_all_events W d v) Ht) in Hin.
      fold (popens (compare_all_events W d v)) in Hin. rewrite popens_compare_all in Hin.
      apply in_flat_map in Hin as (x & _ & Hx). unfold rev_popens in Hx.
      destruct Hx as [E | [E | [E | []]]]; now injection E as <- _.
    - intros path content Hin. cbn [file_writes flat_map app] in Hin.
      fold (file_writes t) in Hin.
      apply (flat_map_within _ t (compare_all_events W d v) Ht) in Hin.
      fold (file_writes (compare_all_events W d v)) in Hin.
      rewrite file_writes_compare_all in Hin.
      apply in_flat_map in Hin as (x & Hx & Hin). unfold rev_artifacts in Hin.
      destruct (matches _ _); [contradiction|].
      exists x. split; [exact Hx|].
      destruct Hin as [E | [E | []]]; injection E as <- _; auto. }
  assert (Hprobe : popens tp
                   = [(pwd0 W, pepper_of W rest ++ " -q " ++ tmp_path W "type" ++ " " ++ repo)])
    by now rewrite Htp.
  destruct (popen_error W d (log_command type url) None) as [exn|] eqn:He.
  - exists (Stop (Raised exn)), [Write Stdout (line "Fetching logs...");
                                 Popen d (log_command type url) None].
    destruct (Hfull [] (fun e H => match H with end)) as (H1 & H2 & H3).
    split; [exact C|]. split; [now rewrite Htp|]. split; [exact H1|].
    split; [exact Hprobe|]. split; [exact H2|]. split; [exact H3|].
    intros Hl. unfold log_ok in Hl. rewrite He in Hl. discriminate.
  - exists (fst (all_run W d v)),
           (Write Stdout (line "Fetching logs...")
                  :: Popen d (log_command type url) None :: snd (all_run W d v)).
    destruct (Hfull (snd (all_run W d v)) (all_run_events W d v)) as (H1 & H2 & H3).
    split; [exact C|]. split; [now rewrite Htp|]. split; [exact H1|].
    split; [exact Hprobe|]. split; [exact H2|]. split; [exact H3|].
    intros _ Hok. rewrite (all_run_ok W d v Hok). cbn [fst snd].
    eexists. split; [reflexivity|]. split; [apply revisions_of_results|].
    cbn [popens flat_map app]. fold (popens (compare_all_events W d v)).
    rewrite popens_compare_all. rewrite app_nil_l. change ([?a] ++ ?l)%list with (a :: l). f_equal. apply flat_map_ext. intros x.
    unfold rev_popens, diffstat_command. cbn [vars_of v v_pepper v_repo v_type v_url].
    now rewrite Hnsvn.
Qed.

(** ** Two runs on an unchanged repository *)

Section TwoRuns.

Variables W1 W2 : World.
Variables pepper repo : string.
Hypothesis Hsame : same_repository W1 W2 pepper repo.

Lemma probe_result_same (d : string) :
  probe_result W1 pepper repo d = probe_result W2 pepper repo d.
Proof.
  unfold probe_result.
  now rewrite (same_probe _ _ _ _ Hsame), (same_probe_error _ _ _ _ Hsame).
Qed.

Lemma log_output_same (d type url : string) :
  log_output W1 d type url = log_output W2 d type url.
Proof. unfold log_output. now rewrite (same_command _ _ _ _ Hsame). Qed.

Lemma candidate_output_same (d : string) (v : vars) (rev : string) :
  v_pepper v = pepper ->
  v_repo v = repo ->
  candidate_output W1 d v (tmp_path W1 "diff") rev
  = candidate_output W2 d v (tmp_path W2 "diff") rev.
Proof.
  intros Hp Hr. unfold candidate_output. rewrite Hp, Hr.
  now rewrite (same_tool _ _ _ _ Hsame).
Qed.

Lemma native_diff_same (d : string) (v : vars) (rev : string) :
  native_diff W1 d v rev = native_diff W2 d v rev.
Proof. unfold native_diff. now rewrite (same_command _ _ _ _ Hsame). Qed.

Lemma reference_output_same (d : string) (v : vars) (rev : string) :
  reference_output W1 d v rev = reference_output W2 d v rev.
Proof.
  unfold reference_output.
  now rewrite native_diff_same, (same_ruby _ _ _ _ Hsame), (same_command _ _ _ _ Hsame).
Qed.

Lemma rev_result_same (d : string) (v : vars) (x : string) :
  v_pepper v = pepper ->
  v_repo v = repo ->
  rev_result W1 d v (tmp_path W1 "diff") x = rev_result W2 d v (tmp_path W2 "diff") x.
Proof.
  intros Hp Hr. unfold rev_result.
  now rewrite (candidate_output_same d v (strip x) Hp Hr), reference_output_same.
Qed.

(** The same call raises in both runs, or in neither. *)
Lemma pass_fault_same (d : string) (v : vars) (rev : string) :
  v_pepper v = pepper ->
  v_repo v = repo ->
  pass_fault W1 d v (tmp_path W1 "diff") rev = pass_fault W2 d v (tmp_path W2 "diff") rev.
Proof.
  intros Hp Hr. unfold pass_fault.
  rewrite (candidate_output_same d v rev Hp Hr), reference_output_same, native_diff_same.
  rewrite (same_ruby _ _ _ _ Hsame).
  rewrite !(same_files _ _ _ _ Hsame).
  rewrite (same_command_error _ _ _ _ Hsame d (single_diff_command (v_type v) rev (v_url v))).
  rewrite (same_command_error _ _ _ _ Hsame d (diffstat_command (v_type v))).
  rewrite Hp, Hr. now rewrite (same_tool_error _ _ _ _ Hsame).
Qed.

Lemma loop_result_same (d : string) (v : vars) (revs : list string) :
  v_pepper v = pepper ->
  v_repo v = repo ->
  forall i,
    fst (loop_run W1 d v (tmp_path W1 "diff") i revs)
    = fst (loop_run W2 d v (tmp_path W2 "diff") i revs).
Proof.
  intros Hp Hr. induction revs as [|x revs IH]; intros i; cbn [loop_run]; [reflexivity|].
  rewrite (pass_fault_same d v (strip x) Hp Hr).
  destruct (pass_fault W2 d v (tmp_path W2 "diff") (strip x)) as [[exn k]|]; [reflexivity|].
  specialize (IH (S i)). rewrite (rev_result_same d v x Hp Hr).
  destruct (loop_run W1 d v (tmp_path W1 "diff") (S i) revs) as [r1 t1].
  destruct (loop_run W2 d v (tmp_path W2 "diff") (S i) revs) as [r2 t2].
  cbn [fst] in *. now rewrite IH.
Qed.

Lemma all_result_same (d : string) (v : vars) :
  v_pepper v = pepper ->
  v_repo v = repo ->
  fst (all_run W1 d v) = fst (all_run W2 d v).
Proof.
  intros Hp Hr. unfold all_run.
  pose proof (loop_result_same d v (v_log v) Hp Hr 0) as H.
  destruct (loop_run W1 d v (tmp_path W1 "diff") 0 (v_log v)) as [r1 t1].
  destruct (loop_run W2 d v (tmp_path W2 "diff") 0 (v_log v)) as [r2 t2].
  exact H.
Qed.

End TwoRuns.

(** C9: determinism.  Two runs with the same arguments in two
    environments that stand for the same unchanged repository end alike:
    both stop with the same exit or exception, or both complete with the
    same list of revisions, in the same order, and the same [matches]
    for each. *)
Theorem run_deterministic (W1 W2 : World) (repo : string) (rest : list string) :
  pepper_of W1 rest = pepper_of W2 rest ->
  same_repository W1 W2 (pepper_of W1 rest) repo ->
  run_result W1 (repo :: rest) = run_result W2 (repo :: rest)
  /\ (forall rs1, run_result W1 (repo :: rest) = Ok rs1 ->
                  exists rs2, run_result W2 (repo :: rest) = Ok rs2
                              /\ map fst rs1 = map fst rs2
                              /\ map snd rs1 = map snd rs2).
Proof.
  intros Hpep Hsame.
  assert (G : run_result W1 (repo :: rest) = run_result W2 (repo :: rest)).
  { pose proof (run_cases W1 repo rest) as C1. pose proof (run_cases W2 repo rest) as C2.
    cbv zeta in C1, C2.
    pose proof (same_pwd _ _ _ _ Hsame) as Epwd.
    rewrite <- Hpep, <- Epwd in C2.
    rewrite <- (probe_result_same W1 W2 _ _ Hsame (pwd0 W1)) in C2.
    unfold run_result.
    destruct (probe_result W1 (pepper_of W1 rest) repo (pwd0 W1)) as [[type url]|o].
    - destruct (diffcmd type) as [b|].
      + assert (Ewd : work_dir W2 b (pwd0 W1) url = work_dir W1 b (pwd0 W1) url).
        { unfold work_dir. destruct (passurl b); [reflexivity|].
          symmetry. apply (same_chdir _ _ _ _ Hsame). }
        rewrite Ewd in C2.
        destruct (work_dir W1 b (pwd0 W1) url) as [d|].
        * rewrite <- (same_command_error _ _ _ _ Hsame) in C2.
          assert (Ev : vars_of W2 repo rest type url b d = vars_of W1 repo rest type url b d).
          { unfold vars_of. rewrite <- Hpep, <- Epwd.
            now rewrite (log_output_same W1 W2 _ _ Hsame). }
          rewrite Ev in C2.
          destruct (popen_error W1 d (log_command type url) None) as [exn|].
          -- now rewrite C1, C2.
          -- rewrite C1, C2. cbn [fst].
             apply (all_result_same W1 W2 _ _ Hsame); reflexivity.
        * now rewrite C1, C2.
      + now rewrite C1, C2.
    - now rewrite C1, C2. }
  split; [exact G|]. intros rs1 H. exists rs1. rewrite <- G. auto.
Qed.


(** ** The claims on concrete runs *)

Import Samples.

(** Reordered lines are a mismatch like any other. *)
Example reordered_lines_do_not_match :
  run_result git_reordered ["/srv/project"] = Ok [("4f2a", false)]
  /\ List.length (file_writes (run_trace git_reordered ["/srv/project"])) = 2.
Proof. split; reflexivity. Qed.

(** Three commits, a correct tool: three comparisons, the progress
    [1/3], [2/3], [3/3], no artifact, exit status 0. *)
Example git_three_commits_run :
  run_result git_three_commits ["/srv/project"]
  = Ok [("9c1e", true); ("4f2a", true); ("07bd", true)]
  /\ prints (run_trace git_three_commits ["/srv/project"])
     = [line "Probing repository..."; line "Fetching logs..."; "Comparing diffstats... ";
        chr esc ++ "[0K" ++ chr cr ++ "Comparing diffstats... 1/3";
        chr esc ++ "[0K" ++ chr cr ++ "Comparing diffstats... 2/3";
        chr esc ++ "[0K" ++ chr cr ++ "Comparing diffstats... 3/3";
        chr nl]
  /\ file_writes (run_trace git_three_commits ["/srv/project"]) = []
  /\ warnings (run_trace git_three_commits ["/srv/project"]) = []
  /\ run_status git_three_commits ["/srv/project"] = 0%Z.
Proof. repeat split. Qed.

(** Two revisions, a mismatch on each, a launch directory that can be
    written: four artifacts, two warnings, exit status 0. *)
Example svn_mismatch_run :
  run_result svn_mismatch ["repo"] = Ok [("42", false); ("41", false)]
  /\ run_status svn_mismatch ["repo"] = 0%Z
  /\ file_writes (run_trace svn_mismatch ["repo"])
     = [("/home/dev/diff.pepper.42", lines ["INSERTED,DELETED,MODIFIED,FILENAME"; "3,1,0,foo.c"]);
        ("/home/dev/diff.native.42", lines ["INSERTED,DELETED,MODIFIED,FILENAME"; "3,0,0,foo.c"]);
        ("/home/dev/diff.pepper.41", lines ["INSERTED,DELETED,MODIFIED,FILENAME"; "3,1,0,foo.c"]);
        ("/home/dev/diff.native.41", lines ["INSERTED,DELETED,MODIFIED,FILENAME"; "3,0,0,foo.c"])]
  /\ warnings (run_trace svn_mismatch ["repo"])
     = [line "Warning: Diffstats for revision 42 don't match! Check diff.pepper.42 and diff.native.42";
        line "Warning: Diffstats for revision 41 don't match! Check diff.pepper.41 and diff.native.41"].
Proof. repeat split. Qed.

(** A backend the table does not have: [diffcmd[type]] is [nil], and
    line 64 raises. *)
Example unknown_backend_run :
  probe unknown_backend "pepper" "repo" (pwd0 unknown_backend)
  = (Ok ("cvs", "/srv/repo"), "/home/dev", probe_events unknown_backend "pepper" "repo" "/home/dev")
  /\ run_result unknown_backend ["repo"] = Stop (Raised "NoMethodError")
  /\ run_status unknown_backend ["repo"] = 1%Z.
Proof. repeat split. Qed.

(** The same machine without [diffstat]: the first pass stops at its
    third subprocess. *)
Example git_no_diffstat_run :
  run_result git_no_diffstat ["/srv/project"] = Stop (Raised "Errno::ENOENT")
  /\ run_status git_no_diffstat ["/srv/project"] = 1%Z
  /\ popens (run_trace git_no_diffstat ["/srv/project"])
     = [("/home/dev", "pepper -q /tmp/type /srv/project");
        ("/srv/project", "git rev-list HEAD");
        ("/srv/project", "pepper --no-cache -q /tmp/diff -r9c1e /srv/project");
        ("/srv/project", "git diff-tree -U --no-renames --root 9c1e");
        ("/srv/project", "diffstat -t -p1")].
Proof. repeat split. Qed.

Lemma matches_iff_outputs_equal_witness :
  diffcmd (v_type git_vars) = Some git_backend
  /\ pass_ok git_blank_line "/srv/project" git_vars "/tmp/diff" (strip (line "4f2a")) = true
  /\ exists (m : bool) (t : list event),
      compare_rev git_blank_line git_vars "/tmp/diff" 0 (line "4f2a") "/srv/project"
      = (Ok (strip (line "4f2a"), m), "/srv/project", t)
      /\ (m = true <->
          candidate_output git_blank_line "/srv/project" git_vars "/tmp/diff" (strip (line "4f2a"))
          = reference_output git_blank_line "/srv/project" git_vars (strip (line "4f2a"))).
Proof.
  split; [reflexivity|]. split; [reflexivity|].
  exact (proj1 (matches_iff_outputs_equal git_blank_line git_vars "/tmp/diff" 0 (line "4f2a")
                                          "/srv/project" git_backend eq_refl) eq_refl).
Defined.

Lemma artifacts_iff_mismatch_witness :
  diffcmd "subversion" = Some subversion_backend
  /\ subprocesses_run svn_mismatch "/home/dev"
                      (vars_of svn_mismatch "repo" [] "subversion" "file:///srv/repo"
                               subversion_backend "/home/dev")
                      "/tmp/diff" "42" = true
  /\ file_error svn_mismatch "/home/dev/diff.pepper.42"
                (lines ["INSERTED,DELETED,MODIFIED,FILENAME"; "3,1,0,foo.c"]) = None
  /\ file_error svn_mismatch "/home/dev/diff.native.42"
                (lines ["INSERTED,DELETED,MODIFIED,FILENAME"; "3,0,0,foo.c"]) = None
  /\ fst (fst (compare_rev svn_mismatch
                           (vars_of svn_mismatch "repo" [] "subversion" "file:///srv/repo"
                                    subversion_backend "/home/dev")
                           "/tmp/diff" 0 "42" "/home/dev"))
     = Ok ("42", false)
  /\ files_written
       (snd (compare_rev svn_mismatch
                         (vars_of svn_mismatch "repo" [] "subversion" "file:///srv/repo"
                                  subversion_backend "/home/dev")
                         "/tmp/diff" 0 "42" "/home/dev"))
     = [("/home/dev/diff.pepper.42",
         lines ["INSERTED,DELETED,MODIFIED,FILENAME"; "3,1,0,foo.c"]);
        ("/home/dev/diff.native.42",
         lines ["INSERTED,DELETED,MODIFIED,FILENAME"; "3,0,0,foo.c"])]
  /\ warnings
       (snd (compare_rev svn_mismatch
                         (vars_of svn_mismatch "repo" [] "subversion" "file:///srv/repo"
                                  subversion_backend "/home/dev")
                         "/tmp/diff" 0 "42" "/home/dev"))
     = [line "Warning: Diffstats for revision 42 don't match! Check diff.pepper.42 and diff.native.42"]
  /\ files_written
       (snd (compare_rev git_blank_line
                         (vars_of git_blank_line "/srv/project" [] "git" "/srv/project"
                                  git_backend "/srv/project")
                         "/tmp/diff" 0 "4f2a" "/srv/project"))
     = [].
Proof.
  do 4 (split; [reflexivity|]).
  destruct (proj2 (artifacts_iff_mismatch svn_mismatch "repo" [] "subversion"
                                          "file:///srv/repo" subversion_backend "/home/dev"
                                          0 "42" eq_refl) eq_refl)
    as [_ Hdiff].
  assert (Hne : candidate_output svn_mismatch "/home/dev"
                  (vars_of svn_mismatch "repo" [] "subversion" "file:///srv/repo"
                           subversion_backend "/home/dev") "/tmp/diff" (strip "42")
                <> reference_output svn_mismatch "/home/dev"
                     (vars_of svn_mismatch "repo" [] "subversion" "file:///srv/repo"
                              subversion_backend "/home/dev") (strip "42"))
    by (vm_compute; discriminate).
  destruct (Hdiff Hne) as (_ & Hwritten & _).
  destruct (Hwritten eq_refl eq_refl) as (Hr & Hf & Hw).
  split; [exact Hr|]. split; [exact Hf|]. split; [exact Hw|].
  destruct (proj2 (artifacts_iff_mismatch git_blank_line "/srv/project" [] "git"
                                          "/srv/project" git_backend "/srv/project"
                                          0 "4f2a" eq_refl) eq_refl)
    as [Hsame _].
  exact (proj1 (proj2 (Hsame eq_refl))).
Defined.

(** C2 as stated fails: the two outputs differ, the launch directory
    cannot be written, and the pass ends with the exception of
    [File.open], no file and no warning. *)
Lemma read_only_directory_counterexample :
  let v := vars_of svn_read_only "repo" [] "subversion" "file:///srv/repo"
                   subversion_backend "/home/dev" in
  let pass := compare_rev svn_read_only v "/tmp/diff" 0 "42" "/home/dev" in
  subprocesses_run svn_read_only "/home/dev" v "/tmp/diff" "42" = true
  /\ candidate_output svn_read_only "/home/dev" v "/tmp/diff" "42"
     = lines ["INSERTED,DELETED,MODIFIED,FILENAME"; "3,1,0,foo.c"]
  /\ reference_output svn_read_only "/home/dev" v "42"
     = lines ["INSERTED,DELETED,MODIFIED,FILENAME"; "3,0,0,foo.c"]
  /\ file_error svn_read_only "/home/dev/diff.pepper.42"
                (lines ["INSERTED,DELETED,MODIFIED,FILENAME"; "3,1,0,foo.c"])
     = Some "Errno::EACCES"
  /\ fst (fst pass) = Stop (Raised "Errno::EACCES")
  /\ files_written (snd pass) = []
  /\ warnings (snd pass) = []
  /\ run_status svn_read_only ["repo"] = 1%Z
  /\ ~ (candidate_output svn_read_only "/home/dev" v "/tmp/diff" "42"
        <> reference_output svn_read_only "/home/dev" v "42" ->
        List.length (files_written (snd pass)) = 2 /\ warnings (snd pass) <> []).
Proof.
  intros v pass. do 8 (split; [reflexivity|]).
  intros H. assert (Hne : candidate_output svn_read_only "/home/dev" v "/tmp/diff" "42"
                          <> reference_output svn_read_only "/home/dev" v "42")
    by (vm_compute; discriminate).
  destruct (H Hne) as [Hlen _]. vm_compute in Hlen. discriminate.
Qed.

Lemma probe_failure_is_fatal_witness :
  popen probe_fails "/home/dev" "pepper -q /tmp/type repo" None
  = (lines ["git"; "/srv/project"], 256%Z)
  /\ run_status probe_fails ["repo"] = 1%Z
  /\ popen probe_short "/home/dev" "pepper -q /tmp/type repo" None = (lines ["git"], 0%Z)
  /\ run_status probe_short ["repo"] = 1%Z
  /\ popen_error git_blank_line "/home/dev" "pepper -q /tmp/type repo" None = None
  /\ probe git_blank_line "pepper" "repo" "/home/dev"
     = (Ok ("git", "/srv/project"), "/home/dev", probe_events git_blank_line "pepper" "repo" "/home/dev")
  /\ popen_error no_pepper "/home/dev" "pepper -q /tmp/type repo" None = Some "Errno::ENOENT"
  /\ run_status no_pepper ["repo"] = 1%Z.
Proof.
  split; [reflexivity|]. split.
  - refine (proj1 (proj1 (probe_failure_is_fatal probe_fails "repo" [] _ _ eq_refl) _)).
    left. discriminate.
  - split; [reflexivity|]. split.
    + refine (proj1 (proj1 (probe_failure_is_fatal probe_short "repo" [] _ _ eq_refl) _)).
      right. simpl. lia.
    + split; [reflexivity|]. split.
      * exact (proj1 (proj2 (probe_failure_is_fatal git_blank_line "repo" [] _ _ eq_refl))
                     eq_refl eq_refl _ _ _ eq_refl).
      * split; [reflexivity|].
        exact (proj1 (proj2 (proj2 (proj2 (probe_failure_is_fatal no_pepper "repo" [] _ _ eq_refl))
                                   "Errno::ENOENT" eq_refl))).
Defined.

Lemma url_normalization_witness :
  probe svn_mismatch "pepper" "repo" "/home/dev"
  = (Ok ("subversion", "file:///srv/repo"), "/home/dev",
     probe_events svn_mismatch "pepper" "repo" "/home/dev")
  /\ exists l0 l1 more,
      readlines (fst (popen svn_mismatch "/home/dev"
                            (probe_command "pepper" (tmp_path svn_mismatch "type") "repo") None))
      = l0 :: l1 :: more
      /\ "subversion" = strip l0
      /\ "file:///srv/repo"
         = (if ("subversion" =? "subversion") && starts_with "/" (strip l1)
            then "file://" ++ strip l1
            else strip l1).
Proof.
  split; [reflexivity|].
  exact (url_normalization svn_mismatch "pepper" "repo" "/home/dev" "subversion"
                           "file:///srv/repo" "/home/dev" _ eq_refl).
Defined.

Lemma extraction_keeps_matching_lines_in_order_witness :
  diffcmd "mercurial" = Some mercurial_backend
  /\ logregex mercurial_backend = Some re_hg
  /\ work_dir (hg_repo "/tmp") mercurial_backend "/home/dev" "/srv/hg" = Some "/srv/hg"
  /\ popen_error (hg_repo "/tmp") "/srv/hg" (log_command "mercurial" "/srv/hg") None = None
  /\ popen (hg_repo "/tmp") "/srv/hg" "hg log -q" None
     = (lines ["5:abc123def"; ""; "4:0123456789ab"], 0%Z)
  /\ fst (fst (fetch_log (hg_repo "/tmp") "mercurial" "/srv/hg" "/home/dev"))
     = Ok ("/home/dev", ["abc123def"; "0123456789ab"])
  /\ exists (revs : list string) (t : list event),
      fetch_log (hg_repo "/tmp") "mercurial" "/srv/hg" "/home/dev"
      = (Ok ("/home/dev", revs), "/srv/hg", t)
      /\ revs = flat_map (fun x => match rmatch re_hg x with
                                   | Some caps => [hd "" caps]
                                   | None => []
                                   end)
                         (readlines (lines ["5:abc123def"; ""; "4:0123456789ab"])).
Proof.
  do 6 (split; [reflexivity|]).
  destruct (extraction_keeps_matching_lines_in_order
              (hg_repo "/tmp") "mercurial" "/srv/hg" "/home/dev" mercurial_backend re_hg
              "/srv/hg" eq_refl eq_refl eq_refl eq_refl)
    as (revs & t & Hrun & Hrevs & _).
  exists revs, t. split; [exact Hrun | exact Hrevs].
Defined.

Lemma command_table_exact_witness :
  diffcmd (v_type git_vars) = Some git_backend
  /\ subprocesses_run git_blank_line "/srv/project" git_vars "/tmp/diff" (strip (line "4f2a"))
     = true
  /\ popens (snd (compare_rev git_blank_line git_vars "/tmp/diff" 0 (line "4f2a") "/srv/project"))
     = [("/srv/project", "pepper --no-cache -q /tmp/diff -r4f2a /srv/project");
        ("/srv/project", "git diff-tree -U --no-renames --root 4f2a");
        ("/srv/project", "diffstat -t -p1")]
  /\ work_dir svn_mismatch subversion_backend "/home/dev" "file:///srv/repo" = Some "/home/dev"
  /\ popens (snd (fetch_log svn_mismatch "subversion" "file:///srv/repo" "/home/dev"))
     = [("/home/dev", "svn log -q file:///srv/repo")].
Proof.
  split; [reflexivity|]. split; [reflexivity|]. split; [|split; [reflexivity|]].
  - destruct (command_table_exact "/srv/project" "4f2a")
      as (_ & _ & _ & _ & _ & _ & _ & _ & _ & F & _).
    exact (F git_blank_line git_vars "/tmp/diff" 0 (line "4f2a") "/srv/project"
             git_backend eq_refl eq_refl).
  - destruct (command_table_exact "file:///srv/repo" "42")
      as (_ & _ & _ & _ & _ & _ & _ & _ & _ & _ & G).
    exact (G svn_mismatch "subversion" "/home/dev" "/home/dev"
             subversion_backend eq_refl eq_refl).
Defined.

(** C7 as stated fails: in a Git log an empty line is a revision, and an
    empty one. *)
Lemma git_blank_line_counterexample :
  diffcmd "git" = Some git_backend
  /\ logregex git_backend = None
  /\ log_output git_blank_line "/srv/project" "git" "/srv/project"
     = lines ["4f2a"; ""; "9c1e"]
  /\ run_result git_blank_line ["/srv/project"]
     = Ok [("4f2a", true); ("", true); ("9c1e", true)]
  /\ ~ (forall rs, run_result git_blank_line ["/srv/project"] = Ok rs ->
                   forall rev, In rev (map fst rs) -> rev <> "").
Proof.
  repeat (split; [reflexivity|]).
  intros H. apply (H _ eq_refl ""); [|reflexivity].
  simpl. right. now left.
Qed.

Lemma git_revisions_are_stripped_lines_witness :
  probe git_blank_line (pepper_of git_blank_line []) "/srv/project" (pwd0 git_blank_line)
  = (Ok ("git", "/srv/project"), pwd0 git_blank_line,
     probe_events git_blank_line "pepper" "/srv/project" "/home/dev")
  /\ diffcmd "git" = Some git_backend
  /\ logregex git_backend = None
  /\ work_dir git_blank_line git_backend (pwd0 git_blank_line) "/srv/project"
     = Some "/srv/project"
  /\ log_ok git_blank_line "/srv/project" "git" "/srv/project" = true
  /\ passes_ok git_blank_line "/srv/project"
               (vars_of git_blank_line "/srv/project" [] "git" "/srv/project" git_backend
                        "/srv/project")
               "/tmp/diff"
               (readlines (log_output git_blank_line "/srv/project" "git" "/srv/project"))
     = true
  /\ exists rs,
      run_result git_blank_line ["/srv/project"] = Ok rs
      /\ map fst rs
         = map strip (readlines (log_output git_blank_line "/srv/project" "git" "/srv/project"))
      /\ (forall x,
             In x (readlines (log_output git_blank_line "/srv/project" "git" "/srv/project")) ->
             (strip x = "" <-> all_space x = true))
      /\ (forall s,
             trimmed s = true ->
             In (line s)
                (readlines (log_output git_blank_line "/srv/project" "git" "/srv/project")) ->
             In s (map fst rs)).
Proof.
  repeat (split; [reflexivity|]).
  exact (proj1 (git_revisions_are_stripped_lines
                  git_blank_line "/srv/project" [] "git" "/srv/project"
                  _ git_backend "/srv/project" eq_refl eq_refl eq_refl eq_refl)
               eq_refl eq_refl).
Defined.

(** C8 as stated fails: the probe succeeds, the log has two revisions,
    the first comparison finds a difference, its artifact
    [diff.pepper.a/b] cannot be created, and the run ends there with exit
    status 1: the second revision is never compared. *)
Lemma unwritable_artifact_counterexample :
  probe hg_slash "pepper" "repo" (pwd0 hg_slash)
  = (Ok ("mercurial", "/srv/hg"), "/home/dev", probe_events hg_slash "pepper" "repo" "/home/dev")
  /\ fst (fst (fetch_log hg_slash "mercurial" "/srv/hg" "/home/dev"))
     = Ok ("/home/dev", ["a/b"; "0123456789ab"])
  /\ fst (popen hg_slash "/srv/hg" "pepper --no-cache -q /tmp/diff -ra/b repo" None)
     <> fst (popen hg_slash "/srv/hg" "diffstat -t -p1" (Some (chr nl)))
  /\ file_error hg_slash "/home/dev/diff.pepper.a/b"
                (lines ["INSERTED,DELETED,MODIFIED,FILENAME"; "3,1,0,foo.c"])
     = Some "Errno::ENOENT"
  /\ run_result hg_slash ["repo"] = Stop (Raised "Errno::ENOENT")
  /\ run_status hg_slash ["repo"] = 1%Z
  /\ popens (run_trace hg_slash ["repo"])
     = [("/home/dev", "pepper -q /tmp/type repo");
        ("/srv/hg", "hg log -q");
        ("/srv/hg", "pepper --no-cache -q /tmp/diff -ra/b repo");
        ("/srv/hg", "hg diff -c a/b");
        ("/srv/hg", "diffstat -t -p1")]
  /\ file_writes (run_trace hg_slash ["repo"]) = []
  /\ run_status hg_slash ["repo"] <> 0%Z.
Proof.
  do 2 (split; [reflexivity|]). split; [vm_compute; discriminate|].
  do 5 (split; [reflexivity|]). vm_compute. discriminate.
Qed.

Lemma mismatch_never_fatal_witness :
  probe svn_mismatch (pepper_of svn_mismatch []) "repo" (pwd0 svn_mismatch)
  = (Ok ("subversion", "file:///srv/repo"), pwd0 svn_mismatch,
     probe_events svn_mismatch "pepper" "repo" "/home/dev")
  /\ diffcmd "subversion" = Some subversion_backend
  /\ work_dir svn_mismatch subversion_backend (pwd0 svn_mismatch) "file:///srv/repo"
     = Some "/home/dev"
  /\ popen_error svn_mismatch "/home/dev" (log_command "subversion" "file:///srv/repo") None
     = None
  /\ (exists rs,
         run_result svn_mismatch ["repo"] = Ok rs
         /\ run_status svn_mismatch ["repo"] = 0%Z
         /\ map fst rs = ["42"; "41"]
         /\ map snd rs = [false; false]
         /\ List.length (popens (run_trace svn_mismatch ["repo"])) = 8)
  /\ probe hg_slash (pepper_of hg_slash []) "repo" (pwd0 hg_slash)
     = (Ok ("mercurial", "/srv/hg"), pwd0 hg_slash,
        probe_events hg_slash "pepper" "repo" "/home/dev")
  /\ run_status hg_slash ["repo"] = 1%Z.
Proof.
  do 4 (split; [reflexivity|]). split.
  - destruct (mismatch_never_fatal svn_mismatch "repo" [] "subversion" "file:///srv/repo"
                                   _ subversion_backend "/home/dev"
                                   eq_refl eq_refl eq_refl eq_refl)
      as [Hgood _].
    destruct Hgood as (rs & Hrs & Hstatus & Hrevs & _ & Hlen & _).
    { intros x Hx. vm_compute in Hx.
      destruct Hx as [<- | [<- | []]]; (split; [reflexivity | right; reflexivity]). }
    exists rs. split; [exact Hrs|]. split; [exact Hstatus|]. split; [exact Hrevs|].
    split; [|exact Hlen].
    assert (E : Ok rs = Ok [("42", false); ("41", false)]) by (rewrite <- Hrs; reflexivity).
    now injection E as ->.
  - split; [reflexivity|].
    destruct (mismatch_never_fatal hg_slash "repo" [] "mercurial" "/srv/hg"
                                   _ mercurial_backend "/srv/hg"
                                   eq_refl eq_refl eq_refl eq_refl)
      as [_ Hbad].
    apply (Hbad "a/b").
    + vm_compute. now left.
    + right. split; [vm_compute; discriminate | reflexivity].
Defined.

Lemma run_deterministic_witness :
  pepper_of (hg_repo "/tmp") [] = pepper_of (hg_repo "/var/tmp") []
  /\ same_repository (hg_repo "/tmp") (hg_repo "/var/tmp") (pepper_of (hg_repo "/tmp") []) "repo"
  /\ tmp_path (hg_repo "/tmp") "diff" <> tmp_path (hg_repo "/var/tmp") "diff"
  /\ run_result (hg_repo "/tmp") ["repo"] = run_result (hg_repo "/var/tmp") ["repo"]
  /\ (forall rs1,
         run_result (hg_repo "/tmp") ["repo"] = Ok rs1 ->
         exists rs2, run_result (hg_repo "/var/tmp") ["repo"] = Ok rs2
                     /\ map fst rs1 = map fst rs2
                     /\ map snd rs1 = map snd rs2).
Proof.
  assert (Hsame : same_repository (hg_repo "/tmp") (hg_repo "/var/tmp") "pepper" "repo")
    by (constructor; intros; reflexivity).
  split; [reflexivity|]. split; [exact Hsame|]. split; [discriminate|].
  exact (run_deterministic (hg_repo "/tmp") (hg_repo "/var/tmp") "repo" [] eq_refl Hsame).
Defined.

Lemma chdir_once_never_restored_witness :
  probe (hg_repo "/tmp") (pepper_of (hg_repo "/tmp") []) "repo" (pwd0 (hg_repo "/tmp"))
  = (Ok ("mercurial", "/srv/hg"), pwd0 (hg_repo "/tmp"),
     probe_events (hg_repo "/tmp") "pepper" "repo" "/home/dev")
  /\ diffcmd "mercurial" = Some mercurial_backend
  /\ passurl mercurial_backend = false
  /\ chdir (hg_repo "/tmp") (pwd0 (hg_repo "/tmp")) "/srv/hg" = Some "/srv/hg"
  /\ exists r t1,
      run (hg_repo "/tmp") ["repo"]
      = (r, "/srv/hg",
         (probe_events (hg_repo "/tmp") "pepper" "repo" "/home/dev" ++ Chdir "/srv/hg" :: t1)%list)
      /\ chdirs t1 = []
      /\ (forall dir cmd, In (dir, cmd) (popens t1) -> dir = "/srv/hg")
      /\ exists rs,
          r = Ok rs
          /\ popens t1
             = [("/srv/hg", "hg log -q");
                ("/srv/hg", "pepper --no-cache -q /tmp/diff -rabc123def repo");
                ("/srv/hg", "hg diff -c abc123def");
                ("/srv/hg", "diffstat -t -p1");
                ("/srv/hg", "pepper --no-cache -q /tmp/diff -r0123456789ab repo");
                ("/srv/hg", "hg diff -c 0123456789ab");
                ("/srv/hg", "diffstat -t -p1")].
Proof.
  do 4 (split; [reflexivity|]).
  destruct (chdir_once_never_restored (hg_repo "/tmp") "repo" [] "mercurial" "/srv/hg"
                                      _ mercurial_backend "/srv/hg"
                                      eq_refl eq_refl eq_refl eq_refl)
    as (r & t1 & Hrun & _ & Hcd & _ & Hdir & _ & Hdone).
  exists r, t1. split; [exact Hrun|]. split; [exact Hcd|]. split; [exact Hdir|].
  destruct (Hdone eq_refl eq_refl) as (rs & Hr & _ & Hpop).
  exists rs. split; [exact Hr | exact Hpop].
Defined.


(** * Further properties of the script *)

Section RunEnds.

Variable W : World.

(** A run that stops, stops with status 1. *)
Lemma run_stop_status (argv : list string) (o : outcome) :
  run_result W argv = Stop o -> exit_status o = 1%Z.
Proof.
  intros H. destruct argv as [|repo rest]; [now injection H as <-|].
  pose proof (run_cases W repo rest) as C. cbv zeta in C. unfold run_result in H.
  destruct (probe_result W (pepper_of W rest) repo (pwd0 W)) as [[type url]|o'] eqn:P.
  - destruct (diffcmd type) as [b|].
    + destruct (work_dir W b (pwd0 W) url) as [d|].
      * destruct (popen_error W d (log_command type url) None) as [exn|].
        -- rewrite C in H. now injection H as <-.
        -- rewrite C in H. cbn [fst] in H.
           set (v := vars_of W repo rest type url b d) in *.
           destruct (passes_ok W d v (tmp_path W "diff") (v_log v)) eqn:Hok.
           ++ rewrite (all_run_ok W d v Hok) in H. discriminate.
           ++ destruct (all_run_stop W d v Hok) as (exn & E'). rewrite E' in H.
              now injection H as <-.
      * rewrite C in H. now injection H as <-.
    + rewrite C in H. now injection H as <-.
  - rewrite C in H. cbn [fst] in H. injection H as ->.
    exact (probe_result_stop W _ _ _ _ P).
Qed.

Lemma passes_ok_spelled (d : string) (v : vars) (tmp : string) (revs : list string) :
  passes_ok W d v tmp revs = true ->
  forall x, In x revs ->
            subprocesses_run W d v tmp (strip x) = true
            /\ (candidate_output W d v tmp (strip x) = reference_output W d v (strip x)
                \/ artifacts_written W d v tmp (strip x) = true).
Proof.
  intros H x Hx. pose proof (proj1 (forallb_forall _ _) H x Hx) as Hp. cbv beta in Hp.
  unfold pass_ok in Hp. apply andb_true_iff in Hp as [Hs Hw]. split; [exact Hs|].
  apply orb_true_iff in Hw as [Hw | Hw]; [left; now apply matches_true_iff | now right].
Qed.

End RunEnds.

(** X1: the exit status of a run is 0 or 1, and 0 only after the whole
    log has been compared: there is a repository argument, the probe
    gives a backend type and a URL, the type is a key of [diffcmd], the
    working directory is settled, the log command has run, and for every
    entry of the log the three subprocesses have run and, where the
    outputs differ, both artifacts have been written. *)
Theorem exit_zero_only_after_all_compared (W : World) (argv : list string) :
  (run_status W argv = 0%Z \/ run_status W argv = 1%Z)
  /\ (run_status W argv = 0%Z ->
      exists repo rest type url b d revs rs,
        argv = repo :: rest
        /\ fst (fst (probe W (pepper_of W rest) repo (pwd0 W))) = Ok (type, url)
        /\ diffcmd type = Some b
        /\ work_dir W b (pwd0 W) url = Some d
        /\ fst (fst (fetch_log W type url (pwd0 W))) = Ok (pwd0 W, revs)
        /\ run_result W argv = Ok rs
        /\ map fst rs = map strip revs
        /\ (forall x,
               In x revs ->
               let v := vars_of W repo rest type url b d in
               subprocesses_run W d v (tmp_path W "diff") (strip x) = true
               /\ (candidate_output W d v (tmp_path W "diff") (strip x)
                   = reference_output W d v (strip x)
                   \/ artifacts_written W d v (tmp_path W "diff") (strip x) = true))).
Proof.
  split; [apply run_status_cases|]. intros H0.
  destruct (run W argv) as [[r d] t] eqn:Hrun.
  assert (Hr : run_result W argv = r) by (unfold run_result; now rewrite Hrun).
  destruct r as [rs|o].
  - apply run_ok_inv in Hrun
      as (repo & rest & type & url & b & -> & Hp & Hb & Hd & Hl & Hok & Hrs & _).
    exists repo, rest, type, url, b, d,
      (v_log (vars_of W repo rest type url b d)), rs.
    split; [reflexivity|]. split; [now rewrite probe_value|].
    split; [exact Hb|]. split; [exact Hd|]. split.
    + rewrite (fetch_log_run W type url (pwd0 W) b d Hb Hd).
      unfold log_ok in Hl.
      destruct (popen_error W d (log_command type url) None); [discriminate | reflexivity].
    + split; [exact Hr|]. split.
      * rewrite Hrs. apply revisions_of_results.
      * intros x Hx. cbv zeta. now apply (passes_ok_spelled W d _ _ _ Hok).
  - unfold run_status in H0. rewrite Hr in H0. cbn [outcome_of] in H0.
    rewrite (run_stop_status W argv o Hr) in H0. discriminate.
Qed.

(** X2: a run whose setup fails (no repository argument, a probe that
    fails, a backend type the table does not have, a [Dir.chdir] that
    fails) ends with exit status 1 and has compared nothing: it has called
    [IO.popen] at most once, for the probe, in the launch directory, and
    has written no artifact and no warning. *)
Theorem failed_setup_compares_nothing (W : World) (argv : list string) :
  ~ (exists repo rest type url b d,
        argv = repo :: rest
        /\ fst (fst (probe W (pepper_of W rest) repo (pwd0 W))) = Ok (type, url)
        /\ diffcmd type = Some b
        /\ work_dir W b (pwd0 W) url = Some d) ->
  run_status W argv = 1%Z
  /\ List.length (popens (run_trace W argv)) <= 1
  /\ (forall dir cmd, In (dir, cmd) (popens (run_trace W argv)) -> dir = pwd0 W)
  /\ file_writes (run_trace W argv) = []
  /\ warnings (run_trace W argv) = [].
Proof.
  destruct argv as [|repo rest].
  { intros _. repeat split; try reflexivity; try (now apply Nat.le_0_l).
    intros dir cmd []. }
  intros Hno.
  pose proof (run_cases W repo rest) as C. cbv zeta in C.
  unfold run_status, run_result, run_trace.
  assert (Hin : forall dir cmd,
             In (dir, cmd) (popens (probe_events W (pepper_of W rest) repo (pwd0 W))) ->
             dir = pwd0 W).
  { intros dir cmd [E | []]. now injection E as <- _. }
  destruct (probe_result W (pepper_of W rest) repo (pwd0 W)) as [[type url]|o] eqn:P.
  - destruct (diffcmd type) as [b|] eqn:Hb.
    + destruct (work_dir W b (pwd0 W) url) as [d|] eqn:Hd.
      * elim Hno. exists repo, rest, type, url, b, d. rewrite probe_value. auto.
      * rewrite C. cbn [fst snd]. unfold probe_events. cbn [app].
        repeat split; try reflexivity; try apply Nat.le_refl.
        intros dir cmd [E | []]. now injection E as <- _.
    + rewrite C. cbn [fst snd]. repeat split; try reflexivity; try apply Nat.le_refl.
      exact Hin.
  - rewrite C. cbn [fst snd outcome_of].
    split; [exact (probe_result_stop W _ _ _ o P)|].
    repeat split; try reflexivity; try apply Nat.le_refl. exact Hin.
Qed.

(** X3: with a backend that passes the URL (Subversion) a run never
    changes the working directory, however it goes on: it ends where it
    was launched and every subprocess starts there, the log command and
    the diff commands carrying the URL as their last argument.  It
    completes when the log command and every pass can be run. *)
Theorem subversion_stays_in_launch_directory
        (W : World) (repo : string) (rest : list string) (type url : string) (b : backend) :
  fst (fst (probe W (pepper_of W rest) repo (pwd0 W))) = Ok (type, url) ->
  diffcmd type = Some b ->
  passurl b = true ->
  let v := vars_of W repo rest type url b (pwd0 W) in
  exists r t,
    run W (repo :: rest) = (r, pwd0 W, t)
    /\ chdirs t = []
    /\ (forall dir cmd, In (dir, cmd) (popens t) -> dir = pwd0 W)
    /\ In (pwd0 W, "svn log -q " ++ url) (popens t)
    /\ (forall rs rev m,
           r = Ok rs ->
           In (rev, m) rs ->
           In (pwd0 W, "svn diff -c " ++ rev ++ " " ++ url) (popens t))
    /\ (log_ok W (pwd0 W) type url = true ->
        passes_ok W (pwd0 W) v (tmp_path W "diff") (v_log v) = true ->
        exists rs, r = Ok rs /\ map fst rs = map strip (v_log v)).
Proof.
  intros Hp Hb Hpass v. rewrite probe_value in Hp.
  pose proof (run_cases W repo rest) as C. cbv zeta in C. rewrite Hp, Hb in C.
  assert (Hd : work_dir W b (pwd0 W) url = Some (pwd0 W))
    by (unfold work_dir; now rewrite Hpass).
  rewrite Hd in C. fold v in C.
  assert (Ht : type = "subversion").
  { destruct (diffcmd_cases _ _ Hb) as [-> | [-> | ->]];
      injection Hb as <-; [reflexivity | discriminate Hpass | discriminate Hpass]. }
  set (tp := probe_events W (pepper_of W rest) repo (pwd0 W)) in *.
  assert (Hfull : forall t,
             (forall e, In e t -> In e (compare_all_events W (pwd0 W) v)) ->
             chdirs (tp ++ fetch_events b (pwd0 W) type url ++ t) = []
             /\ (forall dir cmd,
                    In (dir, cmd) (popens (tp ++ fetch_events b (pwd0 W) type url ++ t)) ->
                    dir = pwd0 W)
             /\ In (pwd0 W, "svn log -q " ++ url)
                   (popens (tp ++ fetch_events b (pwd0 W) type url ++ t))).
  { intros t Hin. split; [|split].
    - rewrite !chdirs_app. unfold fetch_events, chdir_events. rewrite Hpass.
      assert (Hc : chdirs t = []).
      { apply (nil_within _ t (compare_all_events W (pwd0 W) v) Hin).
        apply chdirs_compare_all. }
      rewrite Hc. reflexivity.
    - intros dir cmd H. rewrite !popens_app, popens_fetch_events in H.
      apply in_app_or in H as [[E | []] | H]; [now injection E as <- _|].
      destruct H as [E | H]; [now injection E as <- _|].
      apply (flat_map_within _ t (compare_all_events W (pwd0 W) v) Hin) in H.
      fold (popens (compare_all_events W (pwd0 W) v)) in H.
      rewrite popens_compare_all in H.
      apply in_flat_map in H as (x & _ & Hx). unfold rev_popens in Hx.
      destruct Hx as [E | [E | [E | []]]]; now injection E as <- _.
    - rewrite !popens_app, popens_fetch_events. apply in_or_app. right. left.
      subst type. reflexivity. }
  destruct (popen_error W (pwd0 W) (log_command type url) None) as [exn|] eqn:He.
  - exists (Stop (Raised exn)), (tp ++ fetch_events b (pwd0 W) type url ++ [])%list.
    destruct (Hfull [] (fun e H => match H with end)) as (H1 & H2 & H3).
    split; [now rewrite app_nil_r|]. split; [exact H1|]. split; [exact H2|].
    split; [exact H3|]. split; [discriminate|].
    intros Hl. unfold log_ok in Hl. rewrite He in Hl. discriminate.
  - exists (fst (all_run W (pwd0 W) v)),
           (tp ++ fetch_events b (pwd0 W) type url ++ snd (all_run W (pwd0 W) v))%list.
    destruct (Hfull _ (all_run_events W (pwd0 W) v)) as (H1 & H2 & H3).
    split; [exact C|]. split; [exact H1|]. split; [exact H2|]. split; [exact H3|]. split.
    + intros rs rev m Hr Hin. pose proof (all_run_inv W (pwd0 W) v rs Hr) as Hok.
      rewrite (all_run_ok W (pwd0 W) v Hok) in Hr |- *. cbn [fst snd] in *.
      injection Hr as <-. apply in_map_iff in Hin as (x & E & Hx). injection E as <- _.
      rewrite !popens_app, popens_compare_all. apply in_or_app. right.
      apply in_or_app. right. apply in_flat_map. exists x. split; [exact Hx|].
      unfold rev_popens. right. left. subst type. reflexivity.
    + intros _ Hok. rewrite (all_run_ok W (pwd0 W) v Hok). cbn [fst].
      eexists. split; [reflexivity | apply revisions_of_results].
Qed.

Section LoopReadings.

Variable W : World.

Lemma warnings_loop_events d v tmp revs :
  forall i, warnings (loop_events W d v tmp i revs)
            = map (fun r => "Warning: Diffstats for revision " ++ fst r
                            ++ " don't match! Check diff.pepper." ++ fst r
                            ++ " and diff.native." ++ fst r ++ chr nl)
                  (filter (fun r => negb (snd r)) (map (rev_result W d v tmp) revs)).
Proof.
  induction revs as [|x revs IH]; intros i; cbn [loop_events map]; [reflexivity|].
  rewrite warnings_app, IH. cbn [filter].
  unfold rev_events, report_events, rev_result at 1 2. cbn [snd fst].
  destruct (matches (candidate_output W d v tmp (strip x)) (reference_output W d v (strip x)));
    [reflexivity|].
  cbn [negb map warnings flat_map app fst snd]. rewrite warning_line. reflexivity.
Qed.

Lemma artifact_names_loop d v tmp revs :
  map fst (flat_map (fun x => rev_artifacts W d v tmp (strip x)) revs)
  = flat_map (fun r => [v_olddir v ++ "/diff.pepper." ++ fst r;
                        v_olddir v ++ "/diff.native." ++ fst r])
             (filter (fun r => negb (snd r)) (map (rev_result W d v tmp) revs)).
Proof.
  induction revs as [|x revs IH]; cbn [flat_map map]; [reflexivity|].
  rewrite map_app, IH. cbn [filter].
  unfold rev_artifacts, rev_result at 1 2. cbn [snd fst].
  destruct (matches (candidate_output W d v tmp (strip x)) (reference_output W d v (strip x)));
    reflexivity.
Qed.

Lemma length_flat_map_pair {A B : Type} (f g : A -> B) (l : list A) :
  List.length (flat_map (fun r => [f r; g r]) l) = 2 * List.length l.
Proof. induction l as [|a l IH]; simpl; [reflexivity | rewrite IH; lia]. Qed.

Lemma prints_rev_events d v tmp i rev :
  prints (rev_events W d v tmp i rev)
  = progress (i + 1) (List.length (v_log v))
      :: (if matches (candidate_output W d v tmp rev) (reference_output W d v rev)
          then [] else [chr nl]).
Proof.
  unfold rev_events, report_events.
  destruct (matches (candidate_output W d v tmp rev) (reference_output W d v rev));
    reflexivity.
Qed.

Lemma progress_loop_events d v tmp revs :
  forall i, filter (starts_with esc) (prints (loop_events W d v tmp i revs))
            = map (fun k => progress k (List.length (v_log v))) (seq (S i) (List.length revs)).
Proof.
  induction revs as [|x revs IH]; intros i; cbn [loop_events List.length seq map];
    [reflexivity|].
  rewrite prints_app, filter_app, IH, prints_rev_events.
  replace (i + 1) with (S i) by lia.
  cbn [filter].
  assert (Hp : starts_with esc (progress (S i) (List.length (v_log v))) = true)
    by reflexivity.
  rewrite Hp.
  destruct (matches (candidate_output W d v tmp (strip x)) (reference_output W d v (strip x)));
    reflexivity.
Qed.

End LoopReadings.

(** X4: in a completed run the warnings and the artifacts are those of
    the comparisons that found a difference, in the order of the log: for
    each, the line [Warning: Diffstats for revision <rev> don't match!
    Check diff.pepper.<rev> and diff.native.<rev>] on standard error, and
    the two files [diff.pepper.<rev>] and [diff.native.<rev>] in the
    launch directory, so twice as many files as mismatches. *)
Theorem warnings_and_artifacts_follow_results
        (W : World) (argv : list string) (rs : list (string * bool)) (d : string)
        (t : list event) :
  run W argv = (Ok rs, d, t) ->
  warnings t
  = map (fun r => "Warning: Diffstats for revision " ++ fst r
                  ++ " don't match! Check diff.pepper." ++ fst r
                  ++ " and diff.native." ++ fst r ++ chr nl)
        (filter (fun r => negb (snd r)) rs)
  /\ map fst (file_writes t)
     = flat_map (fun r => [pwd0 W ++ "/diff.pepper." ++ fst r;
                           pwd0 W ++ "/diff.native." ++ fst r])
                (filter (fun r => negb (snd r)) rs)
  /\ List.length (file_writes t) = 2 * List.length (filter (fun r => negb (snd r)) rs).
Proof.
  intros H.
  apply run_ok_inv in H as (repo & rest & type & url & b & _ & _ & _ & _ & _ & _ & -> & ->).
  set (v := vars_of W repo rest type url b d).
  assert (Hw : warnings (probe_events W (pepper_of W rest) repo (pwd0 W)
                         ++ fetch_events b d type url ++ compare_all_events W d v)
               = warnings (loop_events W d v (tmp_path W "diff") 0 (v_log v))).
  { unfold compare_all_events, fetch_events, chdir_events. rewrite !warnings_app.
    destruct (passurl b); simpl; now rewrite app_nil_r. }
  assert (Hf : file_writes (probe_events W (pepper_of W rest) repo (pwd0 W)
                            ++ fetch_events b d type url ++ compare_all_events W d v)
               = flat_map (fun x => rev_artifacts W d v (tmp_path W "diff") (strip x)) (v_log v)).
  { rewrite !file_writes_app, file_writes_compare_all, file_writes_fetch_events.
    reflexivity. }
  assert (Hn : map fst (file_writes (probe_events W (pepper_of W rest) repo (pwd0 W)
                                     ++ fetch_events b d type url ++ compare_all_events W d v))
               = flat_map (fun r => [pwd0 W ++ "/diff.pepper." ++ fst r;
                                     pwd0 W ++ "/diff.native." ++ fst r])
                          (filter (fun r => negb (snd r))
                                  (map (rev_result W d v (tmp_path W "diff")) (v_log v)))).
  { rewrite Hf. apply (artifact_names_loop W d v). }
  split; [|split].
  - rewrite Hw. apply warnings_loop_events.
  - exact Hn.
  - rewrite <- (length_map fst), Hn. apply length_flat_map_pair.
Qed.

(** X5: the progress indicator of a completed run counts the
    comparisons from 1 to their number: the texts on standard output that
    begin with the escape character are, in this order, the escape
    sequence [ESC [0K], a carriage return and
    [Comparing diffstats... i/total] for i = 1, ..., total, in decimal,
    with total the number of revisions compared. *)
Theorem progress_counts_every_revision
        (W : World) (argv : list string) (rs : list (string * bool)) (d : string)
        (t : list event) :
  run W argv = (Ok rs, d, t) ->
  filter (starts_with esc) (prints t)
  = map (fun i => chr esc ++ "[0K" ++ chr cr ++ "Comparing diffstats... "
                  ++ to_s i ++ "/" ++ to_s (List.length rs))
        (seq 1 (List.length rs)).
Proof.
  intros H.
  apply run_ok_inv in H as (repo & rest & type & url & b & _ & _ & _ & _ & _ & _ & -> & ->).
  set (v := vars_of W repo rest type url b d).
  rewrite length_map.
  change (map (fun i => chr esc ++ "[0K" ++ chr cr ++ "Comparing diffstats... "
                        ++ to_s i ++ "/" ++ to_s (List.length (v_log v)))
              (seq 1 (List.length (v_log v))))
    with (map (fun i => progress i (List.length (v_log v))) (seq 1 (List.length (v_log v)))).
  rewrite <- (progress_loop_events W d v (tmp_path W "diff") (v_log v) 0).
  unfold compare_all_events, fetch_events, chdir_events.
  rewrite !prints_app, !filter_app.
  destruct (passurl b); simpl; now rewrite app_nil_r.
Qed.

(** X6: every revision a completed run compares, whatever the backend,
    is free of line feeds and of white space at its ends ([strip] leaves
    it as it is), so the [-r] argument of the tool and the names of the
    artifacts never hold a line feed. *)
Theorem revisions_are_clean
        (W : World) (argv : list string) (rs : list (string * bool)) (d : string)
        (t : list event) :
  run W argv = (Ok rs, d, t) ->
  forall rev m, In (rev, m) rs -> strip rev = rev /\ no_nl rev = true.
Proof.
  intros H rev m Hin.
  apply run_ok_inv in H as (repo & rest & type & url & b & _ & _ & Hb & _ & _ & _ & -> & _).
  apply in_map_iff in Hin as (x & E & Hx). injection E as <- _.
  split; [apply strip_idempotent|].
  apply strip_line_no_nl.
  apply (enumerate_shape type b (log_output W d type url) x Hb). exact Hx.
Qed.

(** X7: on a Subversion repository every revision a completed run
    compares is a run of decimal digits and is not empty. *)
Theorem subversion_revisions_are_numbers
        (W : World) (repo : string) (rest : list string) (url : string)
        (rs : list (string * bool)) (d : string) (t : list event) :
  fst (fst (probe W (pepper_of W rest) repo (pwd0 W))) = Ok ("subversion", url) ->
  run W (repo :: rest) = (Ok rs, d, t) ->
  forall rev m, In (rev, m) rs -> rev <> "" /\ all_chars (accepts digit) rev = true.
Proof.
  intros Hp H rev m Hin. rewrite probe_value in Hp.
  apply run_ok_inv in H
    as (repo' & rest' & type & url' & b & E & Hp' & Hb & _ & _ & _ & -> & _).
  injection E as <- <-. rewrite Hp in Hp'. injection Hp' as <- <-.
  apply in_map_iff in Hin as (x & E & Hx). injection E as <- _.
  cbn [vars_of v_log] in Hx. rewrite (enumerate_lines "subversion" b _ Hb) in Hx.
  injection Hb as <-. cbn [logregex subversion_backend] in Hx.
  apply in_flat_map in Hx as (l & _ & Hx). unfold pattern_revision in Hx. simpl in Hx.
  destruct (svn_revision l) as [r|] eqn:Er; [|destruct Hx].
  destruct Hx as [<- | []].
  destruct (svn_revision_digits l r Er) as (Hne & Hd & Hs). rewrite Hs. auto.
Qed.


(** X8: what the Mercurial pattern takes from a log line.  When it
    matches, the line is a non-empty run of digits, a colon, the captured
    text, and then nothing or the final line feed; the captured text holds
    no line feed.  So the local revision number before the colon is never
    part of the revision. *)
Theorem mercurial_revision_follows_the_colon (x r : string) :
  nl_only_last x = true ->
  rmatch re_hg x = Some [r] ->
  exists ds rest,
    x = ds ++ ":" ++ r ++ rest
    /\ ds <> "" /\ all_chars (accepts digit) ds = true
    /\ no_nl r = true
    /\ (rest = "" \/ rest = chr nl).
Proof.
  intros Hx H. unfold re_hg in H. rewrite rmatch_anchored_line in H by exact Hx.
  fold re_hg in H. rewrite match_here_hg in H. unfold hg_revision in H.
  pose proof (span_after digit x) as Ex. pose proof (span_accepted digit x) as Hd.
  destruct (span digit x) as [|c0 ds] eqn:Es; [discriminate|].
  destruct (after digit x) as [|c s] eqn:Ea; [discriminate|].
  destruct (Ascii.eqb_spec c ":") as [->|]; [|discriminate].
  injection H as <-.
  exists (String c0 ds), (after CDot s). split; [|split; [discriminate|split; [exact Hd|split]]].
  - rewrite <- Ex at 1. simpl. now rewrite span_after.
  - apply no_nl_span_dot.
  - destruct (after_shape CDot s) as [E | (c & t & E & Hc)]; [now left|]. right.
    simpl in Hc. apply negb_false_iff, Ascii.eqb_eq in Hc. subst c.
    rewrite E. unfold chr. f_equal.
    assert (Es' : s = span CDot s ++ String nl t) by (rewrite <- E; now rewrite span_after).
    assert (Exx : x = (String c0 ds ++ ":" ++ span CDot s) ++ String nl t).
    { rewrite <- Ex, append_assoc. f_equal. simpl. f_equal. exact Es'. }
    rewrite Exx in Hx. now apply nl_only_last_app_nl in Hx.
Qed.

(** X17: what the Subversion pattern takes from a log line.  When it
    matches, the line is an [r], the captured text, and a rest that does
    not begin with a digit; the captured text is a run of digits and not
    empty.  So the revision is the whole number after the [r]. *)
Theorem subversion_revision_follows_the_r (x r : string) :
  nl_only_last x = true ->
  rmatch re_svn x = Some [r] ->
  exists rest,
    x = "r" ++ r ++ rest
    /\ r <> "" /\ all_chars (accepts digit) r = true
    /\ match rest with
       | "" => True
       | String c _ => accepts digit c = false
       end.
Proof.
  intros Hx H. unfold re_svn in H. rewrite rmatch_anchored_line in H by exact Hx.
  fold re_svn in H. rewrite match_here_svn in H.
  destruct (svn_revision x) as [r'|] eqn:E; [|discriminate].
  injection H as ->. destruct (svn_revision_digits x r E) as (Hne & Hd & _).
  unfold svn_revision in E. destruct x as [|c s]; [discriminate|].
  destruct (Ascii.eqb_spec c "r") as [->|]; [|discriminate].
  assert (Er : span digit s = r) by (destruct (span digit s); [discriminate | now injection E]).
  exists (after digit s). split; [|split; [exact Hne|split; [exact Hd|]]].
  - simpl. f_equal. rewrite <- Er. now rewrite span_after.
  - destruct (after_shape digit s) as [-> | (c & t & -> & Hc)]; [exact I | exact Hc].
Qed.

(** X9: on a URL without line feed (every probed URL is one) the
    [file://] rewrite is idempotent, and for Subversion its result never
    begins with a slash. *)
Theorem normalize_url_idempotent (type url : string) :
  no_nl url = true ->
  normalize_url type (normalize_url type url) = normalize_url type url
  /\ (type = "subversion" -> starts_with "/" (normalize_url type url) = false).
Proof.
  intros Hn. unfold normalize_url at 2 3 4. rewrite (slash_match url Hn).
  destruct (type =? "subversion") eqn:Et; cbn [andb].
  - destruct (starts_with "/" url) eqn:Es.
    + split; [|reflexivity]. unfold normalize_url. rewrite Et, slash_match; [reflexivity|].
      simpl. exact Hn.
    + split; [|intros _; exact Es]. unfold normalize_url. now rewrite Et, (slash_match url Hn), Es.
  - split.
    + unfold normalize_url. now rewrite Et.
    + intros ->. discriminate.
Qed.


(** X10: what a pass through the loop feeds its three subprocesses.
    The tool under test and the native diff command get no input; the
    diffstat formatter gets the native diff output as it was printed,
    completed by a line feed when it does not end with one (and what
    [puts] writes for an empty array when the diff printed nothing).  A
    pass that stops at a subprocess has fed the ones before it in the
    same way. *)
Theorem diffstat_reads_the_native_diff
        (W : World) (v : vars) (tmp : string) (i : nat) (x d : string) (b : backend) :
  diffcmd (v_type v) = Some b ->
  let fed :=
    [(pepper_command (v_pepper v) tmp (strip x) (v_repo v), None);
     (single_diff_command (v_type v) (strip x) (v_url v), None);
     (diffstat_command (v_type v),
      Some (match native_diff W d v (strip x) with
            | "" => puts_empty W
            | out => if ends_with_nl out then out else out ++ chr nl
            end))] in
  (subprocesses_run W d v tmp (strip x) = true ->
   inputs (snd (compare_rev W v tmp i x d)) = fed)
  /\ exists k, inputs (snd (compare_rev W v tmp i x d)) = firstn k fed.
Proof.
  intros Hb fed.
  assert (Hfed : fed
                 = [(pepper_command (v_pepper v) tmp (strip x) (v_repo v), None);
                    (single_diff_command (v_type v) (strip x) (v_url v), None);
                    (diffstat_command (v_type v),
                     Some (puts_array (puts_empty W)
                                      (readlines (native_diff W d v (strip x)))))]).
  { unfold fed. repeat f_equal.
    destruct (native_diff W d v (strip x)) as [|c s] eqn:E; [reflexivity|].
    rewrite puts_array_readlines by discriminate. reflexivity. }
  rewrite Hfed. clear Hfed fed.
  assert (Hin : inputs (rev_events W d v tmp i (strip x))
                = [(pepper_command (v_pepper v) tmp (strip x) (v_repo v), None);
                   (single_diff_command (v_type v) (strip x) (v_url v), None);
                   (diffstat_command (v_type v),
                    Some (puts_array (puts_empty W) (readlines (native_diff W d v (strip x)))))]).
  { unfold rev_events, report_events.
    destruct (matches (candidate_output W d v tmp (strip x)) (reference_output W d v (strip x)));
      reflexivity. }
  rewrite (compare_rev_run W v tmp i x d b Hb). split.
  - intros Hs. destruct (pass_fault W d v tmp (strip x)) as [[exn k]|] eqn:Ef; cbn [snd].
    + destruct (artifact_fault W d v tmp i (strip x) exn k Hs Ef)
        as [_ [[_ ->] | (_ & _ & ->)]]; reflexivity.
    + exact Hin.
  - unfold pass_fault.
    destruct (popen_error W d (pepper_command (v_pepper v) tmp (strip x) (v_repo v)) None);
      [exists 1; reflexivity|].
    destruct (popen_error W d (single_diff_command (v_type v) (strip x) (v_url v)) None);
      [exists 2; reflexivity|].
    destruct (popen_error W d (diffstat_command (v_type v))
                          (Some (puts_array (puts_empty W)
                                            (readlines (native_diff W d v (strip x))))));
      [exists 3; reflexivity|].
    exists 3.
    destruct (matches (candidate_output W d v tmp (strip x)) (reference_output W d v (strip x)))
      eqn:Em; [exact Hin|].
    destruct (file_error W (pepper_artifact (v_olddir v) (strip x))
                         (candidate_output W d v tmp (strip x))); [reflexivity|].
    destruct (file_error W (native_artifact (v_olddir v) (strip x))
                         (reference_output W d v (strip x))); [|exact Hin].
    cbn [snd]. unfold rev_events, report_events. rewrite Em. reflexivity.
Qed.

Section StatusesIgnored.

Variables W1 W2 : World.
Variables pepper repo : string.
Hypothesis Hso : same_outputs W1 W2 pepper repo.

Lemma so_probe_result (d : string) :
  probe_result W1 pepper repo d = probe_result W2 pepper repo d.
Proof.
  unfold probe_result.
  pose proof (so_stdout _ _ _ _ Hso d (probe_command pepper (tmp_path W1 "type") repo) None) as H1.
  pose proof (so_probe _ _ _ _ Hso d) as H2.
  rewrite <- (so_tmp _ _ _ _ Hso "type") in H2 |- *.
  rewrite (so_error _ _ _ _ Hso).
  destruct (popen_error W2 d (probe_command pepper (tmp_path W1 "type") repo) None);
    [reflexivity|].
  destruct (popen W1 d (probe_command pepper (tmp_path W1 "type") repo) None) as [o1 s1].
  destruct (popen W2 d (probe_command pepper (tmp_path W1 "type") repo) None) as [o2 s2].
  simpl in H1, H2. now subst.
Qed.

Lemma so_candidate d v tmp rev :
  candidate_output W1 d v tmp rev = candidate_output W2 d v tmp rev.
Proof. apply (so_stdout _ _ _ _ Hso). Qed.

Lemma so_native d v rev : native_diff W1 d v rev = native_diff W2 d v rev.
Proof. apply (so_stdout _ _ _ _ Hso). Qed.

Lemma so_reference d v rev : reference_output W1 d v rev = reference_output W2 d v rev.
Proof.
  unfold reference_output. rewrite so_native, (so_ruby _ _ _ _ Hso).
  apply (so_stdout _ _ _ _ Hso).
Qed.

Lemma so_rev_events d v tmp i rev :
  rev_events W1 d v tmp i rev = rev_events W2 d v tmp i rev.
Proof.
  unfold rev_events. now rewrite so_native, (so_ruby _ _ _ _ Hso), so_candidate, so_reference.
Qed.

Lemma so_rev_result d v tmp x : rev_result W1 d v tmp x = rev_result W2 d v tmp x.
Proof. unfold rev_result. now rewrite so_candidate, so_reference. Qed.

Lemma so_pass_fault d v tmp rev : pass_fault W1 d v tmp rev = pass_fault W2 d v tmp rev.
Proof.
  unfold pass_fault.
  rewrite so_native, (so_ruby _ _ _ _ Hso), so_candidate, so_reference.
  now rewrite !(so_error _ _ _ _ Hso), !(so_files _ _ _ _ Hso).
Qed.

Lemma so_loop_run d v tmp revs :
  forall i, loop_run W1 d v tmp i revs = loop_run W2 d v tmp i revs.
Proof.
  induction revs as [|x revs IH]; intros i; cbn [loop_run]; [reflexivity|].
  now rewrite so_pass_fault, so_rev_events, so_rev_result, IH.
Qed.

Lemma so_all_run d v : all_run W1 d v = all_run W2 d v.
Proof.
  unfold all_run. now rewrite (so_tmp _ _ _ _ Hso), so_loop_run.
Qed.

End StatusesIgnored.

(** X11: the wait status of a subprocess other than the probe is never
    looked at.  Two environments that agree on everything but those
    statuses (in particular on every standard output, on what can be run
    and written, and on the status of the probe) give the same run: the
    same end, the same results, the same final directory and the same
    events. *)
Theorem helper_statuses_are_ignored
        (W1 W2 : World) (repo : string) (rest : list string) :
  pepper_of W1 rest = pepper_of W2 rest ->
  same_outputs W1 W2 (pepper_of W1 rest) repo ->
  run W1 (repo :: rest) = run W2 (repo :: rest).
Proof.
  intros Hpep Hso.
  pose proof (run_cases W1 repo rest) as C1. pose proof (run_cases W2 repo rest) as C2.
  cbv zeta in C1, C2.
  pose proof (so_pwd _ _ _ _ Hso) as Epwd. pose proof (so_tmp _ _ _ _ Hso) as Etmp.
  rewrite <- Hpep, <- Epwd in C2.
  rewrite <- (so_probe_result W1 W2 _ _ Hso) in C2.
  assert (Ep : probe_events W2 (pepper_of W1 rest) repo (pwd0 W1)
               = probe_events W1 (pepper_of W1 rest) repo (pwd0 W1)).
  { unfold probe_events. now rewrite Etmp. }
  rewrite Ep in C2.
  destruct (probe_result W1 (pepper_of W1 rest) repo (pwd0 W1)) as [[type url]|o].
  - destruct (diffcmd type) as [b|].
    + assert (Ewd : work_dir W2 b (pwd0 W1) url = work_dir W1 b (pwd0 W1) url).
      { unfold work_dir. destruct (passurl b); [reflexivity|].
        symmetry. apply (so_chdir _ _ _ _ Hso). }
      rewrite Ewd in C2.
      destruct (work_dir W1 b (pwd0 W1) url) as [d|].
      * rewrite <- (so_error _ _ _ _ Hso) in C2.
        assert (Ev : vars_of W2 repo rest type url b d = vars_of W1 repo rest type url b d).
        { unfold vars_of, log_output. rewrite <- Hpep, <- Epwd.
          now rewrite (so_stdout _ _ _ _ Hso). }
        rewrite Ev in C2. rewrite <- (so_all_run W1 W2 _ _ Hso) in C2.
        destruct (popen_error W1 d (log_command type url) None); now rewrite C1, C2.
      * now rewrite C1, C2.
    + now rewrite C1, C2.
  - now rewrite C1, C2.
Qed.

(** X18: the subprocesses of a run.  Whatever the environment answers
    and however the run ends, it calls [IO.popen] for nothing but the
    probe and, with the backend type and the URL the probe gave, the log
    command of that backend and, for revisions of the log, the tool under
    test, the single-revision diff command of that backend and diffstat
    with the strip level of that backend. *)
Theorem run_starts_only_known_commands
        (W : World) (repo : string) (rest : list string) (dir cmd : string) :
  In (dir, cmd) (popens (run_trace W (repo :: rest))) ->
  cmd = pepper_of W rest ++ " -q " ++ tmp_path W "type" ++ " " ++ repo
  \/ exists type url,
      fst (fst (probe W (pepper_of W rest) repo (pwd0 W))) = Ok (type, url)
      /\ (type = "subversion" \/ type = "git" \/ type = "mercurial")
      /\ (cmd = log_command type url
          \/ exists revs x,
              fst (fst (fetch_log W type url (pwd0 W))) = Ok (pwd0 W, revs)
              /\ In x revs
              /\ (cmd = pepper_of W rest ++ " --no-cache -q " ++ tmp_path W "diff"
                        ++ " -r" ++ strip x ++ " " ++ repo
                  \/ cmd = single_diff_command type (strip x) url
                  \/ cmd = "diffstat -t -p" ++ (if type =? "subversion" then "0" else "1"))).
Proof.
  pose proof (run_cases W repo rest) as C. cbv zeta in C. unfold run_trace.
  assert (Hprobe : forall t,
             t = probe_events W (pepper_of W rest) repo (pwd0 W) ->
             In (dir, cmd) (popens t) ->
             cmd = pepper_of W rest ++ " -q " ++ tmp_path W "type" ++ " " ++ repo).
  { intros t -> [E | []]. now injection E as _ <-. }
  destruct (probe_result W (pepper_of W rest) repo (pwd0 W)) as [[type url]|o] eqn:P.
  - destruct (diffcmd type) as [b|] eqn:Hb.
    + destruct (work_dir W b (pwd0 W) url) as [d|] eqn:Hd.
      * assert (Hlog : In (dir, cmd) (popens (fetch_events b d type url)) ->
                       cmd = log_command type url).
        { rewrite popens_fetch_events. intros [E | []]. now injection E as _ <-. }
        pose proof (fetch_log_run W type url (pwd0 W) b d Hb Hd) as Hf.
        destruct (popen_error W d (log_command type url) None) as [exn|] eqn:He.
        -- rewrite C. cbn [snd]. rewrite popens_app. intros Hin.
           apply in_app_or in Hin as [Hin | Hin]; [left; now apply (Hprobe _ eq_refl)|].
           right. exists type, url. rewrite probe_value.
           split; [exact P|]. split; [exact (diffcmd_cases _ _ Hb)|]. left. auto.
        -- rewrite C. cbn [snd]. rewrite !popens_app. intros Hin.
           apply in_app_or in Hin as [Hin | Hin]; [left; now apply (Hprobe _ eq_refl)|].
           right. exists type, url. rewrite probe_value.
           split; [exact P|]. split; [exact (diffcmd_cases _ _ Hb)|].
           apply in_app_or in Hin as [Hin | Hin]; [left; auto|]. right.
           apply (flat_map_within _ _ _ (all_run_events W d _)) in Hin.
           fold (popens (compare_all_events W d (vars_of W repo rest type url b d))) in Hin.
           rewrite popens_compare_all in Hin.
           apply in_flat_map in Hin as (x & Hx & Hin).
           exists (enumerate b (log_output W d type url)), x.
           split; [now rewrite Hf|]. split; [exact Hx|].
           unfold rev_popens in Hin. cbn [vars_of v_pepper v_repo v_type v_url] in Hin.
           destruct Hin as [E | [E | [E | []]]]; injection E as _ <-; auto.
      * rewrite C. cbn [snd]. rewrite popens_app. intros Hin.
        apply in_app_or in Hin as [Hin | []]. left. now apply (Hprobe _ eq_refl).
    + rewrite C. cbn [snd]. intros Hin. left. now apply (Hprobe _ eq_refl).
  - rewrite C. cbn [snd]. intros Hin. left. now apply (Hprobe _ eq_refl).
Qed.


(** ** The further properties on concrete runs *)

Lemma exit_zero_only_after_all_compared_witness :
  run_status svn_mismatch ["repo"] = 0%Z
  /\ exists repo rest type url b d revs rs,
      ["repo"] = repo :: rest
      /\ diffcmd type = Some b
      /\ work_dir svn_mismatch b (pwd0 svn_mismatch) url = Some d
      /\ fst (fst (fetch_log svn_mismatch type url (pwd0 svn_mismatch)))
         = Ok (pwd0 svn_mismatch, revs)
      /\ run_result svn_mismatch ["repo"] = Ok rs
      /\ map fst rs = map strip revs.
Proof.
  assert (H : run_status svn_mismatch ["repo"] = 0%Z) by reflexivity.
  split; [exact H|].
  destruct (proj2 (exit_zero_only_after_all_compared svn_mismatch ["repo"]) H)
    as (repo & rest & type & url & b & d & revs & rs & E & _ & Hb & Hd & Hf & Hr & Hm & _).
  exists repo, rest, type, url, b, d, revs, rs. repeat split; assumption.
Defined.

Lemma failed_setup_compares_nothing_witness :
  ~ (exists repo rest type url b d,
        ["/srv/gone"] = repo :: rest
        /\ fst (fst (probe git_no_directory (pepper_of git_no_directory rest) repo
                           (pwd0 git_no_directory))) = Ok (type, url)
        /\ diffcmd type = Some b
        /\ work_dir git_no_directory b (pwd0 git_no_directory) url = Some d)
  /\ run_result git_no_directory ["/srv/gone"] = Stop (Raised "Errno::ENOENT")
  /\ run_status git_no_directory ["/srv/gone"] = 1%Z
  /\ List.length (popens (run_trace git_no_directory ["/srv/gone"])) <= 1
  /\ file_writes (run_trace git_no_directory ["/srv/gone"]) = [].
Proof.
  assert (H : ~ (exists repo rest type url b d,
                    ["/srv/gone"] = repo :: rest
                    /\ fst (fst (probe git_no_directory (pepper_of git_no_directory rest) repo
                                       (pwd0 git_no_directory))) = Ok (type, url)
                    /\ diffcmd type = Some b
                    /\ work_dir git_no_directory b (pwd0 git_no_directory) url = Some d)).
  { intros (repo & rest & type & url & b & d & E & Hp & Hb & Hd).
    injection E as <- <-. vm_compute in Hp. injection Hp as <- <-.
    vm_compute in Hb. injection Hb as <-. vm_compute in Hd. discriminate Hd. }
  split; [exact H|]. split; [reflexivity|].
  destruct (failed_setup_compares_nothing git_no_directory ["/srv/gone"] H)
    as (Hst & Hlen & _ & Hfw & _).
  split; [exact Hst|]. split; [exact Hlen | exact Hfw].
Defined.

Lemma subversion_stays_in_launch_directory_witness :
  fst (fst (probe svn_mismatch (pepper_of svn_mismatch []) "repo" (pwd0 svn_mismatch)))
  = Ok ("subversion", "file:///srv/repo")
  /\ diffcmd "subversion" = Some subversion_backend
  /\ passurl subversion_backend = true
  /\ exists r t,
      run svn_mismatch ["repo"] = (r, "/home/dev", t)
      /\ chdirs t = []
      /\ In ("/home/dev", "svn log -q file:///srv/repo") (popens t)
      /\ exists rs, r = Ok rs /\ map fst rs = ["42"; "41"].
Proof.
  do 3 (split; [reflexivity|]).
  destruct (subversion_stays_in_launch_directory
              svn_mismatch "repo" [] "subversion" "file:///srv/repo" subversion_backend
              eq_refl eq_refl eq_refl)
    as (r & t & Hrun & Hcd & _ & Hlog & _ & Hdone).
  exists r, t. split; [exact Hrun|]. split; [exact Hcd|]. split; [exact Hlog|].
  exact (Hdone eq_refl eq_refl).
Defined.

Lemma warnings_and_artifacts_follow_results_witness :
  exists rs d t,
    run svn_mismatch ["repo"] = (Ok rs, d, t)
    /\ filter (fun r => negb (snd r)) rs = [("42", false); ("41", false)]
    /\ warnings t
       = map (fun r => "Warning: Diffstats for revision " ++ fst r
                       ++ " don't match! Check diff.pepper." ++ fst r
                       ++ " and diff.native." ++ fst r ++ chr nl)
             (filter (fun r => negb (snd r)) rs)
    /\ map fst (file_writes t)
       = ["/home/dev/diff.pepper.42"; "/home/dev/diff.native.42";
          "/home/dev/diff.pepper.41"; "/home/dev/diff.native.41"].
Proof.
  eexists _, _, _. split; [reflexivity|]. split; [reflexivity|].
  destruct (warnings_and_artifacts_follow_results svn_mismatch ["repo"] _ _ _ eq_refl)
    as (Hw & Hf & _).
  split; [exact Hw | exact Hf].
Defined.

Lemma progress_counts_every_revision_witness :
  exists rs d t,
    run git_three_commits ["/srv/project"] = (Ok rs, d, t)
    /\ List.length rs = 3
    /\ filter (starts_with esc) (prints t)
       = [chr esc ++ "[0K" ++ chr cr ++ "Comparing diffstats... 1/3";
          chr esc ++ "[0K" ++ chr cr ++ "Comparing diffstats... 2/3";
          chr esc ++ "[0K" ++ chr cr ++ "Comparing diffstats... 3/3"].
Proof.
  eexists _, _, _. split; [reflexivity|]. split; [reflexivity|].
  exact (progress_counts_every_revision git_three_commits ["/srv/project"] _ _ _ eq_refl).
Defined.

Lemma diffstat_reads_the_native_diff_witness :
  diffcmd "mercurial" = Some mercurial_backend
  /\ native_diff (hg_repo "/tmp") "/srv/hg"
                 {| v_pepper := "pepper"; v_repo := "repo"; v_type := "mercurial";
                    v_url := "/srv/hg"; v_olddir := "/home/dev"; v_log := [] |}
                 "abc123def" = line "diff"
  /\ subprocesses_run (hg_repo "/tmp") "/srv/hg"
                      {| v_pepper := "pepper"; v_repo := "repo"; v_type := "mercurial";
                         v_url := "/srv/hg"; v_olddir := "/home/dev"; v_log := [] |}
                      "/tmp/diff" (strip (line "abc123def")) = true
  /\ inputs (snd (compare_rev (hg_repo "/tmp")
                              {| v_pepper := "pepper"; v_repo := "repo"; v_type := "mercurial";
                                 v_url := "/srv/hg"; v_olddir := "/home/dev"; v_log := [] |}
                              "/tmp/diff" 0 (line "abc123def") "/srv/hg"))
     = [("pepper --no-cache -q /tmp/diff -rabc123def repo", None);
        ("hg diff -c abc123def", None);
        ("diffstat -t -p1", Some (line "diff"))].
Proof.
  do 3 (split; [reflexivity|]).
  exact (proj1 (diffstat_reads_the_native_diff
                  (hg_repo "/tmp")
                  {| v_pepper := "pepper"; v_repo := "repo"; v_type := "mercurial";
                     v_url := "/srv/hg"; v_olddir := "/home/dev"; v_log := [] |}
                  "/tmp/diff" 0 (line "abc123def") "/srv/hg" mercurial_backend eq_refl)
               eq_refl).
Defined.

Lemma helper_statuses_are_ignored_witness :
  pepper_of git_three_commits [] = pepper_of git_failing_helpers []
  /\ same_outputs git_three_commits git_failing_helpers (pepper_of git_three_commits [])
                  "/srv/project"
  /\ snd (popen git_three_commits "/srv/project" "git rev-list HEAD" None)
     <> snd (popen git_failing_helpers "/srv/project" "git rev-list HEAD" None)
  /\ run git_three_commits ["/srv/project"] = run git_failing_helpers ["/srv/project"].
Proof.
  assert (Hso : same_outputs git_three_commits git_failing_helpers "pepper" "/srv/project").
  { constructor; try (intros; reflexivity).
    intros d cmd input. simpl. repeat destruct (prefix _ cmd); reflexivity. }
  split; [reflexivity|]. split; [exact Hso|]. split; [vm_compute; discriminate|].
  exact (helper_statuses_are_ignored git_three_commits git_failing_helpers "/srv/project" []
                                     eq_refl Hso).
Defined.

Lemma run_starts_only_known_commands_witness :
  In ("/srv/hg", "hg diff -c a/b") (popens (run_trace hg_slash ["repo"]))
  /\ ("hg diff -c a/b" = "pepper -q /tmp/type repo"
      \/ exists type url,
          fst (fst (probe hg_slash (pepper_of hg_slash []) "repo" (pwd0 hg_slash)))
          = Ok (type, url)
          /\ (type = "subversion" \/ type = "git" \/ type = "mercurial")
          /\ ("hg diff -c a/b" = log_command type url
              \/ exists revs x,
                  fst (fst (fetch_log hg_slash type url (pwd0 hg_slash)))
                  = Ok (pwd0 hg_slash, revs)
                  /\ In x revs
                  /\ ("hg diff -c a/b"
                      = pepper_of hg_slash [] ++ " --no-cache -q " ++ tmp_path hg_slash "diff"
                        ++ " -r" ++ strip x ++ " " ++ "repo"
                      \/ "hg diff -c a/b" = single_diff_command type (strip x) url
                      \/ "hg diff -c a/b"
                         = "diffstat -t -p" ++ (if type =? "subversion" then "0" else "1")))).
Proof.
  assert (H : In ("/srv/hg", "hg diff -c a/b") (popens (run_trace hg_slash ["repo"]))).
  { vm_compute. right. right. right. left. reflexivity. }
  split; [exact H|].
  exact (run_starts_only_known_commands hg_slash "repo" [] "/srv/hg" "hg diff -c a/b" H).
Defined.

Lemma revisions_are_clean_witness :
  exists rs d t,
    run git_blank_line ["/srv/project"] = (Ok rs, d, t)
    /\ In ("", true) rs
    /\ (forall rev m, In (rev, m) rs -> strip rev = rev /\ no_nl rev = true).
Proof.
  eexists _, _, _. split; [reflexivity|]. split; [right; left; reflexivity|].
  exact (revisions_are_clean git_blank_line ["/srv/project"] _ _ _ eq_refl).
Defined.


Lemma subversion_revisions_are_numbers_witness :
  fst (fst (probe svn_mismatch (pepper_of svn_mismatch []) "repo" (pwd0 svn_mismatch)))
  = Ok ("subversion", "file:///srv/repo")
  /\ exists rs d t,
      run svn_mismatch ["repo"] = (Ok rs, d, t)
      /\ map fst rs = ["42"; "41"]
      /\ (forall rev m, In (rev, m) rs ->
                        rev <> "" /\ all_chars (accepts digit) rev = true).
Proof.
  split; [reflexivity|].
  eexists _, _, _. split; [reflexivity|]. split; [reflexivity|].
  exact (subversion_revisions_are_numbers svn_mismatch "repo" [] "file:///srv/repo"
                                          _ _ _ eq_refl eq_refl).
Defined.


Lemma mercurial_revision_follows_the_colon_witness :
  nl_only_last (line "5:abc123def") = true
  /\ rmatch re_hg (line "5:abc123def") = Some ["abc123def"]
  /\ exists ds rest,
      line "5:abc123def" = ds ++ ":" ++ "abc123def" ++ rest
      /\ ds <> "" /\ all_chars (accepts digit) ds = true
      /\ no_nl "abc123def" = true
      /\ (rest = "" \/ rest = chr nl).
Proof.
  split; [reflexivity|]. split; [reflexivity|].
  exact (mercurial_revision_follows_the_colon (line "5:abc123def") "abc123def"
                                              eq_refl eq_refl).
Defined.


Lemma subversion_revision_follows_the_r_witness :
  nl_only_last (line "r1234 | alice | 2011-03-04") = true
  /\ rmatch re_svn (line "r1234 | alice | 2011-03-04") = Some ["1234"]
  /\ exists rest,
      line "r1234 | alice | 2011-03-04" = "r" ++ "1234" ++ rest
      /\ "1234" <> "" /\ all_chars (accepts digit) "1234" = true
      /\ match rest with
         | "" => True
         | String c _ => accepts digit c = false
         end.
Proof.
  split; [reflexivity|]. split; [reflexivity|].
  exact (subversion_revision_follows_the_r (line "r1234 | alice | 2011-03-04") "1234"
                                           eq_refl eq_refl).
Defined.


(** With a line feed inside, the rewrite is not idempotent: the
    condition of X9 is needed. *)
Example normalize_url_twice_with_line_feed :
  normalize_url "subversion" (normalize_url "subversion" ("a" ++ chr nl ++ "/b"))
  <> normalize_url "subversion" ("a" ++ chr nl ++ "/b").
Proof. vm_compute. discriminate. Qed.


Lemma normalize_url_idempotent_witness :
  no_nl "/srv/repo" = true
  /\ normalize_url "subversion" (normalize_url "subversion" "/srv/repo")
     = normalize_url "subversion" "/srv/repo"
  /\ normalize_url "subversion" "/srv/repo" = "file:///srv/repo".
Proof.
  split; [reflexivity|]. split; [|reflexivity].
  exact (proj1 (normalize_url_idempotent "subversion" "/srv/repo" eq_refl)).
Defined.


(** * Properties of the gnuplot binding *)

Import Plot.

Section PlotFacts.

Lemma find_last_of_none (c : ascii) (s : string) :
  find_last_of c s = None <-> all_chars (fun c' => negb (Ascii.eqb c' c)) s = true.
Proof.
  induction s as [|c' s IH]; simpl; [tauto|].
  destruct (find_last_of c s) as [pos|].
  - split; [discriminate|]. intros H. apply andb_true_iff in H as [_ H].
    apply IH in H. discriminate.
  - destruct (Ascii.eqb c' c); simpl; [split; discriminate|].
    split; intros _; [now apply IH | reflexivity].
Qed.

(** The position [find_last_of] gives splits the text at its last [c]. *)
Lemma find_last_of_some (c : ascii) (s : string) (pos : nat) :
  find_last_of c s = Some pos ->
  exists before rest,
    s = before ++ String c rest
    /\ String.length before = pos
    /\ all_chars (fun c' => negb (Ascii.eqb c' c)) rest = true.
Proof.
  revert pos. induction s as [|c' s IH]; intros pos; simpl; [discriminate|].
  destruct (find_last_of c s) as [p|] eqn:E.
  - intros H. injection H as <-. destruct (IH p eq_refl) as (before & rest & -> & <- & Hr).
    exists (String c' before), rest. repeat split. exact Hr.
  - destruct (Ascii.eqb_spec c' c) as [->|]; [|discriminate].
    intros H. injection H as <-. exists "", s. repeat split. now apply find_last_of_none.
Qed.

Lemma substr_after (before : string) (c : ascii) (rest : string) :
  substr (String.length before + 1) (before ++ String c rest) = Some rest.
Proof. induction before as [|c' before IH]; simpl; [reflexivity | exact IH]. Qed.

Lemma no_dot_all_chars (s : string) :
  no_dot s = all_chars (fun c' => negb (Ascii.eqb c' ".")) s.
Proof. induction s as [|c s IH]; simpl; [reflexivity | now rewrite IH]. Qed.

Lemma find_last_of_app (c : ascii) (before rest : string) :
  all_chars (fun c' => negb (Ascii.eqb c' c)) rest = true ->
  find_last_of c (before ++ String c rest) = Some (String.length before).
Proof.
  intros Hr. induction before as [|c' before IH]; simpl.
  - apply find_last_of_none in Hr. rewrite Hr. now rewrite Ascii.eqb_refl.
  - now rewrite IH.
Qed.

(** Lines 106-117 in words: [choose_terminal] never fails, and gives
    the argument when it is not empty, else the text after the last dot
    of the file name when there is such a text, else the standard
    terminal. *)
Lemma choose_terminal_cases (standard file terminal : string) :
  exists t,
    choose_terminal standard file terminal = Some t
    /\ (t = terminal /\ terminal <> ""
        \/ t = standard
        \/ t <> "" /\ no_dot t = true /\ exists stem, file = stem ++ "." ++ t).
Proof.
  unfold choose_terminal. destruct (String.eqb_spec terminal "") as [->|Hne].
  - destruct (find_last_of "." file) as [pos|] eqn:E.
    + destruct (find_last_of_some "." file pos E) as (before & rest & -> & <- & Hr).
      rewrite substr_after. destruct (String.eqb_spec rest "") as [->|Hrest].
      * exists standard. auto.
      * exists rest. split; [reflexivity|]. right. right.
        split; [exact Hrest|]. split; [now rewrite no_dot_all_chars|]. now exists before.
    + exists standard. auto.
  - exists terminal. auto.
Qed.

Lemma alias_known (t : string) :
  t <> "" -> alias t <> "" /\ alias t <> "ps" /\ alias t <> "eps" /\ alias t <> "jpg".
Proof.
  intros Ht. unfold alias.
  destruct (String.eqb_spec t "ps"); [repeat split; discriminate|].
  destruct (String.eqb_spec t "eps"); [repeat split; discriminate|].
  destruct (String.eqb_spec t "jpg"); [repeat split; discriminate|].
  simpl. auto.
Qed.

Lemma clauses_join (source : nat -> string) (titles : list string) (style : option string)
      (nseries : nat) :
  forall todo i,
    i + todo = nseries ->
    clauses source titles style nseries i todo
    = String.concat ", " (map (clause source titles style) (seq i todo)).
Proof.
  induction todo as [|todo IH]; intros i Hi; [reflexivity|].
  cbn [clauses]. rewrite (IH (S i)) by lia.
  destruct todo as [|todo].
  - replace (i <? nseries - 1)%nat with false by (symmetry; apply Nat.ltb_ge; lia).
    cbn [seq map String.concat append].
    change (clause source titles style i) with (source i ++ decoration titles style i).
    now rewrite append_nil_r.
  - replace (i <? nseries - 1)%nat with true by (symmetry; apply Nat.ltb_lt; lia).
    cbn [seq map String.concat].
    change (clause source titles style i) with (source i ++ decoration titles style i).
    now rewrite append_assoc.
Qed.

End PlotFacts.

(** X12: called with one to four arguments, [set_output] sends gnuplot
    two commands, [set output] and then [set terminal]; with the standard
    terminal being [svg] or [x11] (the two the constructor sets) the
    terminal it names is never empty and never one of the short names
    [ps], [eps], [jpg], which are replaced; [substr] never throws. *)
Theorem set_output_names_a_known_terminal
        (strprintf : string -> list parg -> string) (standard : string) (a : output_args) :
  standard = "svg" \/ standard = "x11" ->
  exists terminal,
    terminal_of standard a = Some terminal
    /\ terminal <> "" /\ terminal <> "ps" /\ terminal <> "eps" /\ terminal <> "jpg"
    /\ set_output strprintf standard a
       = Some [if negb (file_of a =? "")
               then strprintf ("set output " ++ dq ++ "%s" ++ dq) [PStr (file_of a)]
               else strprintf "set output" [];
               strprintf "set terminal %s size %d,%d"
                         [PStr terminal; PInt (width_of a); PInt (height_of a)]].
Proof.
  intros Hs. unfold set_output, terminal_of.
  destruct (choose_terminal_cases standard (file_of a) (terminal_arg a)) as (t & -> & Ht).
  exists (alias t). cbn [option_map].
  assert (Hne : t <> "").
  { destruct Ht as [[-> H] | [-> | [H _]]]; try exact H.
    destruct Hs as [-> | ->]; discriminate. }
  destruct (alias_known t Hne) as (H1 & H2 & H3 & H4).
  repeat split; assumption.
Qed.

(** X13: the extension decides the terminal.  When no terminal is
    given, a file name [stem.ext] whose [ext] holds no dot gives [ext] as
    terminal (the standard terminal when [ext] is empty), and a file name
    without any dot gives the standard terminal. *)
Theorem extension_decides_the_terminal (standard stem ext file : string) :
  (no_dot ext = true ->
   choose_terminal standard (stem ++ "." ++ ext) ""
   = Some (if ext =? "" then standard else ext))
  /\ (no_dot file = true -> choose_terminal standard file "" = Some standard).
Proof.
  split.
  - intros Hd. unfold choose_terminal. cbn [String.eqb].
    rewrite no_dot_all_chars in Hd.
    change (stem ++ "." ++ ext) with (stem ++ String "." ext).
    rewrite (find_last_of_app "." stem ext Hd). now rewrite substr_after.
  - intros Hd. unfold choose_terminal. cbn [String.eqb].
    rewrite no_dot_all_chars in Hd. apply find_last_of_none in Hd. now rewrite Hd.
Qed.

(** X14: the [plot] command is the clauses of the series joined by
    [", "], one clause per series in order and no separator after the
    last: for [plot_series] (without the [command] option),
    [plot_multi_series] and [plot_histogram]; with no series it is the
    bare [plot ].  With the [command] option [plot_series] sends the file
    and that text, whatever the series, titles and style. *)
Theorem plot_command_joins_the_clauses
        (file : string) (files titles : list string) (options : list (string * string))
        (nseries : nat) :
  (find_option "command" options = None ->
   series_command file nseries titles options
   = "plot " ++ String.concat ", "
                 (map (clause (series_source file) titles (find_option "style" options))
                      (seq 0 nseries)))
  /\ (forall command,
         find_option "command" options = Some command ->
         series_command file nseries titles options
         = "plot " ++ dq ++ file ++ dq ++ " " ++ command)
  /\ multi_series_command files titles options
     = "plot " ++ String.concat ", "
                   (map (clause (multi_source files) titles (find_option "style" options))
                        (seq 0 (List.length files)))
  /\ histogram_command file nseries titles options
     = "plot " ++ String.concat ", "
                   (map (clause (histogram_source file) titles (find_option "style" options))
                        (seq 0 nseries)).
Proof.
  split; [|split; [|split]].
  - intros Hc. unfold series_command. rewrite Hc. f_equal. now apply clauses_join.
  - intros command Hc. unfold series_command. now rewrite Hc.
  - unfold multi_series_command. f_equal. now apply clauses_join.
  - unfold histogram_command. f_equal. now apply clauses_join.
Qed.

Section DataFacts.

Variable D : Type.
Variable show : D -> string.
Variable row_size : list D -> nat.

Lemma write_rows_bound (values : list (entry D)) :
  (forall xs, row_size xs = List.length xs) ->
  (forall xs, In (Row D xs) values -> xs <> []) ->
  forall keys m out out' n,
    write_rows D show row_size keys values m out = inr (out', n) ->
    (m = 0 \/ n <= m) /\ forall e, In e values -> n <= width D e.
Proof.
  intros Hsize. induction values as [|e values IH]; intros Hrows keys m out out' n H.
  - cbn [write_rows] in H. injection H as _ <-. split; [now right | intros e []].
  - cbn [write_rows] in H. destruct keys as [|k keys]; [discriminate|].
    assert (Hrows' : forall xs, In (Row D xs) values -> xs <> [])
      by (intros xs Hin; apply Hrows; now right).
    destruct e as [x|xs].
    + apply (IH Hrows') in H as [Hm He]. split.
      * destruct m; [now left | right; lia].
      * intros e [<- | Hin]; [simpl; lia | now apply He].
    + assert (Hpos : 0 < List.length xs).
      { specialize (Hrows xs (or_introl eq_refl)). destruct xs; [contradiction | simpl; lia]. }
      rewrite Hsize in H. destruct (Nat.eqb_spec m 0) as [->|Hm0].
      * apply (IH Hrows') in H as [Hm He]. split; [now left|].
        intros e [<- | Hin]; [simpl; lia | now apply He].
      * destruct (Nat.eqb_spec m (List.length xs)) as [->|]; [|discriminate].
        cbn [negb] in H. apply (IH Hrows') in H as [Hm He]. split; [right; lia|].
        intros e [<- | Hin]; [simpl; lia | now apply He].
Qed.

Lemma write_rows_in_range (values : list (entry D)) :
  forall keys m out,
    List.length values <= List.length keys ->
    write_rows D show row_size keys values m out <> inl KeyOutOfRange.
Proof.
  induction values as [|e values IH]; intros keys m out Hlen; [discriminate|].
  cbn [write_rows]. destruct keys as [|k keys]; [simpl in Hlen; lia|].
  simpl in Hlen. assert (Hlen' : List.length values <= List.length keys) by lia.
  destruct e as [x|xs]; [now apply IH|].
  destruct (m =? 0)%nat; [now apply IH|].
  destruct (negb (m =? row_size xs)%nat); [discriminate | now apply IH].
Qed.

End DataFacts.

(** X15: every column the [plot] command names is in every line of the
    data file.  When [tablesize] counts the numbers of a row and no row
    is empty, a data file written without error comes with a number of
    series that is at most the number of values of each of its lines
    (series [i] is plotted from column [i+2], the key being column 1). *)
Theorem plotted_columns_exist
        (D : Type) (show : D -> string) (row_size : list D -> nat)
        (values_size : nat) (keys : list string) (values : list (entry D))
        (out : string) (nseries : nat) :
  (forall xs, row_size xs = List.length xs) ->
  (forall xs, In (Row D xs) values -> xs <> []) ->
  write_data D show row_size values_size keys values = inr (out, nseries) ->
  forall e, In e values -> nseries <= width D e.
Proof.
  intros Hsize Hrows H. unfold write_data in H.
  destruct (negb (values_size =? List.length keys)%nat); [discriminate|].
  now apply (write_rows_bound D show row_size values Hsize Hrows keys 0 "" out nseries).
Qed.

(** X16: when [tablesize] gives the number of values the loop goes
    through, the check of lines 212-214 keeps [keys[j]] inside the vector:
    the data file is written, or one of the two errors is reported, but no
    key is read past the end. *)
Theorem keys_are_read_in_range
        (D : Type) (show : D -> string) (row_size : list D -> nat)
        (keys : list string) (values : list (entry D)) :
  write_data D show row_size (List.length values) keys values <> inl KeyOutOfRange
  /\ (List.length values <> List.length keys ->
      write_data D show row_size (List.length values) keys values = inl KeysMismatch).
Proof.
  unfold write_data.
  destruct (Nat.eqb_spec (List.length values) (List.length keys)) as [E|E]; cbn [negb].
  - split; [|intros H; now elim H]. apply write_rows_in_range. lia.
  - split; [discriminate | reflexivity].
Qed.


(** ** The properties of the gnuplot binding on concrete values *)

Lemma set_output_names_a_known_terminal_witness :
  ("svg" = "svg" \/ "svg" = "x11")
  /\ terminal_of "svg" (FileWidth "report.eps" 800) = Some "postscript eps color enhanced"
  /\ terminal_of "svg" (File "report.") = Some "svg"
  /\ exists terminal,
      terminal_of "svg" (FileWidth "report.eps" 800) = Some terminal
      /\ terminal <> "" /\ terminal <> "ps" /\ terminal <> "eps" /\ terminal <> "jpg".
Proof.
  split; [now left|]. split; [reflexivity|]. split; [reflexivity|].
  destruct (set_output_names_a_known_terminal (fun fmt _ => fmt) "svg"
                                              (FileWidth "report.eps" 800) (or_introl eq_refl))
    as (terminal & H & H1 & H2 & H3 & H4 & _).
  exists terminal. repeat split; assumption.
Defined.


Lemma extension_decides_the_terminal_witness :
  no_dot "png" = true
  /\ choose_terminal "svg" ("plots/commits" ++ "." ++ "png") "" = Some "png"
  /\ no_dot "commits" = true
  /\ choose_terminal "svg" "commits" "" = Some "svg".
Proof.
  split; [reflexivity|]. split.
  - exact (proj1 (extension_decides_the_terminal "svg" "plots/commits" "png" "commits") eq_refl).
  - split; [reflexivity|].
    exact (proj2 (extension_decides_the_terminal "svg" "plots/commits" "png" "commits") eq_refl).
Defined.


Lemma plot_command_joins_the_clauses_witness :
  find_option "command" [("style", "lines")] = None
  /\ series_command "/tmp/data" 2 ["commits"] [("style", "lines")]
     = "plot " ++ String.concat ", "
                   (map (clause (series_source "/tmp/data") ["commits"] (Some "lines"))
                        (seq 0 2))
  /\ series_command "/tmp/data" 2 ["commits"] [("style", "lines")]
     = "plot " ++ dq ++ "/tmp/data" ++ dq ++ " using 1:2 title " ++ dq ++ "commits" ++ dq
       ++ " with lines, " ++ dq ++ "/tmp/data" ++ dq ++ " using 1:3 notitle with lines".
Proof.
  split; [reflexivity|]. split; [|reflexivity].
  exact (proj1 (plot_command_joins_the_clauses "/tmp/data" [] ["commits"] [("style", "lines")] 2)
               eq_refl).
Defined.


Lemma plotted_columns_exist_witness :
  (forall xs : list nat, List.length xs = List.length xs)
  /\ write_data nat to_s (@List.length nat) 2 ["2010"; "2011"] [Row nat [3; 1]; Row nat [4; 0]]
     = inr ("2010 3 1 " ++ chr nl ++ "2011 4 0 " ++ chr nl, 2)
  /\ (forall e, In e [Row nat [3; 1]; Row nat [4; 0]] -> 2 <= width nat e).
Proof.
  split; [reflexivity|]. split; [reflexivity|].
  refine (plotted_columns_exist nat to_s (@List.length nat) 2 ["2010"; "2011"]
                                [Row nat [3; 1]; Row nat [4; 0]] _ 2
                                (fun xs => eq_refl) _ eq_refl).
  intros xs [E | [E | []]]; injection E as <-; discriminate.
Defined.


(** With an empty row the bound of X15 fails: the first line has no
    value, and two series are plotted. *)
Example empty_row_breaks_the_bound :
  write_data nat to_s (@List.length nat) 2 ["2010"; "2011"] [Row nat []; Row nat [4; 0]]
  = inr ("2010 " ++ chr nl ++ "2011 4 0 " ++ chr nl, 2)
  /\ width nat (Row nat []) = 0.
Proof. split; reflexivity. Qed.


Lemma keys_are_read_in_range_witness :
  List.length [Scalar nat 3; Scalar nat 4] <> List.length ["2010"]
  /\ write_data nat to_s (@List.length nat) (List.length [Scalar nat 3; Scalar nat 4])
                ["2010"] [Scalar nat 3; Scalar nat 4]
     = inl KeysMismatch.
Proof.
  assert (H : List.length [Scalar nat 3; Scalar nat 4] <> List.length ["2010"])
    by (simpl; lia).
  split; [exact H|].
  exact (proj2 (keys_are_read_in_range nat to_s (@List.length nat) ["2010"]
                                       [Scalar nat 3; Scalar nat 4]) H).
Defined.

